(** * jpegli encoder front end (lib/jpegli/encode.cc)

    A shallow embedding of the marker store, the chunked ICC reader and
    writer, the default scan-script planner, the sampling-factor validation
    of [jpegli_start_compress] and the input stager
    [jpegli_write_scanlines], together with the properties the
    specification states about them.

    Conventions.
    - [uint8_t], [int], [unsigned int] and [size_t] values are integers of
      [Z]; a conversion that can change the value is written out
      ([to_uint8], [wrap32]).
    - A [std::vector<uint8_t>] is a [list Z]; [std::vector] indexing is
      list lookup, [push_back] is [++ [_]].
    - [JPEGLI_ERROR] does not return to its caller: a function that can
      raise it returns a [result] whose [Err] case carries the error.
    - [jxl::Status] functions return a [result] over [jxl_failure].
    - [float] samples are kept abstract: the type of plane values, the
      three sample conversions and the byte order of the host form the
      class [Platform]. *)

From Stdlib Require Import ZArith Lia List Bool.
From stdpp Require Import base numbers option list strings.

Local Open Scope Z_scope.

(** ** Results of fallible calls *)

Inductive jpegli_error : Type :=
  | InvalidMarkerLength          (* "Invalid marker length %u" *)
  | UnsupportedMarker            (* "Only APP and COM markers are supported." *)
  | MarkerHeaderMissing          (* "Marker header missing." *)
  | UnsupportedSubsampling       (* "Horizontal- or vertical-only subsampling ..." *)
  | NonIntegralSubsamplingRatio  (* "Non-integral sampling ratios ..." *)
  | InvalidSamplingFactor        (* "Invalid sampling factor %d" *)
  | InvalidComponents.           (* "Invalid number of components." *)

Inductive jxl_failure : Type :=
  | ChunkTooSmall        (* "Chunk is too small." *)
  | InvalidChunkOrder    (* "Invalid chunk order." *)
  | ZeroTotal            (* JXL_RETURN_IF_ERROR(total != 0) *)
  | TotalMismatch        (* JXL_RETURN_IF_ERROR(expected_number_of_parts == total) *)
  | InvalidChunkIndex    (* "Invalid chunk index." *)
  | DuplicateChunk       (* "Duplicate chunk." *)
  | MissingChunk.        (* "Missing chunk." *)

Inductive result (E A : Type) : Type :=
  | Ok (a : A)
  | Err (e : E).
Arguments Ok {E A} a.
Arguments Err {E A} e.

Definition bind {E A B : Type} (c : result E A) (k : A -> result E B)
  : result E B :=
  match c with
  | Ok a => k a
  | Err e => Err e
  end.

Notation "'let*' x ':=' c 'in' k" := (bind c (fun x => k))
  (at level 10, x pattern, c at level 100, k at level 200).

(** ** Machine integers and byte vectors *)

(** Conversion of an [int] to [uint8_t]: reduction modulo 256. *)
Definition to_uint8 (v : Z) : Z := v mod 256.

(** Arithmetic on [unsigned int] and [JDIMENSION] is modulo 2^32. *)
Definition wrap32 (v : Z) : Z := v mod 2 ^ 32.

(** [v.size()] as an integer. *)
Definition vsize {A : Type} (v : list A) : Z := Z.of_nat (length v).

(** [v[i]] on a byte vector.  An index outside the vector is undefined in
    the source; the default keeps the function total. *)
Definition byte_at (v : list Z) (i : Z) : Z := default 0 (v !! Z.to_nat i).

(** Every element is a [uint8_t]. *)
Definition octets (v : list Z) : Prop := Forall (fun b => 0 <= b < 256) v.

(** ** Constants *)

(** Modelled from the spec: [JPEG_APP0] comes from jpeglib.h, outside
    lib/jpegli/encode.cc; APP0..APP15 are the codes 0xE0..0xEF. *)
Definition JPEG_APP0 : Z := 0xe0.

(** Modelled from the spec: [DCTSIZE] and [DCTSIZE2] come from jpeglib.h;
    blocks are 8 by 8 and the last coefficient index is 63. *)
Definition DCTSIZE : Z := 8.
Definition DCTSIZE2 : Z := 64.

Definition kICCSignature : list Z :=
  [0x49; 0x43; 0x43; 0x5F; 0x50; 0x52; 0x4F; 0x46; 0x49; 0x4C; 0x45; 0x00].
Definition kICCMarker : Z := JPEG_APP0 + 2.
Definition kMaxBytesInMarker : Z := 65533.

(** Modelled from the spec: [kApp2] and [kIccProfileTag], the arguments
    [SetColorEncodingFromIccData] passes to [ParseChunkedMarker], are
    declared in headers outside lib/jpegli/encode.cc; they are the APP2
    marker code and the twelve bytes "ICC_PROFILE\0". *)
Definition kApp2 : Z := 0xe2.
Definition kIccProfileTag : list Z :=
  ((fun a => Z.of_N (Ascii.N_of_ascii a))
     <$> String.list_ascii_of_string "ICC_PROFILE"%string) ++ [0].

(** Local constant of [jpegli_write_icc_profile]. *)
Definition kMaxIccBytesInMarker : Z :=
  kMaxBytesInMarker - vsize kICCSignature - 2.

(** Modelled from the spec: [jpegli::DivCeil] is declared in a header
    outside lib/jpegli/encode.cc; it is the quotient rounded up. *)
Definition DivCeil (a b : Z) : Z := (a + b - 1) / b.

(** ** Data model *)

Inductive JpegliDataType : Type :=
  | JPEGLI_TYPE_FLOAT
  | JPEGLI_TYPE_UINT8
  | JPEGLI_TYPE_UINT16.

Inductive JpegliEndianness : Type :=
  | JPEGLI_NATIVE_ENDIAN
  | JPEGLI_LITTLE_ENDIAN
  | JPEGLI_BIG_ENDIAN.

Record jpeg_component_info : Type := {
  h_samp_factor : Z;
  v_samp_factor : Z;
  quant_tbl_no : Z;
  component_index : Z;
  component_id : Z
}.

(** [component_index] of a scan holds the entries the code assigns, that
    is the first [comps_in_scan] ones. *)
Record jpeg_scan_info : Type := {
  comps_in_scan : Z;
  scan_component_index : list Z;
  Ss : Z;
  Se : Z;
  Ah : Z;
  Al : Z
}.

Record ProgressiveScan : Type := {
  ps_Ss : Z;
  ps_Se : Z;
  ps_Ah : Z;
  ps_Al : Z;
  interleaved : bool
}.

(** What the platform contributes to the staging of samples: the type of
    plane values, the contents of a fresh image, the three conversions
    [jpegli_write_scanlines] applies to the samples it reads, and the byte
    order of the host. *)
Class Platform (float : Type) : Type := {
  indeterminate : float;               (* contents of a fresh image *)
  u8_to_float : Z -> float;            (* p * kMul8 *)
  u16_to_float : Z -> float;           (* v * kMul16 *)
  bits_to_float : Z -> float;          (* the float with these 32 bits *)
  host_little_endian : bool            (* IsLittleEndian() *)
}.

Section Encoder.

Context {float : Type} {platform : Platform float}.

(** [jxl::Image3F]: three planes of rows of samples, with the logical
    extent [ShrinkTo] sets. *)
Record Image3F : Type := {
  xsize : Z;
  ysize : Z;
  planes : list (list (list float))
}.

Record jpeg_comp_master : Type := {
  special_markers : list (list Z);
  (* index of the blob the pointer refers to; [None] is nullptr *)
  cur_marker_data : option nat;
  progressive_level : Z;
  max_shift : Z;
  xsize_blocks : Z;
  ysize_blocks : Z;
  data_type : JpegliDataType;
  endianness : JpegliEndianness;
  input : Image3F
}.

Record jpeg_compress_struct : Type := {
  master : jpeg_comp_master;
  image_width : Z;
  image_height : Z;
  num_components : Z;
  comp_info : list jpeg_component_info;
  next_scanline : Z;
  max_h_samp_factor : Z;
  max_v_samp_factor : Z;
  progressive_mode : bool;
  (* [None] is nullptr *)
  scan_info : option (list jpeg_scan_info);
  num_scans : Z;
  script_space : list jpeg_scan_info;
  script_space_size : Z
}.

(** Field updates. *)

Definition set_markers (m : jpeg_comp_master)
    (sm : list (list Z)) (cur : option nat) : jpeg_comp_master :=
  {| special_markers := sm; cur_marker_data := cur;
     progressive_level := progressive_level m; max_shift := max_shift m;
     xsize_blocks := xsize_blocks m; ysize_blocks := ysize_blocks m;
     data_type := data_type m; endianness := endianness m;
     input := input m |}.

Definition set_geometry (m : jpeg_comp_master)
    (shift xb yb : Z) (img : Image3F) : jpeg_comp_master :=
  {| special_markers := special_markers m;
     cur_marker_data := cur_marker_data m;
     progressive_level := progressive_level m; max_shift := shift;
     xsize_blocks := xb; ysize_blocks := yb;
     data_type := data_type m; endianness := endianness m;
     input := img |}.

Definition set_input (m : jpeg_comp_master) (img : Image3F)
  : jpeg_comp_master :=
  set_geometry m (max_shift m) (xsize_blocks m) (ysize_blocks m) img.

Definition set_master (cinfo : jpeg_compress_struct)
    (m : jpeg_comp_master) : jpeg_compress_struct :=
  {| master := m; image_width := image_width cinfo;
     image_height := image_height cinfo;
     num_components := num_components cinfo;
     comp_info := comp_info cinfo;
     next_scanline := next_scanline cinfo;
     max_h_samp_factor := max_h_samp_factor cinfo;
     max_v_samp_factor := max_v_samp_factor cinfo;
     progressive_mode := progressive_mode cinfo;
     scan_info := scan_info cinfo; num_scans := num_scans cinfo;
     script_space := script_space cinfo;
     script_space_size := script_space_size cinfo |}.

Definition set_next_scanline (cinfo : jpeg_compress_struct) (n : Z)
  : jpeg_compress_struct :=
  {| master := master cinfo; image_width := image_width cinfo;
     image_height := image_height cinfo;
     num_components := num_components cinfo;
     comp_info := comp_info cinfo;
     next_scanline := n;
     max_h_samp_factor := max_h_samp_factor cinfo;
     max_v_samp_factor := max_v_samp_factor cinfo;
     progressive_mode := progressive_mode cinfo;
     scan_info := scan_info cinfo; num_scans := num_scans cinfo;
     script_space := script_space cinfo;
     script_space_size := script_space_size cinfo |}.

Definition set_progressive_mode (cinfo : jpeg_compress_struct) (b : bool)
  : jpeg_compress_struct :=
  {| master := master cinfo; image_width := image_width cinfo;
     image_height := image_height cinfo;
     num_components := num_components cinfo;
     comp_info := comp_info cinfo;
     next_scanline := next_scanline cinfo;
     max_h_samp_factor := max_h_samp_factor cinfo;
     max_v_samp_factor := max_v_samp_factor cinfo;
     progressive_mode := b;
     scan_info := scan_info cinfo; num_scans := num_scans cinfo;
     script_space := script_space cinfo;
     script_space_size := script_space_size cinfo |}.

Definition set_max_samp (cinfo : jpeg_compress_struct) (h v : Z)
  : jpeg_compress_struct :=
  {| master := master cinfo; image_width := image_width cinfo;
     image_height := image_height cinfo;
     num_components := num_components cinfo;
     comp_info := comp_info cinfo;
     next_scanline := next_scanline cinfo;
     max_h_samp_factor := h;
     max_v_samp_factor := v;
     progressive_mode := progressive_mode cinfo;
     scan_info := scan_info cinfo; num_scans := num_scans cinfo;
     script_space := script_space cinfo;
     script_space_size := script_space_size cinfo |}.

Definition set_script (cinfo : jpeg_compress_struct)
    (space : list jpeg_scan_info) (size : Z) : jpeg_compress_struct :=
  {| master := master cinfo; image_width := image_width cinfo;
     image_height := image_height cinfo;
     num_components := num_components cinfo;
     comp_info := comp_info cinfo;
     next_scanline := next_scanline cinfo;
     max_h_samp_factor := max_h_samp_factor cinfo;
     max_v_samp_factor := max_v_samp_factor cinfo;
     progressive_mode := progressive_mode cinfo;
     scan_info := Some space; num_scans := size;
     script_space := space;
     script_space_size := size |}.

(** ** Marker store *)

(** [jpegli_write_m_header].  After the length check [datalen + 2] is at
    most 65535, so the [unsigned int] sum does not wrap. *)
Definition jpegli_write_m_header (cinfo : jpeg_compress_struct)
    (marker datalen : Z) : result jpegli_error jpeg_compress_struct :=
  let m := master cinfo in
  if datalen >? kMaxBytesInMarker then Err InvalidMarkerLength
  else if negb (marker =? 0xfe) && ((marker <? 0xe0) || (marker >? 0xef))
  then Err UnsupportedMarker
  else
    let marker_data :=
      [ 0xff;
        to_uint8 marker;
        to_uint8 (Z.shiftr (wrap32 (datalen + 2)) 8);
        to_uint8 (Z.land (wrap32 (datalen + 2)) 0xff) ] in
    Ok (set_master cinfo
          (set_markers m (special_markers m ++ [marker_data])
                       (Some (length (special_markers m))))).

(** [jpegli_write_m_byte]: [push_back] of an [int] on a vector of
    [uint8_t]. *)
Definition jpegli_write_m_byte (cinfo : jpeg_compress_struct) (val : Z)
  : result jpegli_error jpeg_compress_struct :=
  let m := master cinfo in
  match cur_marker_data m with
  | None => Err MarkerHeaderMissing
  | Some cur =>
      Ok (set_master cinfo
            (set_markers m
               (alter (fun blob => blob ++ [to_uint8 val]) cur
                      (special_markers m))
               (Some cur)))
  end.

(** The loop [for (const unsigned char c : kICCSignature)] of
    [jpegli_write_icc_profile]: one [jpegli_write_m_byte] per element. *)
Fixpoint write_m_bytes (cinfo : jpeg_compress_struct) (vals : list Z)
  : result jpegli_error jpeg_compress_struct :=
  match vals with
  | [] => Ok cinfo
  | c :: vals' =>
      let* cinfo' := jpegli_write_m_byte cinfo c in
      write_m_bytes cinfo' vals'
  end.

(** The loop [for (size_t i = 0; i < length; ++i)] of
    [jpegli_write_icc_profile]; it threads [begin]. *)
Fixpoint icc_copy_loop (icc_data_ptr : list Z) (length : nat)
    (cinfo : jpeg_compress_struct) (begin : Z)
  : result jpegli_error (jpeg_compress_struct * Z) :=
  match length with
  | O => Ok (cinfo, begin)
  | S length' =>
      let* cinfo' := jpegli_write_m_byte cinfo (byte_at icc_data_ptr begin) in
      icc_copy_loop icc_data_ptr length' cinfo' (begin + 1)
  end.

(** The loop over [current_marker] of [jpegli_write_icc_profile];
    [remaining] is [num_markers - current_marker].  [begin] never exceeds
    [icc_data_len], so the [size_t] difference does not wrap. *)
Fixpoint icc_marker_loop (icc_data_ptr : list Z) (icc_data_len : Z)
    (num_markers : Z) (remaining : nat) (current_marker : Z)
    (cinfo : jpeg_compress_struct) (begin : Z)
  : result jpegli_error jpeg_compress_struct :=
  match remaining with
  | O => Ok cinfo
  | S remaining' =>
      let length := Z.min kMaxIccBytesInMarker (icc_data_len - begin) in
      let* c1 := jpegli_write_m_header cinfo kICCMarker
                   (length + vsize kICCSignature + 2) in
      let* c2 := write_m_bytes c1 kICCSignature in
      let* c3 := jpegli_write_m_byte c2 (current_marker + 1) in
      let* c4 := jpegli_write_m_byte c3 num_markers in
      let* copied :=
        icc_copy_loop icc_data_ptr (Z.to_nat length) c4 begin in
      icc_marker_loop icc_data_ptr icc_data_len num_markers remaining'
        (current_marker + 1) (fst copied) (snd copied)
  end.

(** [jpegli_write_icc_profile].  For an [unsigned int] length the marker
    count is below 2^17, so its conversions to [unsigned int] and [int]
    keep the value. *)
Definition jpegli_write_icc_profile (cinfo : jpeg_compress_struct)
    (icc_data_ptr : list Z) (icc_data_len : Z)
  : result jpegli_error jpeg_compress_struct :=
  let num_markers := DivCeil icc_data_len kMaxIccBytesInMarker in
  icc_marker_loop icc_data_ptr icc_data_len num_markers
    (Z.to_nat num_markers) 0 cinfo 0.

(** ** Chunked marker reader *)

(** [GetMarkerPayload]: [None] is the [false] return, [Some payload] the
    [true] return with the span written to [*payload]. *)
Definition GetMarkerPayload (data : list Z) : option (list Z) :=
  if vsize data <? 4 then None
  else
    let hi := byte_at data 2 in
    let lo := byte_at data 3 in
    let internal_size := Z.lor (Z.shiftl hi 8) lo in
    if negb (internal_size =? vsize data - 2) then None
    else Some (drop 4 data).

(** The locals of [ParseChunkedMarker] that live across its first loop. *)
Record chunk_state : Type := {
  chunks : list (list Z);
  presence : list bool;
  expected_number_of_parts : Z;
  is_first_chunk : bool;
  ordinal : Z
}.

Definition initial_chunk_state : chunk_state :=
  {| chunks := []; presence := []; expected_number_of_parts := 0;
     is_first_chunk := true; ordinal := 0 |}.

(** One iteration of the loop over [special_markers]; [Ok st] with the
    state unchanged is a [continue]. *)
Definition parse_marker (marker_type : Z) (tag : list Z)
    (allow_permutations : bool) (st : chunk_state) (marker : list Z)
  : result jxl_failure chunk_state :=
  if (vsize marker <? 2) || negb (byte_at marker 1 =? marker_type)
  then Ok st
  else
    match GetMarkerPayload marker with
    | None => Ok st
    | Some payload =>
        if (vsize payload <? vsize tag)
           || negb (bool_decide (take (length tag) payload = tag))
        then Ok st
        else
          let payload := drop (length tag) payload in
          if vsize payload <? 2 then Err ChunkTooSmall
          else
            let index := byte_at payload 0 in
            let total := byte_at payload 1 in
            let ordinal' := ordinal st + 1 in
            if negb allow_permutations && negb (index =? ordinal')
            then Err InvalidChunkOrder
            else
              let payload := drop 2 payload in
              if total =? 0 then Err ZeroTotal
              else
                let* st1 :=
                  if is_first_chunk st then
                    Ok {| chunks := resize (Z.to_nat (total + 1)) [] (chunks st);
                          presence :=
                            resize (Z.to_nat (total + 1)) false (presence st);
                          expected_number_of_parts := total;
                          is_first_chunk := false;
                          ordinal := ordinal' |}
                  else if expected_number_of_parts st =? total then
                    Ok {| chunks := chunks st; presence := presence st;
                          expected_number_of_parts :=
                            expected_number_of_parts st;
                          is_first_chunk := false;
                          ordinal := ordinal' |}
                  else Err TotalMismatch in
                if (index =? 0) || (index >? total)
                then Err InvalidChunkIndex
                else if default false (presence st1 !! Z.to_nat index)
                then Err DuplicateChunk
                else
                  Ok {| chunks := <[Z.to_nat index := payload]> (chunks st1);
                        presence := <[Z.to_nat index := true]> (presence st1);
                        expected_number_of_parts :=
                          expected_number_of_parts st1;
                        is_first_chunk := is_first_chunk st1;
                        ordinal := ordinal st1 |}
    end.

(** The loop over [cinfo->master->special_markers]. *)
Fixpoint parse_markers (marker_type : Z) (tag : list Z)
    (allow_permutations : bool) (st : chunk_state)
    (markers : list (list Z)) : result jxl_failure chunk_state :=
  match markers with
  | [] => Ok st
  | marker :: markers' =>
      let* st' := parse_marker marker_type tag allow_permutations st marker in
      parse_markers marker_type tag allow_permutations st' markers'
  end.

(** The closing loop [for (size_t i = 0; i < expected_number_of_parts; ++i)];
    [todo] counts the iterations left and [output] accumulates. *)
Fixpoint collect_chunks (st : chunk_state) (todo : nat) (i : Z)
    (output : list Z) : result jxl_failure (list Z) :=
  match todo with
  | O => Ok output
  | S todo' =>
      let index := i + 1 in
      if negb (default false (presence st !! Z.to_nat index))
      then Err MissingChunk
      else collect_chunks st todo' (i + 1)
             (output ++ default [] (chunks st !! Z.to_nat index))
  end.

(** [ParseChunkedMarker]: [Ok output] is the [true] return with the bytes
    left in [*output]. *)
Definition ParseChunkedMarker (cinfo : jpeg_compress_struct)
    (marker_type : Z) (tag : list Z) (allow_permutations : bool)
  : result jxl_failure (list Z) :=
  let* st := parse_markers marker_type tag allow_permutations
               initial_chunk_state (special_markers (master cinfo)) in
  collect_chunks st (Z.to_nat (expected_number_of_parts st)) 0 [].

(** ** Installing the ICC marker *)

(** The loop of [SetICCAppMarker]; [acc] is the local [special_markers].
    [JXL_DASSERT(v.size() >= 2)] guards the read of [v[1]]. *)
Fixpoint icc_app_loop (icc : list Z) (markers : list (list Z))
    (acc : list (list Z)) (icc_added : bool) : list (list Z) * bool :=
  match markers with
  | [] => (acc, icc_added)
  | v :: markers' =>
      if negb (byte_at v 1 =? 0xe2) then
        icc_app_loop icc markers' (acc ++ [v]) icc_added
      else if negb icc_added then
        icc_app_loop icc markers' (acc ++ [icc]) true
      else
        icc_app_loop icc markers' acc icc_added
  end.

(** [SetICCAppMarker].  The swap leaves [cur_marker_data] pointing into the
    vector that is destroyed; no marker byte is written afterwards. *)
Definition SetICCAppMarker (cinfo : jpeg_compress_struct) (icc : list Z)
  : jpeg_compress_struct :=
  let m := master cinfo in
  let r := icc_app_loop icc (special_markers m) [] false in
  let special_markers' := if negb (snd r) then fst r ++ [icc] else fst r in
  set_master cinfo (set_markers m special_markers' (cur_marker_data m)).

(** ** Scan-script planner *)

Definition mk_scan (a b c d : Z) (i : bool) : ProgressiveScan :=
  {| ps_Ss := a; ps_Se := b; ps_Ah := c; ps_Al := d; interleaved := i |}.

(** The local vector [progressive_mode] of [SetDefaultScanScript]. *)
Definition scan_templates (level max_shift : Z) : list ProgressiveScan :=
  if level =? 0 then
    [ mk_scan 0 63 0 0 true ]
  else if level =? 1 then
    [ mk_scan 0 0 0 0 (max_shift >? 0);
      mk_scan 1 63 0 1 false;
      mk_scan 1 63 1 0 false ]
  else
    [ mk_scan 0 0 0 0 (max_shift >? 0);
      mk_scan 1 2 0 0 false;
      mk_scan 3 63 0 2 false;
      mk_scan 3 63 2 1 false;
      mk_scan 3 63 1 0 false ].

(** The entries one template writes through [next_scan]. *)
Definition expand_scan (num_components : Z) (scan : ProgressiveScan)
  : list jpeg_scan_info :=
  if interleaved scan then
    [ {| comps_in_scan := num_components;
         scan_component_index := seqZ 0 num_components;
         Ss := ps_Ss scan; Se := ps_Se scan;
         Ah := ps_Ah scan; Al := ps_Al scan |} ]
  else
    (fun c => {| comps_in_scan := 1;
                 scan_component_index := [c];
                 Ss := ps_Ss scan; Se := ps_Se scan;
                 Ah := ps_Ah scan; Al := ps_Al scan |})
      <$> seqZ 0 num_components.

(** [SetDefaultScanScript]: the size is summed first, then the entries are
    written in template order. *)
Definition SetDefaultScanScript (cinfo : jpeg_compress_struct)
    (max_shift : Z) : jpeg_compress_struct :=
  let level := progressive_level (master cinfo) in
  let progressive_mode := scan_templates level max_shift in
  let script_space_size :=
    foldl (fun size scan =>
             size + (if interleaved scan then 1 else num_components cinfo))
          0 progressive_mode in
  let script_space :=
    progressive_mode ≫= expand_scan (num_components cinfo) in
  set_script cinfo script_space script_space_size.

(** The step of [jpegli_finish_compress] that determines the scan script:
    [if (cinfo->scan_info == nullptr) SetDefaultScanScript(...)]. *)
Definition finish_compress_scan_script (cinfo : jpeg_compress_struct)
  : jpeg_compress_struct :=
  match scan_info cinfo with
  | None => SetDefaultScanScript cinfo (max_shift (master cinfo))
  | Some _ => cinfo
  end.

(** ** Starting a compression *)

(** The search [for (; shift < 4; ++shift)] of [jpegli_start_compress]:
    [(valid_factor, shift)] at its exit. *)
Fixpoint find_shift (factor : Z) (todo : nat) (shift : Z) : bool * Z :=
  match todo with
  | O => (false, shift)
  | S todo' =>
      if factor =? Z.shiftl 1 shift then (true, shift)
      else find_shift factor todo' (shift + 1)
  end.

(** The second loop over the components; it threads [m->max_shift].  [%]
    and [/] on [int] truncate towards zero. *)
Fixpoint validate_sampling (max_h : Z) (comps : list jpeg_component_info)
    (max_shift : Z) : result jpegli_error Z :=
  match comps with
  | [] => Ok max_shift
  | comp :: comps' =>
      if negb (h_samp_factor comp =? v_samp_factor comp)
      then Err UnsupportedSubsampling
      else if negb (Z.rem max_h (h_samp_factor comp) =? 0)
      then Err NonIntegralSubsamplingRatio
      else
        let factor := Z.quot max_h (h_samp_factor comp) in
        let found := find_shift factor 4 0 in
        if negb (fst found) then Err InvalidSamplingFactor
        else validate_sampling max_h comps' (Z.max (snd found) max_shift)
  end.

(** [cinfo->comp_info[c]] for [c] below [num_components]. *)
Definition components (cinfo : jpeg_compress_struct)
  : list jpeg_component_info :=
  take (Z.to_nat (num_components cinfo)) (comp_info cinfo).

(** The first loop over the components, for one of the two factors: the
    running maximum starts at 1. *)
Definition max_samp (factor : jpeg_component_info -> Z)
    (comps : list jpeg_component_info) : Z :=
  foldl (fun acc comp => Z.max (factor comp) acc) 1 comps.

(** [jxl::Image3F(xs, ys)] followed by [ShrinkTo(w, h)]. *)
Definition new_image (xs ys w h : Z) : Image3F :=
  {| xsize := w; ysize := h;
     planes := replicate 3 (replicate (Z.to_nat ys)
                              (replicate (Z.to_nat xs) indeterminate)) |}.

(** [jpegli_start_compress].  A script with no entry makes the read of
    [scan_info->Ss] undefined; the model then leaves the flag clear. *)
Definition jpegli_start_compress (cinfo : jpeg_compress_struct)
    (write_all_tables : bool) : result jpegli_error jpeg_compress_struct :=
  let cinfo := set_next_scanline cinfo 0 in
  let cinfo :=
    set_progressive_mode cinfo
      match scan_info cinfo with
      | Some (s :: _) => negb (Ss s =? 0) || negb (Se s =? DCTSIZE2 - 1)
      | Some [] => false
      | None => progressive_level (master cinfo) >? 0
      end in
  let max_h := max_samp h_samp_factor (components cinfo) in
  let max_v := max_samp v_samp_factor (components cinfo) in
  let cinfo := set_max_samp cinfo max_h max_v in
  let* shift := validate_sampling max_h (components cinfo) 0 in
  let m := master cinfo in
  let xb :=
    Z.shiftl (DivCeil (image_width cinfo) (Z.shiftl DCTSIZE shift)) shift in
  let yb :=
    Z.shiftl (DivCeil (image_height cinfo) (Z.shiftl DCTSIZE shift)) shift in
  Ok (set_master cinfo
        (set_geometry m shift xb yb
           (new_image (xb * DCTSIZE) (yb * DCTSIZE)
                      (image_width cinfo) (image_height cinfo)))).

(** ** Input stager *)

(** Modelled from the spec: the loads of lib/jxl/base/byte_order.h decode
    with the named byte order. *)
Definition LoadLE16 (row : list Z) (p : Z) : Z :=
  Z.lor (byte_at row p) (Z.shiftl (byte_at row (p + 1)) 8).
Definition LoadBE16 (row : list Z) (p : Z) : Z :=
  Z.lor (byte_at row (p + 1)) (Z.shiftl (byte_at row p) 8).
Definition LoadLE32 (row : list Z) (p : Z) : Z :=
  Z.lor (Z.lor (byte_at row p) (Z.shiftl (byte_at row (p + 1)) 8))
        (Z.lor (Z.shiftl (byte_at row (p + 2)) 16)
               (Z.shiftl (byte_at row (p + 3)) 24)).
Definition LoadBE32 (row : list Z) (p : Z) : Z :=
  Z.lor (Z.lor (byte_at row (p + 3)) (Z.shiftl (byte_at row (p + 2)) 8))
        (Z.lor (Z.shiftl (byte_at row (p + 1)) 16)
               (Z.shiftl (byte_at row p) 24)).

Definition bytes_per_sample (t : JpegliDataType) : Z :=
  match t with
  | JPEGLI_TYPE_UINT8 => 1
  | JPEGLI_TYPE_UINT16 => 2
  | JPEGLI_TYPE_FLOAT => 4
  end.

Definition is_little_endian (e : JpegliEndianness) : bool :=
  match e with
  | JPEGLI_LITTLE_ENDIAN => true
  | JPEGLI_NATIVE_ENDIAN => host_little_endian
  | JPEGLI_BIG_ENDIAN => false
  end.

(** The value stored for the sample at [p], by the branch the data type
    and byte order select. *)
Definition load_sample (t : JpegliDataType) (little : bool)
    (src : list Z) (p : Z) : float :=
  match t with
  | JPEGLI_TYPE_UINT8 => u8_to_float (byte_at src p)
  | JPEGLI_TYPE_UINT16 =>
      u16_to_float (if little then LoadLE16 src p else LoadBE16 src p)
  | JPEGLI_TYPE_FLOAT =>
      bits_to_float (if little then LoadLE32 src p else LoadBE32 src p)
  end.

(** The loop over [x]: [row[x]] is set from the sample of component [c] at
    column [x] of the source line. *)
Definition stage_row (cinfo : jpeg_compress_struct) (src : list Z) (c : Z)
    (row : list float) : list float :=
  let m := master cinfo in
  let bps := bytes_per_sample (data_type m) in
  let pwidth := num_components cinfo * bps in
  foldl (fun row x =>
           <[Z.to_nat x :=
               load_sample (data_type m) (is_little_endian (endianness m))
                           src (c * bps + x * pwidth)]> row)
        row (seqZ 0 (image_width cinfo)).

(** The body of the loop over [i]: the line [scanlines[i]] is staged into
    [PlaneRow(c, next_scanline + i)]. *)
Definition stage_line (cinfo : jpeg_compress_struct)
    (scanlines : list (list Z)) (c i : Z)
    (pl : list (list (list float))) : list (list (list float)) :=
  alter (alter (stage_row cinfo (default [] (scanlines !! Z.to_nat i)) c)
               (Z.to_nat (next_scanline cinfo + i)))
        (Z.to_nat c) pl.

(** The two outer loops of [jpegli_write_scanlines]. *)
Definition stage_lines (cinfo : jpeg_compress_struct)
    (scanlines : list (list Z)) (num_lines : Z)
    (pl : list (list (list float))) : list (list (list float)) :=
  foldl (fun pl c =>
           foldl (fun pl i => stage_line cinfo scanlines c i pl)
                 pl (seqZ 0 num_lines))
        pl (seqZ 0 (num_components cinfo)).

(** [jpegli_write_scanlines]: the context after the call and the value
    returned.  [JDIMENSION] is [unsigned int]. *)
Definition jpegli_write_scanlines (cinfo : jpeg_compress_struct)
    (scanlines : list (list Z)) (num_lines : Z)
  : result jpegli_error (jpeg_compress_struct * Z) :=
  let m := master cinfo in
  if num_components cinfo >? 3 then Err InvalidComponents
  else
    let num_lines :=
      if wrap32 (num_lines + next_scanline cinfo) >? image_height cinfo
      then wrap32 (image_height cinfo - next_scanline cinfo)
      else num_lines in
    let img :=
      {| xsize := xsize (input m); ysize := ysize (input m);
         planes := stage_lines cinfo scanlines num_lines
                     (planes (input m)) |} in
    Ok (set_next_scanline (set_master cinfo (set_input m img))
          (wrap32 (next_scanline cinfo + num_lines)),
        num_lines).

(** ** Vocabulary of the statements *)

(** The marker codes [jpegli_write_m_header] accepts. *)
Definition app_or_com (marker : Z) : Prop :=
  marker = 0xfe \/ 0xe0 <= marker <= 0xef.

(** The four bytes a successful [jpegli_write_m_header] starts a blob with. *)
Definition marker_prefix (marker datalen : Z) : list Z :=
  [0xff; marker; Z.shiftr (datalen + 2) 8; Z.land (datalen + 2) 0xff].

(** An entry [SetICCAppMarker] takes for an APP2 marker. *)
Definition is_app2 (v : list Z) : Prop := byte_at v 1 = 0xe2.

(** The scan of a template that is not interleaved, for component [c]. *)
Definition single_scan (a b c d : Z) (comp : Z) : jpeg_scan_info :=
  {| comps_in_scan := 1; scan_component_index := [comp];
     Ss := a; Se := b; Ah := c; Al := d |}.

(** The scan of an interleaved template over [n] components. *)
Definition joint_scan (a b c d : Z) (n : Z) : jpeg_scan_info :=
  {| comps_in_scan := n; scan_component_index := seqZ 0 n;
     Ss := a; Se := b; Ah := c; Al := d |}.

Definition header_tuple (t : ProgressiveScan) : Z * Z * Z * Z :=
  (ps_Ss t, ps_Se t, ps_Ah t, ps_Al t).

(** A component passes the three checks of [jpegli_start_compress]: equal
    factors, and [max_h] an integer multiple [k * h] of the horizontal
    factor with [k] a power of two in {1, 2, 4, 8}. *)
Definition comp_ok (max_h : Z) (comp : jpeg_component_info) : Prop :=
  h_samp_factor comp = v_samp_factor comp /\
  exists k, max_h = k * h_samp_factor comp /\
            (k = 1 \/ k = 2 \/ k = 4 \/ k = 8).

(** [comp] is the first component, in index order, that fails a check. *)
Definition first_offender (max_h : Z) (comps : list jpeg_component_info)
    (comp : jpeg_component_info) : Prop :=
  exists c : nat,
    comps !! c = Some comp /\ ~ comp_ok max_h comp /\
    Forall (comp_ok max_h) (take c comps).

(** The context with the marker list and the open-blob reference replaced. *)
Definition with_markers (cinfo : jpeg_compress_struct)
    (sm : list (list Z)) (cur : option nat) : jpeg_compress_struct :=
  set_master cinfo (set_markers (master cinfo) sm cur).

(** The blob one round of the marker loop leaves in the store. *)
Definition icc_marker (seq_no total : Z) (chunk : list Z) : list Z :=
  marker_prefix kICCMarker (vsize chunk + vsize kICCSignature + 2)
    ++ kICCSignature ++ [to_uint8 seq_no; to_uint8 total] ++ chunk.

(** The blobs [rounds] rounds of the marker loop leave, from the bytes not
    yet copied. *)
Fixpoint icc_markers (rounds : nat) (current_marker total : Z)
    (rest : list Z) : list (list Z) :=
  match rounds with
  | O => []
  | S rounds' =>
      icc_marker (current_marker + 1) total
        (to_uint8 <$> take (Z.to_nat kMaxIccBytesInMarker) rest)
      :: icc_markers rounds' (current_marker + 1) total
           (drop (Z.to_nat kMaxIccBytesInMarker) rest)
  end.

(** The shape of an emitted blob: header, signature, sequence number,
    count, then at most [kMaxIccBytesInMarker] profile bytes. *)
Definition icc_marker_shape (m : list Z) : Prop :=
  exists seq_no total chunk,
    m = marker_prefix 0xe2 (vsize chunk + 12 + 2)
          ++ kICCSignature ++ [seq_no; total] ++ chunk /\
    vsize chunk <= kMaxIccBytesInMarker /\
    vsize m = 4 + 12 + 2 + vsize chunk.

(** The locals of [ParseChunkedMarker] once the chunks [done] of a profile
    split in [total] parts have been read, in order. *)
Definition state_after (total : Z) (done : list (list Z)) : chunk_state :=
  match done with
  | [] => initial_chunk_state
  | _ =>
      {| chunks :=
           [] :: done ++ replicate (Z.to_nat total - length done) [];
         presence :=
           false :: replicate (length done) true
                 ++ replicate (Z.to_nat total - length done) false;
         expected_number_of_parts := total;
         is_first_chunk := false;
         ordinal := vsize done |}
  end.

(** The profile bytes of the blobs [icc_markers] lists. *)
Fixpoint chunks_of (rounds : nat) (rest : list Z) : list (list Z) :=
  match rounds with
  | O => []
  | S rounds' =>
      take (Z.to_nat kMaxIccBytesInMarker) rest
      :: chunks_of rounds' (drop (Z.to_nat kMaxIccBytesInMarker) rest)
  end.

(** The rows of one plane after the lines [lines] of a batch are staged. *)
Definition stage_plane (cinfo : jpeg_compress_struct)
    (scanlines : list (list Z)) (c : Z) (lines : list Z)
    (plane : list (list float)) : list (list float) :=
  foldl (fun plane i =>
           alter (stage_row cinfo (default [] (scanlines !! Z.to_nat i)) c)
                 (Z.to_nat (next_scanline cinfo + i)) plane)
        plane lines.

(** A context that [jpegli_start_compress] has prepared for staging: the
    cursor is within the image and the three planes cover it. *)
Definition staging_ready (cinfo : jpeg_compress_struct) : Prop :=
  0 <= next_scanline cinfo <= image_height cinfo /\
  image_height cinfo < 2 ^ 32 /\
  0 <= image_width cinfo /\
  0 <= num_components cinfo <= 3 /\
  length (planes (input (master cinfo))) = 3%nat /\
  Forall (fun plane =>
            image_height cinfo <= vsize plane /\
            Forall (fun row => image_width cinfo <= vsize row) plane)
         (planes (input (master cinfo))).

(** The lines of a batch hold every sample the stager reads. *)
Definition lines_ready (cinfo : jpeg_compress_struct)
    (scanlines : list (list Z)) : Prop :=
  Forall (fun line =>
            image_width cinfo * num_components cinfo
              * bytes_per_sample (data_type (master cinfo)) <= vsize line)
         scanlines.

End Encoder.

(** * The rest of the interface *)

(** The functions of lib/jpegli/encode.cc around the ones above: the
    quality mappings, the defaults, the progressive level, the block
    counts of [jpegli_finish_compress], the single-blob ICC marker and the
    choice of the colour encoding. *)

(** What [jxl::ColorEncoding] contributes to the encoder: the built-in
    sRGB encodings and the parser of ICC profiles. *)
Class ColorManagement (ColorEncoding : Type) : Type := {
  SRGB : bool -> ColorEncoding;             (* ColorEncoding::SRGB(is_gray) *)
  SetICC : list Z -> option ColorEncoding   (* [None]: SetICC returns false *)
}.

(** The curve [jpegli_quality_to_distance], computed in [float]. *)
Class DistanceCurve (float : Type) : Type := {
  jpegli_quality_to_distance : Z -> float
}.

Section Interface.

Context {float : Type} {platform : Platform float}.
Context {ColorEncoding : Type} {color : ColorManagement ColorEncoding}.
Context {curve : DistanceCurve float}.

(** ** Marker store and ICC profile *)

(** A call of the marker interface. *)
Inductive marker_call : Type :=
  | CallWriteMHeader (marker datalen : Z)
  | CallWriteMByte (val : Z)
  | CallWriteIccProfile (icc_data : list Z).

Definition run_call (cinfo : @jpeg_compress_struct float) (call : marker_call)
  : result jpegli_error jpeg_compress_struct :=
  match call with
  | CallWriteMHeader marker datalen => jpegli_write_m_header cinfo marker datalen
  | CallWriteMByte val => jpegli_write_m_byte cinfo val
  | CallWriteIccProfile icc_data =>
      jpegli_write_icc_profile cinfo icc_data (vsize icc_data)
  end.

Fixpoint run_calls (cinfo : @jpeg_compress_struct float)
    (calls : list marker_call) : result jpegli_error jpeg_compress_struct :=
  match calls with
  | [] => Ok cinfo
  | call :: calls' =>
      let* cinfo' := run_call cinfo call in run_calls cinfo' calls'
  end.

Definition call_in_range (call : marker_call) : Prop :=
  match call with
  | CallWriteMHeader _ datalen => 0 <= datalen < 2 ^ 32
  | CallWriteMByte _ => True
  | CallWriteIccProfile icc_data => vsize icc_data < 2 ^ 32
  end.

Definition blob_headed (blob : list Z) : Prop :=
  4 <= vsize blob /\ byte_at blob 0 = 0xff /\ app_or_com (byte_at blob 1).

Definition store_ok (cinfo : @jpeg_compress_struct float) : Prop :=
  Forall blob_headed (special_markers (master cinfo)) /\
  (cur_marker_data (master cinfo) = None \/
   special_markers (master cinfo) <> [] /\
   cur_marker_data (master cinfo) =
     Some (length (special_markers (master cinfo)) - 1)%nat).

(** One store extends another: no blob is removed, every blob but the last
    of the old store is unchanged, and the last one only grows. *)
Definition store_extends (old new : list (list Z)) : Prop :=
  (length old <= length new)%nat /\
  (forall j blob, old !! j = Some blob -> (S j < length old)%nat ->
                  new !! j = Some blob) /\
  (forall blob, last old = Some blob ->
                exists more, new !! (length old - 1)%nat = Some (blob ++ more)).

(** The bytes of a C string literal, with its terminating NUL. *)
Definition c_string (s : string) : list Z :=
  ((fun a => Z.of_N (Ascii.N_of_ascii a)) <$> String.list_ascii_of_string s)
    ++ [0].

(** [CreateICCAppMarker]: the vector of [18 + icc.size()] bytes once every
    element has been assigned.  The two length bytes are stored through
    [uint8_t]. *)
Definition CreateICCAppMarker (icc : list Z) : list Z :=
  let size := 18 + vsize icc in
  [ 0xff; 0xe2;
    to_uint8 (Z.shiftr (size - 2) 8);
    to_uint8 (Z.land (size - 2) 0xFF) ]
    ++ c_string "ICC_PROFILE" ++ [1; 1] ++ icc.

(** The bytes in [*output] when the closing loop of [ParseChunkedMarker]
    stops, at a missing chunk or at its end. *)
Fixpoint collected_output (st : chunk_state) (todo : nat) (i : Z)
    (output : list Z) : list Z :=
  match todo with
  | O => output
  | S todo' =>
      let index := i + 1 in
      if negb (default false (presence st !! Z.to_nat index))
      then output
      else collected_output st todo' (i + 1)
             (output ++ default [] (chunks st !! Z.to_nat index))
  end.

(** What [ParseChunkedMarker] leaves in [*output], whether it returns true
    or fails.  [output->clear()] comes first, so a failure in the loop
    over the markers leaves it empty. *)
Definition ParseChunkedMarker_output (cinfo : @jpeg_compress_struct float)
    (marker_type : Z) (tag : list Z) (allow_permutations : bool) : list Z :=
  match parse_markers marker_type tag allow_permutations
          initial_chunk_state (special_markers (master cinfo)) with
  | Err _ => []
  | Ok st =>
      collected_output st (Z.to_nat (expected_number_of_parts st)) 0 []
  end.

(** [SetColorEncodingFromIccData]: [None] is the [false] return, [Some e]
    the [true] return with [e] left in [*color_encoding]. *)
Definition SetColorEncodingFromIccData (cinfo : @jpeg_compress_struct float)
  : option ColorEncoding :=
  let icc_profile :=
    match ParseChunkedMarker cinfo kApp2 kIccProfileTag false with
    | Ok icc_profile => icc_profile
    | Err _ => []    (* JXL_WARNING, then icc_profile.clear() *)
    end in
  if bool_decide (icc_profile = []) then
    let is_gray := num_components cinfo =? 1 in
    Some (SRGB is_gray)
  else SetICC icc_profile.

(** A call keeps the store well formed and only extends it. *)
Definition keeps_store (cinfo cinfo' : @jpeg_compress_struct float) : Prop :=
  store_ok cinfo ->
  store_ok cinfo' /\
  store_extends (special_markers (master cinfo))
                (special_markers (master cinfo')).

(** ** Quality, defaults and geometry *)

(** [LinearQualityToDistance]; [/] on [int] truncates. *)
Definition LinearQualityToDistance (scale_factor : Z) : float :=
  let scale_factor := Z.min 5000 (Z.max 0 scale_factor) in
  let quality :=
    if scale_factor <? 100 then 100 - Z.quot scale_factor 2
    else Z.quot 5000 scale_factor in
  jpegli_quality_to_distance quality.

(** [jpegli_quality_scaling]. *)
Definition jpegli_quality_scaling (quality : Z) : Z :=
  let quality := Z.min 100 (Z.max 1 quality) in
  if quality <? 50 then Z.quot 5000 quality else 200 - 2 * quality.

(** A scan is well formed for [n] components: a band within 0..63, and
    distinct component indices below [n], as many as [comps_in_scan]. *)
Definition scan_ok (n : Z) (s : jpeg_scan_info) : Prop :=
  0 <= Ss s <= Se s /\ Se s <= 63 /\
  0 <= Al s /\ (Ah s = 0 \/ Ah s = Al s + 1) /\
  comps_in_scan s = vsize (scan_component_index s) /\
  1 <= comps_in_scan s /\
  NoDup (scan_component_index s) /\
  Forall (fun c => 0 <= c < n) (scan_component_index s).

(** The scan carries coefficient [k] of component [c] down to bit 0. *)
Definition completes (s : jpeg_scan_info) (c k : Z) : Prop :=
  c ∈ scan_component_index s /\ Ss s <= k <= Se s /\ Al s = 0.

(** Modelled from the spec: [J_COLOR_SPACE] comes from jpeglib.h; the code
    only compares with [JCS_RGB]. *)
Inductive J_COLOR_SPACE : Type :=
  | JCS_UNKNOWN | JCS_GRAYSCALE | JCS_RGB | JCS_YCbCr | JCS_CMYK | JCS_YCCK.

Inductive jpegli_setup_error : Type :=
  | XybRequiresRgb             (* "Only RGB input is supported in XYB mode." *)
  | InvalidProgressiveLevel.   (* "Invalid progressive level %d" *)

Definition set_progressive_level (m : @jpeg_comp_master float) (level : Z)
  : @jpeg_comp_master float :=
  {| special_markers := special_markers m;
     cur_marker_data := cur_marker_data m;
     progressive_level := level;
     max_shift := max_shift m;
     xsize_blocks := xsize_blocks m; ysize_blocks := ysize_blocks m;
     data_type := data_type m; endianness := endianness m;
     input := input m |}.

(** [jpegli_set_progressive_level]. *)
Definition jpegli_set_progressive_level (cinfo : @jpeg_compress_struct float)
    (level : Z) : result jpegli_setup_error (@jpeg_compress_struct float) :=
  if level <? 0 then Err InvalidProgressiveLevel
  else Ok (set_master cinfo (set_progressive_level (master cinfo) level)).

(** [jpegli_simple_progression]. *)
Definition jpegli_simple_progression (cinfo : @jpeg_compress_struct float)
  : result jpegli_setup_error (@jpeg_compress_struct float) :=
  jpegli_set_progressive_level cinfo 2.

Definition set_sampling (comp : jpeg_component_info) (id h v : Z)
  : jpeg_component_info :=
  {| h_samp_factor := h; v_samp_factor := v;
     quant_tbl_no := quant_tbl_no comp;
     component_index := component_index comp;
     component_id := id |}.

(** [jpegli_set_defaults].  [xyb_mode], [input_components] and
    [in_color_space] are the fields of [cinfo->master] and [cinfo] it
    reads that the records do not carry.  [component_id] is indeterminate
    between the two loops; 0 stands for it. *)
Definition jpegli_set_defaults (xyb_mode : bool) (input_components : Z)
    (in_color_space : J_COLOR_SPACE) (cinfo : @jpeg_compress_struct float)
  : result jpegli_setup_error (@jpeg_compress_struct float) :=
  if xyb_mode
     && (negb (input_components =? 3)
         || negb (match in_color_space with JCS_RGB => true | _ => false end))
  then Err XybRequiresRgb
  else
    let num_components := input_components in
    let comp_info :=
      (fun c => {| h_samp_factor := 1; v_samp_factor := 1;
                   quant_tbl_no := c; component_index := c;
                   component_id := 0 |}) <$> seqZ 0 num_components in
    let comp_info :=
      if xyb_mode then
        alter (fun comp => set_sampling comp 66 1 1) 2%nat
          (alter (fun comp => set_sampling comp 71 2 2) 1%nat
             (alter (fun comp => set_sampling comp 82 2 2) 0%nat comp_info))
      else
        imap (fun i comp =>
                set_sampling comp (Z.of_nat i + 1)
                             (h_samp_factor comp) (v_samp_factor comp))
             comp_info in
    Ok {| master := master cinfo;
          image_width := image_width cinfo;
          image_height := image_height cinfo;
          num_components := num_components;
          comp_info := comp_info;
          next_scanline := next_scanline cinfo;
          max_h_samp_factor := max_h_samp_factor cinfo;
          max_v_samp_factor := max_v_samp_factor cinfo;
          progressive_mode := progressive_mode cinfo;
          scan_info := None; num_scans := 0;
          script_space := script_space cinfo;
          script_space_size := script_space_size cinfo |}.

(** [size_t] on the 64-bit targets of the library. *)
Definition to_size_t (v : Z) : Z := v mod 2 ^ 64.

(** The loop of [jpegli_finish_compress] that sets [width_in_blocks] and
    [height_in_blocks]: the pairs it stores, in component order, or [None]
    when a [JXL_ASSERT] fails.  A [factor] of zero makes [%] undefined in
    the source; the model gives [None] for it as well. *)
Fixpoint block_counts (max_h xsize_blocks ysize_blocks : Z)
    (comps : list jpeg_component_info) : option (list (Z * Z)) :=
  match comps with
  | [] => Some []
  | comp :: comps' =>
      let factor := to_size_t (Z.quot max_h (h_samp_factor comp)) in
      if factor =? 0 then None
      else if negb (xsize_blocks mod factor =? 0) then None
      else if negb (ysize_blocks mod factor =? 0) then None
      else
        match block_counts max_h xsize_blocks ysize_blocks comps' with
        | None => None
        | Some rest =>
            Some ((xsize_blocks / factor, ysize_blocks / factor) :: rest)
        end
  end.

Definition finish_compress_block_counts (cinfo : @jpeg_compress_struct float)
  : option (list (Z * Z)) :=
  block_counts (max_h_samp_factor cinfo)
    (xsize_blocks (master cinfo)) (ysize_blocks (master cinfo))
    (components cinfo).

(** What a component that passed the checks looks like, for the shift
    [s] the loop ended with. *)
Definition ratio_within (max_h s : Z) (comp : jpeg_component_info) : Prop :=
  exists k, 0 <= k <= s /\ k <= 3 /\
            Z.quot max_h (h_samp_factor comp) = 2 ^ k.

(** ** Staged samples *)

(** [PlaneRow(c, y)[x]] of an image with the planes [pl]. *)
Definition sample_at (pl : list (list (list float))) (c y x : nat)
  : option float :=
  pl !! c ≫= fun plane => plane !! y ≫= fun row => row !! x.

(** The sample positions a batch of [n] lines is staged into. *)
Definition staged_by (cinfo : @jpeg_compress_struct float) (n : Z)
    (c y x : nat) : Prop :=
  Z.of_nat c < num_components cinfo /\
  next_scanline cinfo <= Z.of_nat y < next_scanline cinfo + n /\
  Z.of_nat x < image_width cinfo.

(** The value staged at column [x] of component [c] from the source line
    [src]. *)
Definition staged_value (cinfo : @jpeg_compress_struct float)
    (src : list Z) (c x : nat) : float :=
  let m := master cinfo in
  let bps := bytes_per_sample (data_type m) in
  load_sample (data_type m) (is_little_endian (endianness m)) src
    (Z.of_nat c * bps + Z.of_nat x * (num_components cinfo * bps)).

(** The number of rows of each plane and the length of each row. *)
Definition extents (pl : list (list (list float))) : list (list nat) :=
  (fun plane : list (list float) => length <$> plane) <$> pl.

End Interface.

(** * Concrete contexts *)

(** For the examples the plane values are the raw integers read. *)
#[export] Instance raw_platform : Platform Z :=
  {| indeterminate := 0; u8_to_float := id; u16_to_float := id;
     bits_to_float := id; host_little_endian := true |}.

(** The master record as [jpegli_CreateCompress] leaves it. *)
Definition fresh_master : @jpeg_comp_master Z :=
  {| special_markers := []; cur_marker_data := None;
     progressive_level := 2; max_shift := 0;
     xsize_blocks := 0; ysize_blocks := 0;
     data_type := JPEGLI_TYPE_UINT8; endianness := JPEGLI_NATIVE_ENDIAN;
     input := {| xsize := 0; ysize := 0; planes := [] |} |}.

(** The context after [jpegli_CreateCompress], the caller's assignment of
    the image size and of [input_components], and [jpegli_set_defaults]
    outside XYB mode. *)
Definition fresh_cinfo (width height components : Z)
  : @jpeg_compress_struct Z :=
  {| master := fresh_master;
     image_width := width; image_height := height;
     num_components := components;
     comp_info :=
       (fun c => {| h_samp_factor := 1; v_samp_factor := 1;
                    quant_tbl_no := c; component_index := c;
                    component_id := c + 1 |}) <$> seqZ 0 components;
     next_scanline := 0;
     max_h_samp_factor := 0; max_v_samp_factor := 0;
     progressive_mode := false;
     scan_info := None; num_scans := 0;
     script_space := []; script_space_size := 0 |}.

(** The caller's assignment of sampling factors to the component table. *)
Definition with_sampling (cinfo : @jpeg_compress_struct Z)
    (factors : list (Z * Z)) : @jpeg_compress_struct Z :=
  {| master := master cinfo;
     image_width := image_width cinfo; image_height := image_height cinfo;
     num_components := num_components cinfo;
     comp_info :=
       zip_with (fun comp hv =>
                   {| h_samp_factor := fst hv; v_samp_factor := snd hv;
                      quant_tbl_no := quant_tbl_no comp;
                      component_index := component_index comp;
                      component_id := component_id comp |})
                (comp_info cinfo) factors;
     next_scanline := next_scanline cinfo;
     max_h_samp_factor := max_h_samp_factor cinfo;
     max_v_samp_factor := max_v_samp_factor cinfo;
     progressive_mode := progressive_mode cinfo;
     scan_info := scan_info cinfo; num_scans := num_scans cinfo;
     script_space := script_space cinfo;
     script_space_size := script_space_size cinfo |}.

(** A COM blob holding the byte 0x41, and three APP2 blobs. *)
Definition com_blob : list Z := [0xff; 0xfe; 0; 3; 0x41].
Definition app2_blob_a : list Z := [0xff; 0xe2; 0; 3; 1].
Definition app2_blob_b : list Z := [0xff; 0xe2; 0; 3; 2].
Definition app2_blob_c : list Z := [0xff; 0xe2; 0; 3; 3].

(** An 8 by 8 grey image ready for staging, and two source lines. *)
Definition staging_cinfo : @jpeg_compress_struct Z :=
  match jpegli_start_compress (fresh_cinfo 8 8 1) false with
  | Ok cinfo => cinfo
  | Err _ => fresh_cinfo 8 8 1
  end.
Definition two_lines : list (list Z) :=
  [[1; 2; 3; 4; 5; 6; 7; 8]; [11; 12; 13; 14; 15; 16; 17; 18]].

(** For the examples a colour encoding is named by where it comes from. *)
Inductive raw_encoding : Type :=
  | RawSRGB (is_gray : bool)
  | RawICC (icc : list Z).

#[export] Instance raw_color : ColorManagement raw_encoding :=
  {| SRGB := RawSRGB; SetICC := fun icc => Some (RawICC icc) |}.

(** A COM marker with two payload bytes followed by a three-byte profile. *)
Definition comment_then_profile : list marker_call :=
  [CallWriteMHeader 0xfe 2; CallWriteMByte 0x41; CallWriteMByte 0x42;
   CallWriteIccProfile [1; 2; 3]].

(** The context these calls leave. *)
Definition commented_cinfo : @jpeg_compress_struct Z :=
  match run_calls (fresh_cinfo 1 1 1) comment_then_profile with
  | Ok cinfo => cinfo
  | Err _ => fresh_cinfo 1 1 1
  end.

(** Profiles of one byte more than one chunk and than 255 chunks hold. *)
Definition two_chunk_profile : list Z := replicate (Z.to_nat 65520) 0.
Definition overlong_profile : list Z := replicate (Z.to_nat 16707346) 0.

(** A 16 by 16 image with the sampling factors of XYB mode, started. *)
Definition subsampled_cinfo : @jpeg_compress_struct Z :=
  match jpegli_start_compress
          (with_sampling (fresh_cinfo 16 16 3) [(2, 2); (2, 2); (1, 1)])
          false with
  | Ok cinfo => cinfo
  | Err _ => fresh_cinfo 16 16 3
  end.

(** * Properties *)

Section EncoderProperties.

Set Default Proof Using "Type".

Context {float : Type} {platform : Platform float}.

Implicit Types cinfo whole part both : @jpeg_compress_struct float.

(** ** Marker store *)

Lemma to_uint8_range v : 0 <= to_uint8 v < 256.
Proof. unfold to_uint8. apply Z.mod_pos_bound. lia. Qed.

Lemma to_uint8_small v : 0 <= v < 256 -> to_uint8 v = v.
Proof. intros H. unfold to_uint8. apply Z.mod_small. exact H. Qed.

Lemma to_uint8_low_bits v : to_uint8 v = Z.land v 255.
Proof.
  unfold to_uint8. change 255 with (Z.ones 8).
  rewrite Z.land_ones by lia. reflexivity.
Qed.

Lemma wrap32_small v : 0 <= v < 2 ^ 32 -> wrap32 v = v.
Proof. intros H. unfold wrap32. apply Z.mod_small. exact H. Qed.

Lemma write_m_header_ok cinfo marker datalen :
  0 <= datalen <= kMaxBytesInMarker ->
  app_or_com marker ->
  jpegli_write_m_header cinfo marker datalen =
    Ok (set_master cinfo
          (set_markers (master cinfo)
             (special_markers (master cinfo) ++ [marker_prefix marker datalen])
             (Some (length (special_markers (master cinfo)))))).
Proof.
  unfold app_or_com, jpegli_write_m_header, marker_prefix, kMaxBytesInMarker.
  intros Hlen Hm.
  replace (datalen >? 65533) with false by lia.
  replace (negb (marker =? 254) && ((marker <? 224) || (marker >? 239)))
    with false by lia.
  rewrite wrap32_small by lia.
  rewrite (to_uint8_small marker) by lia.
  rewrite (to_uint8_small (Z.shiftr _ _)).
  2:{ rewrite Z.shiftr_div_pow2 by lia. change (2 ^ 8) with 256.
      split; [apply Z.div_pos; lia | apply Z.div_lt_upper_bound; lia]. }
  rewrite (to_uint8_small (Z.land _ _)).
  2:{ change 255 with (Z.ones 8). rewrite Z.land_ones by lia.
      apply Z.mod_pos_bound. lia. }
  reflexivity.
Qed.

(** C8, as the code has it: [jpegli_write_m_header] raises
    InvalidMarkerLength exactly when [datalen > 65533]; it raises
    UnsupportedMarker exactly when [datalen <= 65533] and the marker is
    neither COM (0xFE) nor APP0..APP15 (the length is checked first, so an
    over-long request with a bad marker reports the length); otherwise it
    appends a fresh blob made of the four bytes
    [FF, marker, (datalen+2)>>8, (datalen+2)&0xFF] and makes
    [cur_marker_data] refer to it. *)
Theorem write_m_header_outcome cinfo marker datalen :
  0 <= datalen < 2 ^ 32 ->
  (jpegli_write_m_header cinfo marker datalen = Err InvalidMarkerLength
     <-> datalen > 65533) /\
  (jpegli_write_m_header cinfo marker datalen = Err UnsupportedMarker
     <-> datalen <= 65533 /\ ~ app_or_com marker) /\
  (datalen <= 65533 -> app_or_com marker ->
   exists cinfo',
     jpegli_write_m_header cinfo marker datalen = Ok cinfo' /\
     special_markers (master cinfo') =
       special_markers (master cinfo) ++ [marker_prefix marker datalen] /\
     cur_marker_data (master cinfo') =
       Some (length (special_markers (master cinfo))) /\
     special_markers (master cinfo') !! length (special_markers (master cinfo))
       = Some (marker_prefix marker datalen)).
Proof.
  intros Hrange.
  assert (Hcases :
    (datalen > 65533 /\
     jpegli_write_m_header cinfo marker datalen = Err InvalidMarkerLength) \/
    (datalen <= 65533 /\ ~ app_or_com marker /\
     jpegli_write_m_header cinfo marker datalen = Err UnsupportedMarker) \/
    (datalen <= 65533 /\ app_or_com marker /\
     exists c, jpegli_write_m_header cinfo marker datalen = Ok c)).
  { destruct (Z_gt_le_dec datalen 65533) as [Hgt | Hle].
    - left. split; [exact Hgt |].
      unfold jpegli_write_m_header, kMaxBytesInMarker.
      replace (datalen >? 65533) with true by lia. reflexivity.
    - right.
      destruct (decide (marker = 0xfe \/ 0xe0 <= marker <= 0xef)) as [Hv | Hn].
      + right. repeat split; [exact Hle | exact Hv |].
        eexists. apply write_m_header_ok; [unfold kMaxBytesInMarker; lia | exact Hv].
      + left. repeat split; [exact Hle | exact Hn |].
        unfold jpegli_write_m_header, kMaxBytesInMarker.
        replace (datalen >? 65533) with false by lia.
        replace (negb (marker =? 254) && ((marker <? 224) || (marker >? 239)))
          with true by (unfold app_or_com in Hn; lia).
        reflexivity. }
  split; [| split].
  - split.
    + intros H. destruct Hcases as [[Hg _] | [(_ & _ & E) | (_ & _ & c & E)]];
        [exact Hg | congruence | congruence].
    + intros H. destruct Hcases as [[_ E] | [(Hl & _) | (Hl & _)]];
        [exact E | lia | lia].
  - split.
    + intros H. destruct Hcases as [[_ E] | [(Hl & Hn & _) | (_ & _ & c & E)]];
        [congruence | split; assumption | congruence].
    + intros [Hl Hn]. destruct Hcases as [[Hg _] | [(_ & _ & E) | (_ & Hv & _)]];
        [lia | exact E | contradiction].
  - intros Hl Hv. eexists. split.
    + apply write_m_header_ok; [unfold kMaxBytesInMarker; lia | exact Hv].
    + simpl. repeat split.
      rewrite lookup_app_r by lia. rewrite Nat.sub_diag. reflexivity.
Qed.

(** C10: for every [int] value [v], [jpegli_write_m_byte] on a context
    whose [cur_marker_data] refers to a blob succeeds and appends exactly
    one byte to that blob, equal to [v] modulo 256, that is the low eight
    bits of [v]; nothing is rejected for being outside [0, 255], and no
    other blob changes. *)
Theorem write_m_byte_appends_low_byte cinfo v cur blob :
  cur_marker_data (master cinfo) = Some cur ->
  special_markers (master cinfo) !! cur = Some blob ->
  exists cinfo',
    jpegli_write_m_byte cinfo v = Ok cinfo' /\
    special_markers (master cinfo') !! cur = Some (blob ++ [v mod 256]) /\
    0 <= v mod 256 < 256 /\
    v mod 256 = Z.land v 255 /\
    length (special_markers (master cinfo')) =
      length (special_markers (master cinfo)) /\
    (forall j, j <> cur ->
       special_markers (master cinfo') !! j =
       special_markers (master cinfo) !! j) /\
    cur_marker_data (master cinfo') = Some cur.
Proof.
  intros Hcur Hblob. unfold jpegli_write_m_byte. rewrite Hcur.
  eexists. split; [reflexivity |]. simpl.
  split; [| split; [| split; [| split; [| split]]]].
  - rewrite list_lookup_alter_eq, Hblob. reflexivity.
  - apply to_uint8_range.
  - apply to_uint8_low_bits.
  - apply length_alter.
  - intros j Hj. apply list_lookup_alter_ne. congruence.
  - reflexivity.
Qed.

(** ** Installing the ICC marker *)

Lemma icc_app_loop_added icc markers acc :
  icc_app_loop icc markers acc true =
    (acc ++ filter (fun v => ~ is_app2 v) markers, true).
Proof.
  revert acc. induction markers as [| v markers IH]; intros acc; simpl.
  - rewrite app_nil_r. reflexivity.
  - unfold is_app2 at 1. rewrite filter_cons.
    destruct (Z.eqb_spec (byte_at v 1) 0xe2) as [E | E]; simpl.
    + rewrite decide_False by (intros H; apply H; exact E). apply IH.
    + rewrite decide_True by exact E.
      rewrite IH, <- app_assoc. reflexivity.
Qed.

Lemma icc_app_loop_no_app2 icc markers acc :
  Forall (fun v => ~ is_app2 v) markers ->
  icc_app_loop icc markers acc false = (acc ++ markers, false).
Proof.
  intros H. revert acc. induction H as [| v markers Hv _ IH]; intros acc; simpl.
  - rewrite app_nil_r. reflexivity.
  - unfold is_app2 in Hv.
    destruct (Z.eqb_spec (byte_at v 1) 0xe2) as [E | E]; [contradiction |].
    simpl. rewrite IH, <- app_assoc. reflexivity.
Qed.

Lemma icc_app_loop_first_app2 icc pre a post acc :
  Forall (fun v => ~ is_app2 v) pre ->
  is_app2 a ->
  icc_app_loop icc (pre ++ a :: post) acc false =
    (acc ++ pre ++ icc :: filter (fun v => ~ is_app2 v) post, true).
Proof.
  intros Hpre Ha. revert acc.
  induction Hpre as [| v pre Hv _ IH]; intros acc; simpl.
  - unfold is_app2 in Ha. rewrite Ha. simpl.
    rewrite icc_app_loop_added, <- app_assoc. reflexivity.
  - unfold is_app2 in Hv.
    destruct (Z.eqb_spec (byte_at v 1) 0xe2) as [E | E]; [contradiction |].
    simpl. rewrite IH, <- app_assoc. reflexivity.
Qed.

(** C4, as the code has it: on a marker list whose entries have at least
    two bytes, [SetICCAppMarker] keeps every entry that is not APP2, in
    order; the first APP2 entry, if there is one, is replaced by the blob
    and every later APP2 entry is dropped; if there is no APP2 entry the
    blob is appended at the end. *)
Theorem set_icc_app_marker_replaces cinfo icc :
  Forall (fun v => 2 <= vsize v) (special_markers (master cinfo)) ->
  (Forall (fun v => ~ is_app2 v) (special_markers (master cinfo)) ->
   special_markers (master (SetICCAppMarker cinfo icc)) =
     special_markers (master cinfo) ++ [icc]) /\
  (forall pre a post,
     special_markers (master cinfo) = pre ++ a :: post ->
     Forall (fun v => ~ is_app2 v) pre ->
     is_app2 a ->
     special_markers (master (SetICCAppMarker cinfo icc)) =
       pre ++ icc :: filter (fun v => ~ is_app2 v) post).
Proof.
  intros _. split.
  - intros H. unfold SetICCAppMarker.
    rewrite (icc_app_loop_no_app2 _ _ _ H). reflexivity.
  - intros pre a post E Hpre Ha. unfold SetICCAppMarker.
    rewrite E, (icc_app_loop_first_app2 _ _ _ _ _ Hpre Ha). reflexivity.
Qed.

(** ** Scan-script planner *)

(** The assertion [next_scan - script_space == script_space_size] of
    [SetDefaultScanScript] holds. *)
Lemma script_space_size_exact cinfo max_shift :
  0 <= num_components cinfo ->
  vsize (script_space (SetDefaultScanScript cinfo max_shift)) =
    script_space_size (SetDefaultScanScript cinfo max_shift).
Proof.
  intros Hn. unfold SetDefaultScanScript, vsize. simpl.
  generalize (scan_templates (progressive_level (master cinfo)) max_shift).
  intros l.
  assert (Hgen : forall acc,
    foldl (fun size scan =>
             size + (if interleaved scan then 1 else num_components cinfo))
          acc l =
    acc + Z.of_nat (length (l ≫= expand_scan (num_components cinfo)))).
  { induction l as [| t l IH]; intros acc.
    - simpl. lia.
    - cbn [foldl]. rewrite bind_cons, IH, length_app, Nat2Z.inj_add.
      generalize (Z.of_nat (length (l ≫= expand_scan (num_components cinfo)))).
      intros tail. unfold expand_scan.
      destruct (interleaved t).
      + simpl. lia.
      + rewrite length_fmap, length_seqZ. lia. }
  rewrite Hgen. lia.
Qed.

(** C3, as the code has it: for [num_components] N in {1, 3} and
    [progressive_level >= 2] the planner uses five templates with header
    tuples (0,0,0,0), (1,2,0,0), (3,63,0,2), (3,63,2,1), (3,63,1,0); only
    the first can be interleaved, and it is exactly when [max_shift > 0].
    The script then holds one scan over all N components for the first
    template when [max_shift > 0] and N single-component scans for it
    otherwise, followed by N single-component scans for each of the other
    four templates: 1 + 4N scans when [max_shift > 0], 5N otherwise. *)
Theorem default_scan_script_level2 cinfo max_shift :
  num_components cinfo = 1 \/ num_components cinfo = 3 ->
  2 <= progressive_level (master cinfo) ->
  let N := num_components cinfo in
  let templates := scan_templates (progressive_level (master cinfo)) max_shift in
  let cinfo' := SetDefaultScanScript cinfo max_shift in
  header_tuple <$> templates =
    [(0, 0, 0, 0); (1, 2, 0, 0); (3, 63, 0, 2); (3, 63, 2, 1); (3, 63, 1, 0)] /\
  interleaved <$> templates = [max_shift >? 0; false; false; false; false] /\
  scan_info cinfo' =
    Some ((if max_shift >? 0 then [joint_scan 0 0 0 0 N]
           else single_scan 0 0 0 0 <$> seqZ 0 N)
          ++ (single_scan 1 2 0 0 <$> seqZ 0 N)
          ++ (single_scan 3 63 0 2 <$> seqZ 0 N)
          ++ (single_scan 3 63 2 1 <$> seqZ 0 N)
          ++ (single_scan 3 63 1 0 <$> seqZ 0 N)) /\
  num_scans cinfo' = (if max_shift >? 0 then 1 else N) + 4 * N /\
  (forall scans, scan_info cinfo' = Some scans -> vsize scans = num_scans cinfo').
Proof.
  intros HN Hlevel N templates cinfo'.
  assert (Ht : templates =
    [ mk_scan 0 0 0 0 (max_shift >? 0); mk_scan 1 2 0 0 false;
      mk_scan 3 63 0 2 false; mk_scan 3 63 2 1 false;
      mk_scan 3 63 1 0 false ]).
  { subst templates. unfold scan_templates.
    replace (progressive_level (master cinfo) =? 0) with false by lia.
    replace (progressive_level (master cinfo) =? 1) with false by lia.
    reflexivity. }
  split; [rewrite Ht; reflexivity |].
  split; [rewrite Ht; reflexivity |].
  assert (Hscans : scan_info cinfo' =
    Some ((if max_shift >? 0 then [joint_scan 0 0 0 0 N]
           else single_scan 0 0 0 0 <$> seqZ 0 N)
          ++ (single_scan 1 2 0 0 <$> seqZ 0 N)
          ++ (single_scan 3 63 0 2 <$> seqZ 0 N)
          ++ (single_scan 3 63 2 1 <$> seqZ 0 N)
          ++ (single_scan 3 63 1 0 <$> seqZ 0 N))).
  { subst cinfo'. unfold SetDefaultScanScript. simpl. fold templates.
    rewrite Ht. simpl. unfold expand_scan. simpl.
    rewrite app_nil_r. destruct (max_shift >? 0); reflexivity. }
  assert (Hnum : num_scans cinfo' = (if max_shift >? 0 then 1 else N) + 4 * N).
  { subst cinfo'. unfold SetDefaultScanScript. simpl. fold templates.
    rewrite Ht. simpl. fold N. destruct (max_shift >? 0); lia. }
  split; [exact Hscans |]. split; [exact Hnum |].
  intros scans E. rewrite Hscans in E. injection E as <-.
  rewrite Hnum. unfold vsize.
  rewrite !length_app, !length_fmap, !length_seqZ.
  destruct (max_shift >? 0); simpl; rewrite ?length_fmap, ?length_seqZ;
    subst N; lia.
Qed.

(** ** Starting a compression *)

Lemma start_compress_inv cinfo w cinfo1 :
  jpegli_start_compress cinfo w = Ok cinfo1 ->
  scan_info cinfo1 = scan_info cinfo /\
  num_components cinfo1 = num_components cinfo /\
  progressive_level (master cinfo1) = progressive_level (master cinfo) /\
  next_scanline cinfo1 = 0 /\
  progressive_mode cinfo1 =
    match scan_info cinfo with
    | Some (s :: _) => negb (Ss s =? 0) || negb (Se s =? DCTSIZE2 - 1)
    | Some [] => false
    | None => progressive_level (master cinfo) >? 0
    end.
Proof.
  unfold jpegli_start_compress. simpl.
  destruct (validate_sampling _ _ _) as [shift | e]; simpl; [| discriminate].
  intros E. injection E as <-. simpl. repeat split.
Qed.

Lemma expand_scan_head n a b c d i :
  1 <= n ->
  exists s rest,
    expand_scan n (mk_scan a b c d i) = s :: rest /\ Ss s = a /\ Se s = b.
Proof.
  intros Hn. unfold expand_scan. simpl. destruct i.
  - eexists _, _. repeat split.
  - rewrite seqZ_cons by lia. simpl. eexists _, _. repeat split.
Qed.

(** C6: once the scan script is determined, the user's at
    [jpegli_start_compress] or the planner's in [jpegli_finish_compress]
    when none was installed, [progressive_mode] is true exactly when the
    first scan has [Ss != 0] or [Se != 63].  The context is one the
    interface builds: a progressive level that is not negative, at least
    one component, and a user script, if any, with at least one scan. *)
Theorem progressive_mode_matches_first_scan cinfo w cinfo1 :
  0 <= progressive_level (master cinfo) ->
  1 <= num_components cinfo ->
  scan_info cinfo <> Some [] ->
  jpegli_start_compress cinfo w = Ok cinfo1 ->
  exists s rest,
    scan_info (finish_compress_scan_script cinfo1) = Some (s :: rest) /\
    (progressive_mode (finish_compress_scan_script cinfo1) = true
       <-> Ss s <> 0 \/ Se s <> 63).
Proof.
  intros Hlevel Hn Huser Hstart.
  destruct (start_compress_inv _ _ _ Hstart) as (Hsi & Hnc & Hpl & _ & Hpm).
  unfold finish_compress_scan_script. rewrite Hsi.
  destruct (scan_info cinfo) as [[| s rest] |] eqn:Escript.
  - congruence.
  - exists s, rest. split; [exact Hsi |]. rewrite Hpm.
    change (DCTSIZE2 - 1) with 63.
    destruct (Z.eqb_spec (Ss s) 0), (Z.eqb_spec (Se s) 63); simpl;
      intuition congruence.
  - unfold SetDefaultScanScript. simpl. rewrite Hpm, Hpl, Hnc.
    unfold scan_templates.
    destruct (Z.eqb_spec (progressive_level (master cinfo)) 0) as [E0 | E0].
    + rewrite bind_cons.
      destruct (expand_scan_head (num_components cinfo) 0 63 0 0 true Hn)
        as (s & rest & -> & HSs & HSe).
      eexists _, _. split; [reflexivity |]. rewrite HSs, HSe, E0. simpl.
      split; [discriminate | intros [H | H]; contradiction].
    + destruct (Z.eqb_spec (progressive_level (master cinfo)) 1) as [E1 | E1].
      * rewrite bind_cons.
        destruct (expand_scan_head (num_components cinfo) 0 0 0 0
                    (max_shift (master cinfo1) >? 0) Hn)
          as (s & rest & -> & HSs & HSe).
        eexists _, _. split; [reflexivity |]. rewrite HSs, HSe, E1. simpl.
        split; [intros _; right; lia | reflexivity].
      * rewrite bind_cons.
        destruct (expand_scan_head (num_components cinfo) 0 0 0 0
                    (max_shift (master cinfo1) >? 0) Hn)
          as (s & rest & -> & HSs & HSe).
        eexists _, _. split; [reflexivity |]. rewrite HSs, HSe.
        split; [intros _; right; lia | intros _; lia].
Qed.

Lemma find_shift_valid factor :
  fst (find_shift factor 4 0) = true <->
  factor = 1 \/ factor = 2 \/ factor = 4 \/ factor = 8.
Proof.
  unfold find_shift.
  change (Z.shiftl 1 0) with 1. change (Z.shiftl 1 (0 + 1)) with 2.
  change (Z.shiftl 1 (0 + 1 + 1)) with 4.
  change (Z.shiftl 1 (0 + 1 + 1 + 1)) with 8.
  destruct (Z.eqb_spec factor 1);
    [simpl; split; [intros _; lia | reflexivity] |].
  destruct (Z.eqb_spec factor 2);
    [simpl; split; [intros _; lia | reflexivity] |].
  destruct (Z.eqb_spec factor 4);
    [simpl; split; [intros _; lia | reflexivity] |].
  destruct (Z.eqb_spec factor 8); simpl;
    split; [intros _; lia | reflexivity | discriminate | lia].
Qed.

Lemma ratio_check max_h h :
  h <> 0 ->
  (Z.rem max_h h = 0 /\ fst (find_shift (Z.quot max_h h) 4 0) = true) <->
  exists k, max_h = k * h /\ (k = 1 \/ k = 2 \/ k = 4 \/ k = 8).
Proof.
  intros Hh. rewrite find_shift_valid. split.
  - intros [Hrem Hq]. exists (Z.quot max_h h). split; [| exact Hq].
    pose proof (Z.quot_rem' max_h h) as E. rewrite Hrem in E. lia.
  - intros (k & -> & Hk). split.
    + apply Z.rem_mul. exact Hh.
    + rewrite Z.quot_mul by exact Hh. exact Hk.
Qed.

Lemma validate_sampling_cases max_h comps shift :
  Forall (fun comp => h_samp_factor comp <> 0) comps ->
  match validate_sampling max_h comps shift with
  | Ok _ => Forall (comp_ok max_h) comps
  | Err e =>
      exists comp, first_offender max_h comps comp /\
        ((e = UnsupportedSubsampling /\
          h_samp_factor comp <> v_samp_factor comp) \/
         ((e = NonIntegralSubsamplingRatio \/ e = InvalidSamplingFactor) /\
          h_samp_factor comp = v_samp_factor comp))
  end.
Proof.
  intros Hnz. revert shift.
  induction Hnz as [| comp comps Hh _ IH]; intros shift;
    cbn [validate_sampling].
  - constructor.
  - pose proof (ratio_check max_h (h_samp_factor comp) Hh) as Hratio.
    set (found := find_shift (Z.quot max_h (h_samp_factor comp)) 4 0) in *.
    assert (Hhere : forall e,
      ~ comp_ok max_h comp ->
      (e = UnsupportedSubsampling /\
       h_samp_factor comp <> v_samp_factor comp) \/
      ((e = NonIntegralSubsamplingRatio \/ e = InvalidSamplingFactor) /\
       h_samp_factor comp = v_samp_factor comp) ->
      exists bad, first_offender max_h (comp :: comps) bad /\
        ((e = UnsupportedSubsampling /\
          h_samp_factor bad <> v_samp_factor bad) \/
         ((e = NonIntegralSubsamplingRatio \/ e = InvalidSamplingFactor) /\
          h_samp_factor bad = v_samp_factor bad))).
    { intros e Hbad He. exists comp. split; [| exact He].
      exists 0%nat. split; [reflexivity |]. split; [exact Hbad | constructor]. }
    destruct (Z.eqb_spec (h_samp_factor comp) (v_samp_factor comp))
      as [Ehv | Ehv]; cbn [negb].
    2:{ apply Hhere; [intros [H _]; contradiction |].
        left. split; [reflexivity | exact Ehv]. }
    destruct (Z.eqb_spec (Z.rem max_h (h_samp_factor comp)) 0)
      as [Erem | Erem]; cbn [negb].
    2:{ apply Hhere.
        - intros [_ H]. apply Hratio in H. destruct H. contradiction.
        - right. split; [left; reflexivity | exact Ehv]. }
    destruct (fst found) eqn:Efound; cbn [negb].
    2:{ apply Hhere.
        - intros [_ H]. apply Hratio in H. destruct H. congruence.
        - right. split; [right; reflexivity | exact Ehv]. }
    assert (Hok : comp_ok max_h comp).
    { split; [exact Ehv |]. apply Hratio. split; [exact Erem | reflexivity]. }
    specialize (IH (Z.max (snd found) shift)).
    destruct (validate_sampling max_h comps _) as [s | e].
    + constructor; assumption.
    + destruct IH as (bad & (c & Hc & Hbad & Hbefore) & He).
      exists bad. split; [| exact He].
      exists (S c). split; [exact Hc |]. split; [exact Hbad |].
      simpl. constructor; assumption.
Qed.

Lemma first_offender_unique max_h comps comp1 comp2 :
  first_offender max_h comps comp1 ->
  first_offender max_h comps comp2 ->
  comp1 = comp2.
Proof.
  intros (c1 & H1 & Hbad1 & Hpre1) (c2 & H2 & Hbad2 & Hpre2).
  destruct (Nat.lt_trichotomy c1 c2) as [Hlt | [-> | Hlt]].
  - exfalso. apply Hbad1.
    rewrite Forall_lookup in Hpre2. apply (Hpre2 c1).
    rewrite lookup_take_lt by exact Hlt. exact H1.
  - congruence.
  - exfalso. apply Hbad2.
    rewrite Forall_lookup in Hpre1. apply (Hpre1 c2).
    rewrite lookup_take_lt by exact Hlt. exact H2.
Qed.

Lemma first_offender_not_all_ok max_h comps comp :
  first_offender max_h comps comp -> ~ Forall (comp_ok max_h) comps.
Proof.
  intros (c & Hc & Hbad & _) Hall. apply Hbad.
  rewrite Forall_lookup in Hall. exact (Hall c comp Hc).
Qed.

Lemma start_compress_validation cinfo w :
  match jpegli_start_compress cinfo w with
  | Ok _ =>
      exists shift,
        validate_sampling (max_samp h_samp_factor (components cinfo))
                          (components cinfo) 0 = Ok shift
  | Err e =>
      validate_sampling (max_samp h_samp_factor (components cinfo))
                        (components cinfo) 0 = Err e
  end.
Proof.
  unfold jpegli_start_compress, components. simpl.
  destruct (validate_sampling _ _ _) as [shift | e]; simpl.
  - exists shift. reflexivity.
  - reflexivity.
Qed.

(** C7, as the code has it: [jpegli_start_compress] checks the components
    in index order and stops at the first one that fails a check.  It
    raises UnsupportedSubsampling exactly when that first offender has
    [h_samp_factor != v_samp_factor]; it raises
    NonIntegralSubsamplingRatio or InvalidSamplingFactor exactly when the
    first offender has equal factors, so that [max_h_samp_factor] is not an
    integer multiple of its factor or the ratio is not in {1, 2, 4, 8};
    and the validation succeeds exactly when every component passes.  The
    horizontal factors are not zero. *)
Theorem start_compress_sampling_errors cinfo w :
  Forall (fun comp => h_samp_factor comp <> 0) (components cinfo) ->
  let max_h := max_samp h_samp_factor (components cinfo) in
  (jpegli_start_compress cinfo w = Err UnsupportedSubsampling <->
   exists comp, first_offender max_h (components cinfo) comp /\
                h_samp_factor comp <> v_samp_factor comp) /\
  (jpegli_start_compress cinfo w = Err NonIntegralSubsamplingRatio \/
   jpegli_start_compress cinfo w = Err InvalidSamplingFactor <->
   exists comp, first_offender max_h (components cinfo) comp /\
                h_samp_factor comp = v_samp_factor comp) /\
  ((exists cinfo', jpegli_start_compress cinfo w = Ok cinfo') <->
   Forall (comp_ok max_h) (components cinfo)).
Proof.
  intros Hnz max_h.
  pose proof (start_compress_validation cinfo w) as Hstart.
  pose proof (validate_sampling_cases max_h (components cinfo) 0 Hnz) as Hcases.
  fold max_h in Hstart.
  destruct (jpegli_start_compress cinfo w) as [c1 | e].
  - destruct Hstart as [shift Hv]. rewrite Hv in Hcases.
    split; [| split].
    + split; [discriminate |].
      intros (comp & Hoff & _).
      destruct (first_offender_not_all_ok _ _ _ Hoff Hcases).
    + split; [intros [H | H]; discriminate |].
      intros (comp & Hoff & _).
      destruct (first_offender_not_all_ok _ _ _ Hoff Hcases).
    + split; [intros _; exact Hcases | intros _; eexists; reflexivity].
  - rewrite Hstart in Hcases. destruct Hcases as (bad & Hoff & He).
    split; [| split].
    + split.
      * intros E. injection E as ->. exists bad. split; [exact Hoff |].
        destruct He as [[_ H] | [[H | H] _]]; [exact H | discriminate ..].
      * intros (comp & Hoff' & Hne).
        rewrite (first_offender_unique _ _ _ _ Hoff' Hoff) in Hne.
        destruct He as [[-> _] | [_ H]]; [reflexivity | contradiction].
    + split.
      * intros E. exists bad. split; [exact Hoff |].
        destruct He as [[-> _] | [_ H]]; [| exact H].
        destruct E as [E | E]; discriminate.
      * intros (comp & Hoff' & Heq).
        rewrite (first_offender_unique _ _ _ _ Hoff' Hoff) in Heq.
        destruct He as [[_ H] | [[-> | ->] _]];
          [contradiction | left; reflexivity | right; reflexivity].
    + split; [intros [c E]; discriminate |].
      intros Hall. destruct (first_offender_not_all_ok _ _ _ Hoff Hall).
Qed.

(** ** Input stager: the line cursor *)

(** When [num_lines + next_scanline] stays below 2^32 the call consumes
    [min num_lines (image_height - next_scanline)] lines, returns that
    count and advances the cursor by it. *)
Lemma write_scanlines_truncates cinfo scanlines num_lines :
  0 <= next_scanline cinfo <= image_height cinfo ->
  image_height cinfo < 2 ^ 32 ->
  num_components cinfo <= 3 ->
  0 <= num_lines ->
  num_lines + next_scanline cinfo < 2 ^ 32 ->
  exists cinfo',
    jpegli_write_scanlines cinfo scanlines num_lines =
      Ok (cinfo', Z.min num_lines (image_height cinfo - next_scanline cinfo)) /\
    next_scanline cinfo' =
      next_scanline cinfo
      + Z.min num_lines (image_height cinfo - next_scanline cinfo) /\
    image_height cinfo' = image_height cinfo /\
    next_scanline cinfo' <= image_height cinfo'.
Proof.
  intros Hns Hh Hnc Hn Hsum. unfold jpegli_write_scanlines.
  replace (num_components cinfo >? 3) with false by lia.
  rewrite (wrap32_small (num_lines + _)) by lia.
  destruct (Z.gtb_spec (num_lines + next_scanline cinfo) (image_height cinfo))
    as [Hgt | Hle].
  - rewrite (wrap32_small (image_height cinfo - _)) by lia.
    rewrite Z.min_r by lia. eexists. split; [reflexivity |]. simpl.
    rewrite wrap32_small by lia. lia.
  - rewrite Z.min_l by lia. eexists. split; [reflexivity |]. simpl.
    rewrite wrap32_small by lia. lia.
Qed.

(** The cursor stays within the image for every [JDIMENSION] line count,
    also one large enough to make the sum wrap. *)
Lemma write_scanlines_cursor_bounded cinfo scanlines num_lines cinfo' r :
  0 <= next_scanline cinfo <= image_height cinfo ->
  image_height cinfo < 2 ^ 32 ->
  jpegli_write_scanlines cinfo scanlines num_lines = Ok (cinfo', r) ->
  0 <= next_scanline cinfo' <= image_height cinfo'.
Proof.
  intros Hns Hh. unfold jpegli_write_scanlines.
  destruct (num_components cinfo >? 3); [discriminate |].
  rewrite (Z.add_comm (next_scanline cinfo)).
  destruct (Z.gtb_spec (wrap32 (num_lines + next_scanline cinfo))
                       (image_height cinfo)) as [Hgt | Hle];
    intros E; injection E as <- <-; simpl.
  - rewrite (wrap32_small (image_height cinfo - _)) by lia.
    rewrite wrap32_small by lia. lia.
  - split; [| exact Hle]. unfold wrap32.
    apply Z.mod_pos_bound. lia.
Qed.

(** ** ICC writer *)

Lemma with_markers_twice cinfo sm1 cur1 sm2 cur2 :
  with_markers (with_markers cinfo sm1 cur1) sm2 cur2 =
  with_markers cinfo sm2 cur2.
Proof. reflexivity. Qed.

Lemma write_m_byte_open cinfo ms blob v :
  jpegli_write_m_byte (with_markers cinfo (ms ++ [blob]) (Some (length ms))) v =
    Ok (with_markers cinfo (ms ++ [blob ++ [to_uint8 v]]) (Some (length ms))).
Proof.
  unfold jpegli_write_m_byte. cbn [with_markers master set_master
    set_markers cur_marker_data special_markers].
  rewrite alter_app_r_alt by lia. rewrite Nat.sub_diag. reflexivity.
Qed.

Lemma write_m_bytes_open cinfo ms blob vals :
  write_m_bytes (with_markers cinfo (ms ++ [blob]) (Some (length ms))) vals =
    Ok (with_markers cinfo (ms ++ [blob ++ (to_uint8 <$> vals)])
                     (Some (length ms))).
Proof.
  revert blob. induction vals as [| v vals IH]; intros blob.
  - simpl. rewrite app_nil_r. reflexivity.
  - cbn [write_m_bytes]. rewrite write_m_byte_open. cbn [bind].
    rewrite IH, fmap_cons, <- app_assoc. reflexivity.
Qed.

Lemma byte_at_lookup (v : list Z) (i : Z) (b : Z) :
  v !! Z.to_nat i = Some b -> byte_at v i = b.
Proof. intros H. unfold byte_at. rewrite H. reflexivity. Qed.

Lemma icc_copy_loop_open cinfo ms data n blob begin :
  0 <= begin ->
  (Z.to_nat begin + n <= length data)%nat ->
  icc_copy_loop data n
    (with_markers cinfo (ms ++ [blob]) (Some (length ms))) begin =
  Ok (with_markers cinfo
        (ms ++ [blob ++ (to_uint8 <$> take n (drop (Z.to_nat begin) data))])
        (Some (length ms)),
      begin + Z.of_nat n).
Proof.
  revert blob begin. induction n as [| n IH]; intros blob begin Hb Hlen.
  - cbn [icc_copy_loop]. rewrite take_0, fmap_nil, app_nil_r, Z.add_0_r.
    reflexivity.
  - cbn [icc_copy_loop].
    destruct (lookup_lt_is_Some_2 data (Z.to_nat begin)) as [b Hb']; [lia |].
    rewrite write_m_byte_open. cbn [bind].
    rewrite IH by lia.
    rewrite (byte_at_lookup _ _ _ Hb').
    replace (Z.to_nat (begin + 1)) with (S (Z.to_nat begin)) by lia.
    rewrite (drop_S _ _ _ Hb'). cbn [take]. rewrite fmap_cons, <- app_assoc.
    replace (begin + 1 + Z.of_nat n) with (begin + Z.of_nat (S n)) by lia.
    reflexivity.
Qed.

Lemma icc_marker_loop_open data total rounds :
  forall current_marker cinfo ms cur begin,
  0 <= begin <= vsize data ->
  exists cur',
    icc_marker_loop data (vsize data) total rounds current_marker
      (with_markers cinfo ms cur) begin =
    Ok (with_markers cinfo
          (ms ++ icc_markers rounds current_marker total
                   (drop (Z.to_nat begin) data))
          cur').
Proof.
  induction rounds as [| rounds IH]; intros current_marker cinfo ms cur begin Hb.
  - exists cur. cbn [icc_marker_loop icc_markers]. rewrite app_nil_r.
    reflexivity.
  - cbn [icc_marker_loop icc_markers].
    set (len := Z.min kMaxIccBytesInMarker (vsize data - begin)).
    assert (Hlen : 0 <= len <= kMaxIccBytesInMarker).
    { subst len. unfold kMaxIccBytesInMarker, kMaxBytesInMarker, vsize in *.
      simpl. lia. }
    assert (Htake : take (Z.to_nat len) (drop (Z.to_nat begin) data) =
                    take (Z.to_nat kMaxIccBytesInMarker)
                         (drop (Z.to_nat begin) data)).
    { subst len. unfold vsize in *.
      destruct (Z.le_ge_cases kMaxIccBytesInMarker
                  (Z.of_nat (length data) - begin)) as [Hle | Hge].
      - rewrite Z.min_l by lia. reflexivity.
      - rewrite Z.min_r by lia.
        rewrite !take_ge; [reflexivity | rewrite length_drop; lia ..]. }
    rewrite write_m_header_ok.
    2:{ unfold kMaxIccBytesInMarker, kMaxBytesInMarker, vsize in *.
        simpl in *. lia. }
    2:{ right. unfold kICCMarker, JPEG_APP0. lia. }
    cbn [bind]. fold (with_markers (with_markers cinfo ms cur)
      (special_markers (master (with_markers cinfo ms cur)) ++
         [marker_prefix kICCMarker (len + vsize kICCSignature + 2)])
      (Some (length (special_markers (master (with_markers cinfo ms cur)))))).
    cbn [with_markers master set_master set_markers special_markers].
    fold (with_markers cinfo
            (ms ++ [marker_prefix kICCMarker (len + vsize kICCSignature + 2)])
            (Some (length ms))).
    rewrite write_m_bytes_open. cbn [bind].
    rewrite write_m_byte_open. cbn [bind].
    rewrite write_m_byte_open. cbn [bind].
    rewrite icc_copy_loop_open.
    2:{ lia. }
    2:{ subst len. unfold vsize in *. lia. }
    cbn [bind fst snd].
    assert (Hblob :
      (((marker_prefix kICCMarker (len + vsize kICCSignature + 2)
           ++ (to_uint8 <$> kICCSignature))
          ++ [to_uint8 (current_marker + 1)]) ++ [to_uint8 total])
        ++ (to_uint8 <$> take (Z.to_nat len) (drop (Z.to_nat begin) data)) =
      icc_marker (current_marker + 1) total
        (to_uint8 <$> take (Z.to_nat kMaxIccBytesInMarker)
                        (drop (Z.to_nat begin) data))).
    { rewrite <- Htake. unfold icc_marker.
      replace (vsize (to_uint8 <$> take (Z.to_nat len)
                                     (drop (Z.to_nat begin) data)))
        with len.
      2:{ unfold vsize. rewrite length_fmap, length_take, length_drop.
          subst len. unfold vsize in *. lia. }
      change (to_uint8 <$> kICCSignature) with kICCSignature.
      rewrite <- !app_assoc. reflexivity. }
    rewrite Hblob.
    destruct (IH (current_marker + 1) cinfo
                (ms ++ [icc_marker (current_marker + 1) total
                          (to_uint8 <$> take (Z.to_nat kMaxIccBytesInMarker)
                                          (drop (Z.to_nat begin) data))])
                (Some (length ms)) (begin + Z.of_nat (Z.to_nat len)))
      as [cur' Hrec].
    { subst len. unfold vsize in *. lia. }
    exists cur'. rewrite with_markers_twice, Hrec, <- app_assoc. cbn [app].
    replace (drop (Z.to_nat kMaxIccBytesInMarker) (drop (Z.to_nat begin) data))
      with (drop (Z.to_nat (begin + Z.of_nat (Z.to_nat len))) data);
      [reflexivity |].
    rewrite drop_drop.
    destruct (Z.le_ge_cases kMaxIccBytesInMarker (vsize data - begin))
      as [Hle | Hge]; subst len.
    + rewrite Z.min_l by lia. f_equal. lia.
    + rewrite Z.min_r by lia. unfold vsize in *.
      rewrite !drop_ge; [reflexivity | lia ..].
Qed.

Lemma with_markers_self cinfo :
  with_markers cinfo (special_markers (master cinfo))
               (cur_marker_data (master cinfo)) = cinfo.
Proof. destruct cinfo as [m]. destruct m. reflexivity. Qed.

(** What [jpegli_write_icc_profile] leaves in the store: the old blobs
    followed by one blob per round, in order. *)
Lemma write_icc_profile_markers cinfo data :
  exists cur',
    jpegli_write_icc_profile cinfo data (vsize data) =
    Ok (with_markers cinfo
          (special_markers (master cinfo)
             ++ icc_markers
                  (Z.to_nat (DivCeil (vsize data) kMaxIccBytesInMarker)) 0
                  (DivCeil (vsize data) kMaxIccBytesInMarker) data)
          cur').
Proof.
  unfold jpegli_write_icc_profile.
  destruct (icc_marker_loop_open data
              (DivCeil (vsize data) kMaxIccBytesInMarker)
              (Z.to_nat (DivCeil (vsize data) kMaxIccBytesInMarker))
              0 cinfo (special_markers (master cinfo))
              (cur_marker_data (master cinfo)) 0) as [cur' H].
  { unfold vsize. lia. }
  exists cur'. rewrite with_markers_self in H. exact H.
Qed.

Lemma icc_markers_length rounds current_marker total rest :
  length (icc_markers rounds current_marker total rest) = rounds.
Proof.
  revert current_marker rest.
  induction rounds as [| rounds IH]; intros current_marker rest; simpl.
  - reflexivity.
  - rewrite IH. reflexivity.
Qed.

Lemma icc_markers_shape rounds current_marker total rest :
  Forall icc_marker_shape (icc_markers rounds current_marker total rest).
Proof.
  revert current_marker rest.
  induction rounds as [| rounds IH]; intros current_marker rest; simpl.
  - constructor.
  - constructor; [| apply IH].
    exists (to_uint8 (current_marker + 1)), (to_uint8 total),
      (to_uint8 <$> take (Z.to_nat kMaxIccBytesInMarker) rest).
    split; [reflexivity |]. change kMaxIccBytesInMarker with 65519. split.
    + unfold vsize. rewrite length_fmap, length_take. lia.
    + unfold vsize, icc_marker. rewrite !length_app.
      cbn [length marker_prefix kICCSignature]. lia.
Qed.

Lemma DivCeil_icc len :
  0 <= len ->
  DivCeil len kMaxIccBytesInMarker = (len + 65518) / 65519 /\
  65519 * (DivCeil len kMaxIccBytesInMarker - 1) < len
    <= 65519 * DivCeil len kMaxIccBytesInMarker.
Proof.
  intros Hlen. unfold DivCeil.
  change kMaxIccBytesInMarker with 65519.
  replace (len + 65519 - 1) with (len + 65518) by lia.
  split; [reflexivity |].
  pose proof (Z.div_mod (len + 65518) 65519 ltac:(lia)) as Hdm.
  pose proof (Z.mod_pos_bound (len + 65518) 65519 ltac:(lia)) as Hmod.
  lia.
Qed.

(** ** Chunked marker reader *)

Lemma split_length_field d :
  0 <= d -> Z.lor (Z.shiftl (Z.shiftr d 8) 8) (Z.land d 0xff) = d.
Proof.
  intros Hd. apply Z.bits_inj'. intros n Hn.
  rewrite Z.lor_spec, Z.land_spec. change 255 with (Z.ones 8).
  destruct (Z.lt_ge_cases n 8) as [Hlt | Hge].
  - rewrite Z.shiftl_spec_low by exact Hlt.
    rewrite Z.ones_spec_low by lia. rewrite andb_true_r. reflexivity.
  - rewrite Z.shiftl_spec by exact Hn.
    rewrite Z.shiftr_spec by lia.
    rewrite Z.ones_spec_high by lia. rewrite andb_false_r, orb_false_r.
    f_equal. lia.
Qed.

Lemma GetMarkerPayload_icc_marker seq_no total chunk :
  GetMarkerPayload (icc_marker seq_no total chunk) =
    Some (kICCSignature ++ [to_uint8 seq_no; to_uint8 total] ++ chunk).
Proof.
  unfold GetMarkerPayload.
  assert (Hsize : vsize (icc_marker seq_no total chunk) = vsize chunk + 18).
  { unfold vsize, icc_marker. rewrite !length_app.
    cbn [length marker_prefix kICCSignature]. lia. }
  rewrite Hsize.
  assert (Hc : 0 <= vsize chunk) by (unfold vsize; lia).
  replace (vsize chunk + 18 <? 4) with false by lia.
  change (byte_at (icc_marker seq_no total chunk) 2)
    with (Z.shiftr (vsize chunk + vsize kICCSignature + 2 + 2) 8).
  change (byte_at (icc_marker seq_no total chunk) 3)
    with (Z.land (vsize chunk + vsize kICCSignature + 2 + 2) 0xff).
  rewrite split_length_field by (change (vsize kICCSignature) with 12; lia).
  change (vsize kICCSignature) with 12.
  replace (vsize chunk + 12 + 2 + 2 =? vsize chunk + 18 - 2) with true by lia.
  reflexivity.
Qed.

Lemma parse_marker_skips marker_type tag allow st marker :
  byte_at marker 1 <> marker_type ->
  parse_marker marker_type tag allow st marker = Ok st.
Proof.
  intros H. unfold parse_marker.
  replace (byte_at marker 1 =? marker_type) with false by lia.
  rewrite orb_true_r. reflexivity.
Qed.

Lemma parse_markers_skips marker_type tag allow st markers :
  Forall (fun v => byte_at v 1 <> marker_type) markers ->
  parse_markers marker_type tag allow st markers = Ok st.
Proof.
  induction 1 as [| v markers Hv _ IH]; cbn [parse_markers].
  - reflexivity.
  - rewrite parse_marker_skips by exact Hv. exact IH.
Qed.

Lemma parse_markers_app marker_type tag allow st markers1 markers2 :
  parse_markers marker_type tag allow st (markers1 ++ markers2) =
    let* st' := parse_markers marker_type tag allow st markers1 in
    parse_markers marker_type tag allow st' markers2.
Proof.
  revert st. induction markers1 as [| v markers1 IH]; intros st.
  - reflexivity.
  - cbn [app parse_markers].
    destruct (parse_marker marker_type tag allow st v) as [st' | e];
      cbn [bind]; [apply IH | reflexivity].
Qed.

Lemma presence_next n k :
  (false :: replicate n true ++ replicate (S k) false) !! S n = Some false.
Proof.
  change ((replicate n true ++ replicate (S k) false) !! n = Some false).
  rewrite lookup_app_r by (rewrite length_replicate; lia).
  rewrite length_replicate, Nat.sub_diag. reflexivity.
Qed.

Lemma presence_insert_next n k :
  <[S n := true]> (false :: replicate n true ++ replicate (S k) false) =
  false :: replicate (S n) true ++ replicate k false.
Proof.
  change (false :: <[n := true]> (replicate n true ++ replicate (S k) false) =
          false :: replicate (S n) true ++ replicate k false).
  f_equal. rewrite insert_app_r_alt by (rewrite length_replicate; lia).
  rewrite length_replicate, Nat.sub_diag.
  rewrite (replicate_S_end n), <- app_assoc. reflexivity.
Qed.

Lemma chunks_insert_next (done : list (list Z)) k c :
  <[S (length done) := c]> ([] :: done ++ replicate (S k) []) =
  [] :: (done ++ [c]) ++ replicate k [].
Proof.
  change ([] :: <[length done := c]> (done ++ replicate (S k) []) =
          [] :: (done ++ [c]) ++ replicate k []).
  f_equal. rewrite insert_app_r_alt by lia.
  rewrite Nat.sub_diag. cbn [replicate insert list_insert].
  rewrite <- app_assoc. reflexivity.
Qed.

Lemma state_after_nonempty total done :
  done <> [] ->
  state_after total done =
    {| chunks := [] :: done ++ replicate (Z.to_nat total - length done) [];
       presence :=
         false :: replicate (length done) true
               ++ replicate (Z.to_nat total - length done) false;
       expected_number_of_parts := total;
       is_first_chunk := false;
       ordinal := vsize done |}.
Proof. destruct done; [congruence | reflexivity]. Qed.

Lemma tag_is_signature : kIccProfileTag = kICCSignature.
Proof. reflexivity. Qed.

Lemma parse_marker_next total done chunk :
  1 <= total <= 255 ->
  (length done < Z.to_nat total)%nat ->
  parse_marker kApp2 kIccProfileTag false (state_after total done)
    (icc_marker (vsize done + 1) total chunk) =
  Ok (state_after total (done ++ [chunk])).
Proof.
  intros Htotal Hdone. unfold parse_marker.
  assert (Hc : 0 <= vsize chunk) by (unfold vsize; lia).
  assert (Hd : 0 <= vsize done < total) by (unfold vsize; lia).
  assert (Hsize : vsize (icc_marker (vsize done + 1) total chunk) =
                  vsize chunk + 18).
  { unfold vsize, icc_marker. rewrite !length_app.
    cbn [length marker_prefix kICCSignature]. lia. }
  rewrite Hsize. replace (vsize chunk + 18 <? 2) with false by lia.
  change (byte_at (icc_marker (vsize done + 1) total chunk) 1 =? kApp2)
    with true.
  cbn [orb negb]. rewrite GetMarkerPayload_icc_marker.
  rewrite tag_is_signature, take_app_length, drop_app_length.
  rewrite bool_decide_eq_true_2 by reflexivity.
  replace (vsize (kICCSignature
                    ++ [to_uint8 (vsize done + 1); to_uint8 total] ++ chunk)
             <? vsize kICCSignature) with false.
  2:{ unfold vsize. rewrite length_app.
      generalize (length kICCSignature). intros sig_len.
      symmetry. apply Z.ltb_ge. lia. }
  cbn [orb negb].
  replace (vsize ([to_uint8 (vsize done + 1); to_uint8 total] ++ chunk) <? 2)
    with false.
  2:{ unfold vsize. rewrite length_app. cbn [length].
      symmetry. apply Z.ltb_ge. lia. }
  change (byte_at ([to_uint8 (vsize done + 1); to_uint8 total] ++ chunk) 0)
    with (to_uint8 (vsize done + 1)).
  change (byte_at ([to_uint8 (vsize done + 1); to_uint8 total] ++ chunk) 1)
    with (to_uint8 total).
  change (drop 2 ([to_uint8 (vsize done + 1); to_uint8 total] ++ chunk))
    with chunk.
  rewrite (to_uint8_small (vsize done + 1)) by lia.
  rewrite (to_uint8_small total) by lia.
  replace (total =? 0) with false by lia.
  replace (vsize done + 1 =? 0) with false by lia.
  replace (vsize done + 1 >? total) with false by lia.
  replace (Z.to_nat (vsize done + 1)) with (S (length done))
    by (unfold vsize; lia).
  replace (Z.to_nat (total + 1)) with (S (Z.to_nat total)) by lia.
  destruct (Z.to_nat total - length done)%nat as [| left] eqn:Eleft; [lia |].
  assert (Hleft : (Z.to_nat total - length (done ++ [chunk]) = left)%nat).
  { rewrite length_app. simpl. lia. }
  rewrite (state_after_nonempty total (done ++ [chunk]))
    by (destruct done; discriminate).
  rewrite Hleft.
  destruct (decide (done = [])) as [-> | Hne].
  - cbn [state_after initial_chunk_state ordinal is_first_chunk chunks
         presence expected_number_of_parts app].
    change (vsize [] + 1 =? 0 + 1) with true.
    cbn [andb negb bind chunks presence expected_number_of_parts
         is_first_chunk ordinal].
    rewrite !resize_nil. simpl in Eleft, Hleft.
    replace (Z.to_nat total) with (S left) by lia.
    reflexivity.
  - rewrite (state_after_nonempty total done Hne).
    cbn [ordinal is_first_chunk chunks presence expected_number_of_parts].
    replace (vsize done + 1 =? vsize done + 1) with true by lia.
    replace (total =? total) with true by lia.
    cbn [andb negb bind chunks presence expected_number_of_parts
         is_first_chunk ordinal].
    rewrite Eleft, presence_next. cbn [default orb].
    rewrite presence_insert_next, chunks_insert_next.
    f_equal. f_equal.
    + rewrite length_app. cbn [length]. rewrite Nat.add_1_r. reflexivity.
    + unfold vsize. rewrite length_app. cbn [length]. lia.
Qed.

Lemma chunks_of_length rounds rest : length (chunks_of rounds rest) = rounds.
Proof.
  revert rest. induction rounds as [| rounds IH]; intros rest; simpl.
  - reflexivity.
  - rewrite IH. reflexivity.
Qed.

Lemma chunks_of_concat rounds rest :
  vsize rest <= Z.of_nat rounds * kMaxIccBytesInMarker ->
  concat (chunks_of rounds rest) = rest.
Proof.
  change kMaxIccBytesInMarker with 65519. unfold vsize.
  revert rest. induction rounds as [| rounds IH]; intros rest Hlen.
  - destruct rest; [reflexivity | simpl in Hlen; lia].
  - cbn [chunks_of concat]. rewrite IH.
    + apply take_drop.
    + rewrite length_drop. change kMaxIccBytesInMarker with 65519. lia.
Qed.

Lemma octets_fmap_to_uint8 v : octets v -> to_uint8 <$> v = v.
Proof.
  induction 1 as [| b v Hb _ IH]; [reflexivity |].
  rewrite fmap_cons, IH, to_uint8_small by exact Hb. reflexivity.
Qed.

Lemma parse_icc_markers total rounds :
  1 <= total <= 255 ->
  forall done rest,
  (length done + rounds <= Z.to_nat total)%nat ->
  octets rest ->
  parse_markers kApp2 kIccProfileTag false (state_after total done)
    (icc_markers rounds (vsize done) total rest) =
  Ok (state_after total (done ++ chunks_of rounds rest)).
Proof.
  intros Htotal. induction rounds as [| rounds IH]; intros done rest Hlen Hrest.
  - cbn [icc_markers chunks_of parse_markers]. rewrite app_nil_r. reflexivity.
  - cbn [icc_markers chunks_of parse_markers].
    rewrite octets_fmap_to_uint8 by (apply Forall_take; exact Hrest).
    rewrite parse_marker_next by lia. cbn [bind].
    replace (vsize done + 1)
      with (vsize (done ++ [take (Z.to_nat kMaxIccBytesInMarker) rest])).
    2:{ unfold vsize. rewrite length_app. cbn [length]. lia. }
    rewrite IH.
    + rewrite <- app_assoc. reflexivity.
    + rewrite length_app. cbn [length]. lia.
    + apply Forall_drop. exact Hrest.
Qed.

Lemma collect_chunks_all total done :
  done <> [] ->
  length done = Z.to_nat total ->
  forall todo (i : nat) output,
  (i + todo = length done)%nat ->
  collect_chunks (state_after total done) todo (Z.of_nat i) output =
    Ok (output ++ concat (drop i done)).
Proof.
  intros Hne Hlen todo. rewrite (state_after_nonempty total done Hne).
  induction todo as [| todo IH]; intros i output Hi.
  - cbn [collect_chunks]. rewrite drop_ge by lia. cbn [concat].
    rewrite app_nil_r. reflexivity.
  - cbn [collect_chunks chunks presence].
    replace (Z.to_nat (Z.of_nat i + 1)) with (S i) by lia.
    destruct (lookup_lt_is_Some_2 done i) as [c Hc]; [lia |].
    change ((false :: replicate (length done) true
               ++ replicate (Z.to_nat total - length done) false) !! S i)
      with ((replicate (length done) true
               ++ replicate (Z.to_nat total - length done) false) !! i).
    change (([] :: done ++ replicate (Z.to_nat total - length done) []) !! S i)
      with ((done ++ replicate (Z.to_nat total - length done) []) !! i).
    rewrite lookup_app_l by (rewrite length_replicate; lia).
    rewrite lookup_replicate_2 by lia.
    rewrite (lookup_app_l_Some _ _ _ _ Hc). cbn [default negb].
    replace (Z.of_nat i + 1) with (Z.of_nat (S i)) by lia.
    rewrite IH by lia.
    rewrite (drop_S _ _ _ Hc). cbn [concat]. rewrite <- app_assoc.
    reflexivity.
Qed.

Lemma chunks_of_lookup rounds : forall rest (k : nat) chunk,
  chunks_of rounds rest !! k = Some chunk ->
  chunk = take (Z.to_nat kMaxIccBytesInMarker)
               (drop (k * Z.to_nat kMaxIccBytesInMarker) rest).
Proof.
  induction rounds as [| rounds IH]; intros rest k chunk Hk.
  - discriminate Hk.
  - cbn [chunks_of] in Hk. destruct k as [| k].
    + injection Hk as <-. rewrite Nat.mul_0_l, drop_0. reflexivity.
    + apply IH in Hk. rewrite drop_drop in Hk.
      rewrite Nat.mul_succ_l, (Nat.add_comm (k * _)). exact Hk.
Qed.

Lemma icc_markers_as_chunks rounds : forall current_marker total rest
    (k : nat) chunk,
  chunks_of rounds rest !! k = Some chunk ->
  icc_markers rounds current_marker total rest !! k =
    Some (icc_marker (current_marker + Z.of_nat k + 1) total
            (to_uint8 <$> chunk)).
Proof.
  induction rounds as [| rounds IH]; intros current_marker total rest k chunk Hk.
  - discriminate Hk.
  - cbn [chunks_of] in Hk. cbn [icc_markers]. destruct k as [| k].
    + injection Hk as <-.
      replace (current_marker + Z.of_nat 0 + 1) with (current_marker + 1)
        by lia.
      reflexivity.
    + replace (current_marker + Z.of_nat (S k) + 1)
        with (current_marker + 1 + Z.of_nat k + 1) by lia.
      apply (IH (current_marker + 1) total _ k chunk Hk).
Qed.

(** C2, as the code has it: the chunk size is
    [kMaxBytesInMarker - sizeof kICCSignature - 2 = 65519].  For every
    profile of [unsigned int] length, [jpegli_write_icc_profile] succeeds
    and appends ceil(len / 65519) APP2 blobs, each made of the 4-byte
    header, the 12-byte signature, the sequence and count bytes and at most
    65519 profile bytes.  The blobs carry the profile split in order:
    chunk [k] is the 65519 bytes of [data] from offset [65519 * k], or as
    many as are left, the chunks concatenated are [data], and blob [k] is
    the header for the chunk, the signature, the sequence number [k + 1],
    the count, and the bytes of chunk [k] stored as [uint8_t]. *)
Theorem write_icc_profile_chunking cinfo data :
  vsize data < 2 ^ 32 ->
  exists cinfo' new,
    jpegli_write_icc_profile cinfo data (vsize data) = Ok cinfo' /\
    special_markers (master cinfo') = special_markers (master cinfo) ++ new /\
    vsize new = (vsize data + 65518) / 65519 /\
    65519 * (vsize new - 1) < vsize data <= 65519 * vsize new /\
    kMaxIccBytesInMarker = 65519 /\
    Forall icc_marker_shape new /\
    exists chunks,
      length chunks = length new /\
      concat chunks = data /\
      forall (k : nat) chunk,
        chunks !! k = Some chunk ->
        chunk = take (Z.to_nat kMaxIccBytesInMarker)
                     (drop (k * Z.to_nat kMaxIccBytesInMarker) data) /\
        new !! k =
          Some (marker_prefix kICCMarker (vsize chunk + 12 + 2)
                  ++ kICCSignature
                  ++ [to_uint8 (Z.of_nat k + 1); to_uint8 (vsize new)]
                  ++ (to_uint8 <$> chunk)).
Proof.
  intros _. destruct (write_icc_profile_markers cinfo data) as [cur' H].
  eexists _, _. split; [exact H |]. split; [reflexivity |].
  assert (Hlen : 0 <= vsize data) by (unfold vsize; lia).
  destruct (DivCeil_icc (vsize data) Hlen) as [Hq Hb].
  set (total := DivCeil (vsize data) kMaxIccBytesInMarker) in *.
  assert (Hnew : vsize (icc_markers (Z.to_nat total) 0 total data) = total).
  { unfold vsize at 1. rewrite icc_markers_length. lia. }
  rewrite Hnew.
  split; [exact Hq |]. split; [exact Hb |]. split; [reflexivity |].
  split; [apply icc_markers_shape |].
  exists (chunks_of (Z.to_nat total) data).
  split; [rewrite chunks_of_length, icc_markers_length; reflexivity |].
  split.
  - apply chunks_of_concat. change kMaxIccBytesInMarker with 65519. lia.
  - intros k chunk Hk. split; [exact (chunks_of_lookup _ _ _ _ Hk) |].
    rewrite (icc_markers_as_chunks _ 0 total data k chunk Hk).
    unfold icc_marker, vsize. rewrite length_fmap, Z.add_0_l.
    reflexivity.
Qed.

(** C1: for every byte sequence of length at most 65517 * 255, written by
    [jpegli_write_icc_profile] on a context whose marker store holds no
    APP2 entry, [ParseChunkedMarker] with the APP2 code and the tag
    "ICC_PROFILE\0" succeeds on the resulting store and returns exactly
    the bytes. *)
Theorem icc_profile_round_trip cinfo bytes :
  octets bytes ->
  vsize bytes <= 65517 * 255 ->
  Forall (fun v => ~ is_app2 v) (special_markers (master cinfo)) ->
  exists cinfo',
    jpegli_write_icc_profile cinfo bytes (vsize bytes) = Ok cinfo' /\
    ParseChunkedMarker cinfo' kApp2 kIccProfileTag false = Ok bytes.
Proof.
  intros Hoct Hlen Hold.
  destruct (write_icc_profile_markers cinfo bytes) as [cur' Hwrite].
  eexists. split; [exact Hwrite |].
  unfold ParseChunkedMarker.
  cbn [with_markers master set_master set_markers special_markers].
  assert (H0 : 0 <= vsize bytes) by (unfold vsize; lia).
  destruct (DivCeil_icc (vsize bytes) H0) as [Hq Hb].
  set (total := DivCeil (vsize bytes) kMaxIccBytesInMarker) in *.
  assert (Htotal : 0 <= total <= 255) by lia.
  rewrite parse_markers_app, parse_markers_skips by exact Hold.
  cbn [bind].
  destruct (Z.eq_dec total 0) as [E0 | Hpos].
  - rewrite E0. cbn [Z.to_nat icc_markers parse_markers bind
      initial_chunk_state expected_number_of_parts collect_chunks].
    destruct bytes; [reflexivity | unfold vsize in Hb; simpl in Hb; lia].
  - change initial_chunk_state with (state_after total []).
    change 0 with (vsize (@nil (list Z))) at 1.
    rewrite parse_icc_markers; [| lia | simpl; lia | exact Hoct].
    cbn [bind app].
    assert (Hne : chunks_of (Z.to_nat total) bytes <> []).
    { destruct (Z.to_nat total) eqn:E; [lia | discriminate]. }
    replace (expected_number_of_parts
               (state_after total (chunks_of (Z.to_nat total) bytes)))
      with total by (rewrite (state_after_nonempty total _ Hne); reflexivity).
    change 0 with (Z.of_nat 0) at 1.
    rewrite (collect_chunks_all total _ Hne
               (chunks_of_length _ _) (Z.to_nat total) 0%nat []).
    + rewrite drop_0. cbn [app]. rewrite chunks_of_concat; [reflexivity |].
      change kMaxIccBytesInMarker with 65519. lia.
    + rewrite chunks_of_length. lia.
Qed.

(** ** Input stager: splitting a batch *)

Lemma foldl_ext_elem {A B : Type} (f g : A -> B -> A) (l : list B) (a : A) :
  (forall a x, x ∈ l -> f a x = g a x) ->
  foldl f a l = foldl g a l.
Proof.
  revert a. induction l as [| x l IH]; intros a H; simpl.
  - reflexivity.
  - rewrite H by left. apply IH. intros a' y Hy. apply H. right. exact Hy.
Qed.

Lemma foldl_commute_past {S C : Type} (A : C -> S -> S) (b : S -> S)
    (cs : list C) (s : S) :
  (forall c s, c ∈ cs -> A c (b s) = b (A c s)) ->
  foldl (fun s c => A c s) (b s) cs = b (foldl (fun s c => A c s) s cs).
Proof.
  revert s. induction cs as [| c cs IH]; intros s H; simpl.
  - reflexivity.
  - rewrite H by left. apply IH. intros c' s' Hc'. apply H. right. exact Hc'.
Qed.

(** Two passes over the same distinct keys can be fused into one when
    the steps of different keys commute. *)
Lemma foldl_two_passes {S C : Type} (A B : C -> S -> S) (cs : list C) (s : S) :
  NoDup cs ->
  (forall c c' s, c ∈ cs -> c' ∈ cs -> c <> c' -> A c (B c' s) = B c' (A c s)) ->
  foldl (fun s c => B c (A c s)) s cs =
  foldl (fun s c => B c s) (foldl (fun s c => A c s) s cs) cs.
Proof.
  intros Hnd. revert s. induction Hnd as [| c cs Hc Hnd IH]; intros s H; simpl.
  - reflexivity.
  - rewrite IH.
    2:{ intros c1 c2 s' H1 H2. apply H; right; assumption. }
    f_equal. apply foldl_commute_past.
    intros c' s' Hc'. apply H; [right; exact Hc' | left |].
    intros ->. contradiction.
Qed.

Lemma stage_component cinfo scanlines c lines pl :
  foldl (fun pl i => stage_line cinfo scanlines c i pl) pl lines =
  alter (stage_plane cinfo scanlines c lines) (Z.to_nat c) pl.
Proof.
  revert pl. induction lines as [| i lines IH]; intros pl; simpl.
  - symmetry. apply list_alter_id. reflexivity.
  - rewrite IH. unfold stage_line. rewrite list_alter_alter_eq.
    apply list_alter_ext; [| reflexivity]. intros plane _. reflexivity.
Qed.

Lemma stage_row_same cinfo img ns src c row :
  stage_row (set_next_scanline
               (set_master cinfo (set_input (master cinfo) img)) ns)
            src c row =
  stage_row cinfo src c row.
Proof. reflexivity. Qed.

Lemma stage_line_shift cinfo img k scanlines c i pl :
  0 <= k -> 0 <= i ->
  0 <= next_scanline cinfo ->
  next_scanline cinfo + k < 2 ^ 32 ->
  stage_line (set_next_scanline
                (set_master cinfo (set_input (master cinfo) img))
                (wrap32 (next_scanline cinfo + k)))
             (drop (Z.to_nat k) scanlines) c i pl =
  stage_line cinfo scanlines c (k + i) pl.
Proof.
  intros Hk Hi Hns Hsum. unfold stage_line.
  cbn [next_scanline set_next_scanline].
  rewrite wrap32_small by lia. rewrite lookup_drop.
  replace (Z.to_nat (k + i)) with (Z.to_nat k + Z.to_nat i)%nat by lia.
  replace (next_scanline cinfo + k + i) with (next_scanline cinfo + (k + i))
    by lia.
  apply list_alter_ext; [| reflexivity]. intros plane _.
  apply list_alter_ext; [| reflexivity]. intros row _.
  apply stage_row_same.
Qed.

Lemma stage_lines_split cinfo img scanlines n k pl :
  0 <= num_components cinfo ->
  0 <= next_scanline cinfo ->
  next_scanline cinfo + n < 2 ^ 32 ->
  0 <= k <= n ->
  stage_lines cinfo scanlines n pl =
  stage_lines (set_next_scanline
                 (set_master cinfo (set_input (master cinfo) img))
                 (wrap32 (next_scanline cinfo + k)))
              (drop (Z.to_nat k) scanlines) (n - k)
              (stage_lines cinfo (take (Z.to_nat k) scanlines) k pl).
Proof.
  intros Hnc Hns Hsum Hk. unfold stage_lines.
  cbn [num_components set_next_scanline set_master].
  set (first := fun c (pl : list (list (list float))) =>
         foldl (fun pl i => stage_line cinfo scanlines c i pl) pl (seqZ 0 k)).
  set (second := fun c (pl : list (list (list float))) =>
         foldl (fun pl i => stage_line cinfo scanlines c i pl)
               pl (seqZ k (n - k))).
  transitivity
    (foldl (fun pl c => second c (first c pl)) pl
           (seqZ 0 (num_components cinfo))).
  { apply foldl_ext_elem. intros pl' c _. subst first second. cbv beta.
    rewrite <- foldl_app.
    replace n with (k + (n - k)) at 1 by lia.
    rewrite seqZ_app by lia. reflexivity. }
  rewrite foldl_two_passes.
  - transitivity
      (foldl (fun pl c => second c pl)
         (foldl (fun pl c =>
                   foldl (fun pl i =>
                            stage_line cinfo (take (Z.to_nat k) scanlines)
                                       c i pl)
                         pl (seqZ 0 k))
                pl (seqZ 0 (num_components cinfo)))
         (seqZ 0 (num_components cinfo))).
    + f_equal. apply foldl_ext_elem. intros pl' c _. subst first. cbv beta.
      apply foldl_ext_elem. intros pl'' i Hi.
      apply elem_of_seqZ in Hi. unfold stage_line.
      rewrite lookup_take_lt by lia. reflexivity.
    + apply foldl_ext_elem. intros pl' c _. subst second. cbv beta.
      replace (seqZ k (n - k)) with (Z.add k <$> seqZ 0 (n - k))
        by (rewrite fmap_add_seqZ; f_equal; lia).
      rewrite foldl_fmap.
      apply foldl_ext_elem. intros pl'' i Hi.
      apply elem_of_seqZ in Hi. symmetry.
      apply stage_line_shift; lia.
  - apply NoDup_seqZ.
  - intros c c' pl' Hc Hc' Hne. subst first second. cbv beta.
    rewrite !stage_component.
    apply elem_of_seqZ in Hc. apply elem_of_seqZ in Hc'.
    apply list_alter_alter_ne. lia.
Qed.

(** C9: on a context ready for staging, a batch of [n] lines with
    [n <= image_height - next_scanline] staged by one call of
    [jpegli_write_scanlines] leaves the same context, in particular the
    same input planes and the same [next_scanline], as staging its first
    [k] lines and then the remaining [n - k] lines, for every
    [0 <= k <= n]; each call consumes all the lines it is given. *)
Theorem write_scanlines_split cinfo scanlines n k :
  staging_ready cinfo ->
  lines_ready cinfo scanlines ->
  vsize scanlines = n ->
  n <= image_height cinfo - next_scanline cinfo ->
  0 <= k <= n ->
  exists whole part both,
    jpegli_write_scanlines cinfo scanlines n = Ok (whole, n) /\
    jpegli_write_scanlines cinfo (take (Z.to_nat k) scanlines) k
      = Ok (part, k) /\
    jpegli_write_scanlines part (drop (Z.to_nat k) scanlines) (n - k)
      = Ok (both, n - k) /\
    planes (input (master whole)) = planes (input (master both)) /\
    next_scanline whole = next_scanline both /\
    whole = both.
Proof.
  intros (Hns & Hh & Hw & Hnc & _ & _) _ Hn Hfit Hk.
  unfold jpegli_write_scanlines.
  replace (num_components cinfo >? 3) with false by lia.
  rewrite (wrap32_small (n + _)), (wrap32_small (k + _)) by lia.
  replace (n + next_scanline cinfo >? image_height cinfo) with false by lia.
  replace (k + next_scanline cinfo >? image_height cinfo) with false by lia.
  eexists _, _, _. split; [reflexivity |]. split; [reflexivity |].
  cbn [num_components set_next_scanline set_master next_scanline
       image_height master set_input set_geometry input planes xsize ysize
       max_shift xsize_blocks ysize_blocks].
  replace (num_components cinfo >? 3) with false by lia.
  rewrite (wrap32_small (next_scanline cinfo + k)) by lia.
  rewrite (wrap32_small (n - k + _)) by lia.
  replace (n - k + (next_scanline cinfo + k) >? image_height cinfo)
    with false by lia.
  split; [reflexivity |].
  cbn [num_components set_next_scanline set_master next_scanline
       image_height master set_input set_geometry input planes xsize ysize
       max_shift xsize_blocks ysize_blocks].
  assert (Hplanes :
    stage_lines cinfo scanlines n (planes (input (master cinfo))) =
    stage_lines
      (set_next_scanline
         (set_master cinfo
            (set_input (master cinfo)
               {| xsize := xsize (input (master cinfo));
                  ysize := ysize (input (master cinfo));
                  planes := stage_lines cinfo (take (Z.to_nat k) scanlines) k
                              (planes (input (master cinfo))) |}))
         (next_scanline cinfo + k))
      (drop (Z.to_nat k) scanlines) (n - k)
      (stage_lines cinfo (take (Z.to_nat k) scanlines) k
         (planes (input (master cinfo))))).
  { rewrite <- (wrap32_small (next_scanline cinfo + k)) at 1 by lia.
    apply stage_lines_split; lia. }
  split; [exact Hplanes |].
  assert (Hcur : wrap32 (next_scanline cinfo + n) =
                 wrap32 (next_scanline cinfo + k + (n - k))).
  { f_equal. lia. }
  split; [exact Hcur |].
  unfold set_next_scanline, set_master, set_input, set_geometry.
  cbn [master image_width image_height num_components comp_info
       max_h_samp_factor max_v_samp_factor progressive_mode scan_info
       num_scans script_space script_space_size special_markers
       cur_marker_data progressive_level max_shift xsize_blocks ysize_blocks
       data_type endianness input xsize ysize planes].
  rewrite Hcur. f_equal. f_equal. f_equal. exact Hplanes.
Qed.

End EncoderProperties.

(** * Properties of the rest of the interface *)

Section InterfaceProperties.

Set Default Proof Using "Type".

Context {float : Type} {platform : Platform float}.
Context {ColorEncoding : Type} {color : ColorManagement ColorEncoding}.
Context {curve : DistanceCurve float}.

Implicit Types cinfo : @jpeg_compress_struct float.

(** ** Marker store *)

Lemma write_m_header_inv cinfo marker datalen cinfo' :
  jpegli_write_m_header cinfo marker datalen = Ok cinfo' ->
  app_or_com marker /\ datalen <= kMaxBytesInMarker /\
  cinfo' = with_markers cinfo
             (special_markers (master cinfo)
                ++ [[0xff; marker;
                     to_uint8 (Z.shiftr (wrap32 (datalen + 2)) 8);
                     to_uint8 (Z.land (wrap32 (datalen + 2)) 0xff)]])
             (Some (length (special_markers (master cinfo)))).
Proof.
  unfold jpegli_write_m_header, kMaxBytesInMarker.
  destruct (Z.gtb_spec datalen 65533) as [Hgt | Hle]; [discriminate |].
  destruct (Z.eqb_spec marker 0xfe) as [-> | Hne]; cbn [negb andb].
  - intros E. injection E as <-. split; [left; reflexivity |].
    split; [lia | reflexivity].
  - destruct (Z.ltb_spec marker 0xe0) as [Hlt | Hge]; cbn [orb];
      [discriminate |].
    destruct (Z.gtb_spec marker 0xef) as [Hgt | Hle']; [discriminate |].
    intros E. injection E as <-. split; [right; lia |]. split; [lia |].
    rewrite (to_uint8_small marker) by lia. reflexivity.
Qed.

Lemma write_m_byte_inv cinfo val cinfo' :
  jpegli_write_m_byte cinfo val = Ok cinfo' ->
  exists cur,
    cur_marker_data (master cinfo) = Some cur /\
    cinfo' = with_markers cinfo
               (alter (fun blob => blob ++ [to_uint8 val]) cur
                      (special_markers (master cinfo)))
               (Some cur).
Proof.
  unfold jpegli_write_m_byte.
  destruct (cur_marker_data (master cinfo)) as [cur |]; [| discriminate].
  intros E. injection E as <-. exists cur. split; reflexivity.
Qed.

Lemma blob_headed_grows blob more : blob_headed blob -> blob_headed (blob ++ more).
Proof.
  intros (Hlen & H0 & H1). unfold vsize in Hlen.
  destruct blob as [| b0 [| b1 blob]]; simpl in Hlen; try lia.
  split; [| split; [exact H0 | exact H1]].
  unfold vsize. rewrite length_app. simpl. lia.
Qed.

Lemma store_extends_refl ms : store_extends ms ms.
Proof.
  split; [lia |]. split; [auto |].
  intros blob Hlast. exists []. rewrite app_nil_r.
  rewrite last_lookup in Hlast.
  replace (length ms - 1)%nat with (pred (length ms)) by lia. exact Hlast.
Qed.

Lemma store_extends_trans ms1 ms2 ms3 :
  store_extends ms1 ms2 -> store_extends ms2 ms3 -> store_extends ms1 ms3.
Proof.
  intros (Hl1 & Hf1 & Hg1) (Hl2 & Hf2 & Hg2).
  split; [lia |]. split.
  - intros j blob Hj Hlt. apply Hf2; [apply Hf1; assumption | lia].
  - intros blob Hlast. destruct (Hg1 blob Hlast) as [more Hmore].
    destruct (decide (length ms1 = length ms2)) as [E | Hne].
    + destruct (Hg2 (blob ++ more)) as [more' Hmore'].
      { rewrite last_lookup.
        replace (pred (length ms2)) with (length ms1 - 1)%nat by lia.
        exact Hmore. }
      exists (more ++ more'). rewrite app_assoc, E. exact Hmore'.
    + exists more. apply Hf2; [exact Hmore |].
      assert (ms1 <> []) by (intros ->; discriminate). 
      destruct ms1; [congruence | simpl in *; lia].
Qed.

Lemma bind_Ok_inv {E A B : Type} (c : result E A) (k : A -> result E B) r :
  (let* x := c in k x) = Ok r -> exists x, c = Ok x /\ k x = Ok r.
Proof. destruct c as [x | e]; [eauto | discriminate]. Qed.

Lemma keeps_store_refl cinfo : keeps_store cinfo cinfo.
Proof. intros H. split; [exact H | apply store_extends_refl]. Qed.

Lemma keeps_store_trans cinfo1 cinfo2 cinfo3 :
  keeps_store cinfo1 cinfo2 -> keeps_store cinfo2 cinfo3 ->
  keeps_store cinfo1 cinfo3.
Proof.
  intros H12 H23 H1. destruct (H12 H1) as [H2 E12].
  destruct (H23 H2) as [H3 E23]. split; [exact H3 |].
  exact (store_extends_trans _ _ _ E12 E23).
Qed.

Lemma write_m_header_keeps cinfo marker datalen cinfo' :
  jpegli_write_m_header cinfo marker datalen = Ok cinfo' ->
  keeps_store cinfo cinfo'.
Proof.
  intros H. apply write_m_header_inv in H. destruct H as (Hm & _ & ->).
  intros [Hall _]. unfold store_ok.
  cbn [with_markers master set_master set_markers special_markers
       cur_marker_data].
  split; [split |].
  - apply Forall_app. split; [exact Hall |]. constructor; [| constructor].
    split; [vm_compute; discriminate |]. split; [reflexivity | exact Hm].
  - right. split; [intros E; apply app_eq_nil in E; destruct E; discriminate |].
    rewrite length_app. simpl. f_equal. lia.
  - split; [rewrite length_app; lia |]. split.
    + intros j blob Hj _. apply lookup_app_l_Some. exact Hj.
    + intros blob Hlast. exists []. rewrite app_nil_r.
      rewrite last_lookup in Hlast. apply lookup_app_l_Some.
      replace (length (special_markers (master cinfo)) - 1)%nat
        with (pred (length (special_markers (master cinfo)))) by lia.
      exact Hlast.
Qed.

Lemma write_m_byte_keeps cinfo val cinfo' :
  jpegli_write_m_byte cinfo val = Ok cinfo' ->
  keeps_store cinfo cinfo'.
Proof.
  intros H. apply write_m_byte_inv in H. destruct H as (cur & Hcur & ->).
  intros [Hall Hok]. unfold store_ok.
  cbn [with_markers master set_master set_markers special_markers
       cur_marker_data].
  destruct Hok as [Hnone | [Hne Hlast]]; [congruence |].
  rewrite Hcur in Hlast. injection Hlast as ->.
  set (ms := special_markers (master cinfo)) in *.
  split; [split |].
  - apply Forall_alter; [exact Hall |].
    intros blob _. apply blob_headed_grows.
  - right. split.
    + intros E. apply (f_equal length) in E. rewrite length_alter in E.
      destruct ms; [congruence | discriminate].
    + rewrite length_alter. reflexivity.
  - split; [rewrite length_alter; lia |]. split.
    + intros j blob Hj Hlt. rewrite list_lookup_alter_ne by lia. exact Hj.
    + intros blob Hblob. exists [to_uint8 val].
      rewrite list_lookup_alter_eq. rewrite last_lookup in Hblob.
      replace (length ms - 1)%nat with (pred (length ms)) by lia.
      rewrite Hblob. reflexivity.
Qed.

Lemma write_m_bytes_keeps vals : forall cinfo cinfo',
  write_m_bytes cinfo vals = Ok cinfo' -> keeps_store cinfo cinfo'.
Proof.
  induction vals as [| v vals IH]; intros cinfo cinfo' H.
  - injection H as <-. apply keeps_store_refl.
  - cbn [write_m_bytes] in H. apply bind_Ok_inv in H.
    destruct H as (c1 & H1 & H2).
    exact (keeps_store_trans _ _ _ (write_m_byte_keeps _ _ _ H1) (IH _ _ H2)).
Qed.

Lemma icc_copy_loop_keeps data n : forall cinfo begin cinfo' begin',
  icc_copy_loop data n cinfo begin = Ok (cinfo', begin') ->
  keeps_store cinfo cinfo'.
Proof.
  induction n as [| n IH]; intros cinfo begin cinfo' begin' H.
  - injection H as <- _. apply keeps_store_refl.
  - cbn [icc_copy_loop] in H. apply bind_Ok_inv in H.
    destruct H as (c1 & H1 & H2).
    exact (keeps_store_trans _ _ _ (write_m_byte_keeps _ _ _ H1)
             (IH _ _ _ _ H2)).
Qed.

Lemma icc_marker_loop_keeps data len total rounds :
  forall current_marker cinfo begin cinfo',
  icc_marker_loop data len total rounds current_marker cinfo begin = Ok cinfo' ->
  keeps_store cinfo cinfo'.
Proof.
  induction rounds as [| rounds IH]; intros current_marker cinfo begin cinfo' H.
  - injection H as <-. apply keeps_store_refl.
  - cbn [icc_marker_loop] in H.
    apply bind_Ok_inv in H. destruct H as (c1 & H1 & H).
    apply bind_Ok_inv in H. destruct H as (c2 & H2 & H).
    apply bind_Ok_inv in H. destruct H as (c3 & H3 & H).
    apply bind_Ok_inv in H. destruct H as (c4 & H4 & H).
    apply bind_Ok_inv in H. destruct H as ([c5 begin'] & H5 & H).
    cbn [fst snd] in H.
    eapply keeps_store_trans; [exact (write_m_header_keeps _ _ _ _ H1) |].
    eapply keeps_store_trans; [exact (write_m_bytes_keeps _ _ _ H2) |].
    eapply keeps_store_trans; [exact (write_m_byte_keeps _ _ _ H3) |].
    eapply keeps_store_trans; [exact (write_m_byte_keeps _ _ _ H4) |].
    eapply keeps_store_trans; [exact (icc_copy_loop_keeps _ _ _ _ _ _ H5) |].
    exact (IH _ _ _ _ H).
Qed.

(** X1: every sequence of marker-interface calls that succeeds keeps the
    store well formed. *)
Theorem marker_calls_keep_store cinfo calls cinfo' :
  Forall call_in_range calls ->
  store_ok cinfo ->
  run_calls cinfo calls = Ok cinfo' ->
  store_ok cinfo' /\
  store_extends (special_markers (master cinfo))
                (special_markers (master cinfo')).
Proof.
  intros _ Hok Hrun. revert Hok. change (keeps_store cinfo cinfo').
  revert cinfo Hrun. induction calls as [| call calls IH]; intros cinfo Hrun.
  - injection Hrun as <-. apply keeps_store_refl.
  - cbn [run_calls] in Hrun. apply bind_Ok_inv in Hrun.
    destruct Hrun as (c1 & H1 & H2).
    eapply keeps_store_trans; [| exact (IH _ H2)].
    destruct call as [marker datalen | val | data]; cbn [run_call] in H1.
    + exact (write_m_header_keeps _ _ _ _ H1).
    + exact (write_m_byte_keeps _ _ _ H1).
    + exact (icc_marker_loop_keeps _ _ _ _ _ _ _ _ H1).
Qed.

Lemma GetMarkerPayload_prefixed marker datalen payload :
  0 <= datalen ->
  GetMarkerPayload (marker_prefix marker datalen ++ payload) =
    if decide (vsize payload = datalen) then Some payload else None.
Proof.
  intros Hd. unfold GetMarkerPayload.
  assert (Hsize : vsize (marker_prefix marker datalen ++ payload)
                  = vsize payload + 4).
  { unfold vsize. rewrite length_app. cbn [length marker_prefix]. lia. }
  rewrite Hsize. assert (0 <= vsize payload) by (unfold vsize; lia).
  replace (vsize payload + 4 <? 4) with false by lia.
  change (byte_at (marker_prefix marker datalen ++ payload) 2)
    with (Z.shiftr (datalen + 2) 8).
  change (byte_at (marker_prefix marker datalen ++ payload) 3)
    with (Z.land (datalen + 2) 0xff).
  rewrite split_length_field by lia.
  destruct (decide (vsize payload = datalen)) as [E | Hne].
  - replace (datalen + 2 =? vsize payload + 4 - 2) with true by lia.
    reflexivity.
  - replace (datalen + 2 =? vsize payload + 4 - 2) with false by lia.
    reflexivity.
Qed.

Lemma write_header_then_bytes cinfo marker datalen bytes :
  app_or_com marker ->
  0 <= datalen <= kMaxBytesInMarker ->
  exists c1,
    jpegli_write_m_header cinfo marker datalen = Ok c1 /\
    write_m_bytes c1 bytes =
      Ok (with_markers cinfo
            (special_markers (master cinfo)
               ++ [marker_prefix marker datalen ++ (to_uint8 <$> bytes)])
            (Some (length (special_markers (master cinfo))))).
Proof.
  intros Hm Hd. eexists. split; [apply write_m_header_ok; assumption |].
  fold (with_markers cinfo
          (special_markers (master cinfo) ++ [marker_prefix marker datalen])
          (Some (length (special_markers (master cinfo))))).
  apply write_m_bytes_open.
Qed.

(** X2: a marker written with [jpegli_write_m_header] and exactly [datalen]
    calls of [jpegli_write_m_byte] is read back by [GetMarkerPayload]. *)
Theorem marker_payload_round_trip cinfo marker bytes :
  app_or_com marker ->
  vsize bytes <= kMaxBytesInMarker ->
  exists c1 c2 blob,
    jpegli_write_m_header cinfo marker (vsize bytes) = Ok c1 /\
    write_m_bytes c1 bytes = Ok c2 /\
    special_markers (master c2) = special_markers (master cinfo) ++ [blob] /\
    byte_at blob 0 = 0xff /\
    byte_at blob 1 = marker /\
    GetMarkerPayload blob = Some (to_uint8 <$> bytes).
Proof.
  intros Hm Hlen.
  assert (Hd : 0 <= vsize bytes <= kMaxBytesInMarker)
    by (unfold vsize in *; lia).
  destruct (write_header_then_bytes cinfo marker (vsize bytes) bytes Hm Hd)
    as (c1 & H1 & H2).
  eexists c1, _, _. split; [exact H1 |]. split; [exact H2 |].
  split; [reflexivity |]. split; [reflexivity |]. split; [reflexivity |].
  rewrite GetMarkerPayload_prefixed by lia.
  rewrite decide_True; [reflexivity |].
  unfold vsize. rewrite length_fmap. reflexivity.
Qed.

(** X3: when the number of bytes written differs from the announced
    [datalen], [GetMarkerPayload] rejects the blob. *)
Theorem marker_length_mismatch_rejected cinfo marker datalen bytes :
  app_or_com marker ->
  0 <= datalen <= kMaxBytesInMarker ->
  vsize bytes <> datalen ->
  exists c1 c2 blob,
    jpegli_write_m_header cinfo marker datalen = Ok c1 /\
    write_m_bytes c1 bytes = Ok c2 /\
    special_markers (master c2) = special_markers (master cinfo) ++ [blob] /\
    GetMarkerPayload blob = None.
Proof.
  intros Hm Hd Hne.
  destruct (write_header_then_bytes cinfo marker datalen bytes Hm Hd)
    as (c1 & H1 & H2).
  eexists c1, _, _. split; [exact H1 |]. split; [exact H2 |].
  split; [reflexivity |].
  rewrite GetMarkerPayload_prefixed by lia.
  rewrite decide_False; [reflexivity |].
  unfold vsize in *. rewrite length_fmap. exact Hne.
Qed.

(** *** ICC blobs built in one piece *)

Lemma CreateICCAppMarker_small icc :
  vsize icc <= kMaxIccBytesInMarker ->
  CreateICCAppMarker icc = icc_marker 1 1 icc.
Proof.
  change kMaxIccBytesInMarker with 65519. intros Hlen.
  assert (H0 : 0 <= vsize icc) by (unfold vsize; lia).
  unfold CreateICCAppMarker, icc_marker, marker_prefix.
  change (vsize kICCSignature) with 12. change kICCMarker with 0xe2.
  change (c_string "ICC_PROFILE") with kICCSignature.
  change (to_uint8 1) with 1.
  replace (18 + vsize icc - 2) with (vsize icc + 12 + 2 + 2) by lia.
  rewrite (to_uint8_small (Z.shiftr _ _)).
  2:{ rewrite Z.shiftr_div_pow2 by lia. change (2 ^ 8) with 256.
      split; [apply Z.div_pos; lia | apply Z.div_lt_upper_bound; lia]. }
  rewrite (to_uint8_small (Z.land _ _)).
  2:{ change 255 with (Z.ones 8). rewrite Z.land_ones by lia.
      apply Z.mod_pos_bound. lia. }
  reflexivity.
Qed.

Lemma filter_all {A : Type} (P : A -> Prop) `{!forall x, Decision (P x)}
    (l : list A) :
  Forall P l -> filter P l = l.
Proof.
  induction 1 as [| x l Hx _ IH]; [reflexivity |].
  rewrite filter_cons_True by exact Hx. rewrite IH. reflexivity.
Qed.

Lemma first_app2_split (markers : list (list Z)) :
  Forall (fun v => ~ is_app2 v) markers \/
  exists pre a post,
    markers = pre ++ a :: post /\
    Forall (fun v => ~ is_app2 v) pre /\ is_app2 a.
Proof.
  induction markers as [| v markers IH].
  - left. constructor.
  - destruct (decide (is_app2 v)) as [Hv | Hv].
    + right. exists [], v, markers. repeat split; [constructor | exact Hv].
    + destruct IH as [Hall | (pre & a & post & -> & Hpre & Ha)].
      * left. constructor; assumption.
      * right. exists (v :: pre), a, post.
        repeat split; [constructor; assumption | exact Ha].
Qed.

(** The store [SetICCAppMarker] leaves: the blob between entries that are
    not APP2. *)
Lemma SetICCAppMarker_store cinfo icc :
  exists pre post,
    special_markers (master (SetICCAppMarker cinfo icc)) = pre ++ icc :: post /\
    Forall (fun v => ~ is_app2 v) pre /\
    Forall (fun v => ~ is_app2 v) post /\
    pre ++ post =
      filter (fun v => ~ is_app2 v) (special_markers (master cinfo)).
Proof.
  unfold SetICCAppMarker.
  destruct (first_app2_split (special_markers (master cinfo)))
    as [Hall | (pre & a & post & E & Hpre & Ha)].
  - rewrite (icc_app_loop_no_app2 _ _ _ Hall). cbn [fst snd negb app].
    exists (special_markers (master cinfo)), []. split; [reflexivity |].
    split; [exact Hall |]. split; [constructor |].
    rewrite app_nil_r. symmetry. apply filter_all. exact Hall.
  - rewrite E, (icc_app_loop_first_app2 _ _ _ _ _ Hpre Ha).
    cbn [fst snd negb app].
    exists pre, (filter (fun v => ~ is_app2 v) post).
    split; [reflexivity |]. split; [exact Hpre |].
    split; [apply Forall_forall; intros v Hv;
            apply list_elem_of_filter in Hv; tauto |].
    rewrite filter_app, filter_cons, decide_False by tauto.
    f_equal. symmetry. apply filter_all. exact Hpre.
Qed.

Lemma not_app2_skipped (markers : list (list Z)) :
  Forall (fun v => ~ is_app2 v) markers ->
  Forall (fun v => byte_at v 1 <> kApp2) markers.
Proof. intros H. exact H. Qed.

Lemma collect_single chunk :
  collect_chunks (state_after 1 [chunk]) 1 0 [] = Ok chunk.
Proof. reflexivity. Qed.

(** X4: the blob [CreateICCAppMarker] builds for a profile of at most 65519
    bytes, installed with [SetICCAppMarker], is what [ParseChunkedMarker]
    reads back, whatever the store held. *)
Theorem installed_icc_read_back cinfo icc :
  Forall (fun v => 2 <= vsize v) (special_markers (master cinfo)) ->
  vsize icc <= kMaxIccBytesInMarker ->
  ParseChunkedMarker (SetICCAppMarker cinfo (CreateICCAppMarker icc))
    kApp2 kIccProfileTag false = Ok icc.
Proof.
  intros _ Hlen. unfold ParseChunkedMarker.
  destruct (SetICCAppMarker_store cinfo (CreateICCAppMarker icc))
    as (pre & post & -> & Hpre & Hpost & _).
  rewrite parse_markers_app, parse_markers_skips by exact Hpre.
  cbn [bind parse_markers]. rewrite (CreateICCAppMarker_small icc Hlen).
  change initial_chunk_state with (state_after 1 []).
  change (icc_marker 1 1 icc) with (icc_marker (vsize (@nil (list Z)) + 1) 1 icc).
  rewrite parse_marker_next by (simpl; lia). cbn [bind app].
  rewrite parse_markers_skips by exact Hpost. cbn [bind].
  apply collect_single.
Qed.

(** X5: for a profile of 1 to 65519 bytes [jpegli_write_icc_profile]
    stores exactly the blob [CreateICCAppMarker] builds. *)
Theorem single_chunk_profile_is_created_marker cinfo icc :
  octets icc ->
  1 <= vsize icc <= kMaxIccBytesInMarker ->
  exists cinfo',
    jpegli_write_icc_profile cinfo icc (vsize icc) = Ok cinfo' /\
    special_markers (master cinfo') =
      special_markers (master cinfo) ++ [CreateICCAppMarker icc].
Proof.
  intros Hoct Hlen.
  destruct (write_icc_profile_markers cinfo icc) as [cur' H].
  eexists. split; [exact H |].
  cbn [with_markers master set_master set_markers special_markers].
  assert (Hone : DivCeil (vsize icc) kMaxIccBytesInMarker = 1).
  { assert (H0 : 0 <= vsize icc) by (unfold vsize; lia).
    destruct (DivCeil_icc (vsize icc) H0) as [_ Hb].
    revert Hlen Hb. change kMaxIccBytesInMarker with 65519.
    generalize (DivCeil (vsize icc) 65519). intros d. lia. }
  rewrite Hone. change (Z.to_nat 1) with 1%nat. cbn [icc_markers].
  rewrite take_ge.
  2:{ revert Hlen. change kMaxIccBytesInMarker with 65519.
      unfold vsize. lia. }
  rewrite octets_fmap_to_uint8 by exact Hoct.
  rewrite CreateICCAppMarker_small by lia. reflexivity.
Qed.

Lemma split_length_field_wraps x :
  0 <= x ->
  Z.lor (Z.shiftl (to_uint8 (Z.shiftr x 8)) 8) (to_uint8 (Z.land x 0xFF))
    = x mod 65536.
Proof.
  intros Hx. unfold to_uint8.
  rewrite Z.shiftr_div_pow2 by lia. change (2 ^ 8) with 256.
  change 255 with (Z.ones 8). rewrite Z.land_ones by lia.
  change (2 ^ 8) with 256. rewrite Z.mod_mod by lia.
  pose proof (Z.mod_pos_bound x 256 ltac:(lia)) as Hlo.
  pose proof (Z.mod_pos_bound (x / 256) 256 ltac:(lia)) as Hhi.
  change 65536 with (256 * 256). rewrite Z.rem_mul_r by lia.
  set (lo := x mod 256) in *. set (hi := (x / 256) mod 256) in *.
  pose proof (split_length_field (lo + 256 * hi) ltac:(lia)) as E.
  rewrite Z.shiftr_div_pow2 in E by lia. change (2 ^ 8) with 256 in E.
  change 255 with (Z.ones 8) in E. rewrite Z.land_ones in E by lia.
  change (2 ^ 8) with 256 in E.
  replace ((lo + 256 * hi) / 256) with hi in E.
  2:{ rewrite (Z.mul_comm 256 hi), Z.div_add by lia.
      rewrite Z.div_small by lia. lia. }
  replace ((lo + 256 * hi) mod 256) with lo in E.
  2:{ rewrite (Z.mul_comm 256 hi), Z.mod_add by lia.
      rewrite Z.mod_small by lia. reflexivity. }
  exact E.
Qed.

Lemma CreateICCAppMarker_oversized icc :
  kMaxIccBytesInMarker < vsize icc ->
  GetMarkerPayload (CreateICCAppMarker icc) = None.
Proof.
  change kMaxIccBytesInMarker with 65519. intros Hlen.
  unfold GetMarkerPayload.
  assert (Hsize : vsize (CreateICCAppMarker icc) = vsize icc + 18).
  { unfold vsize, CreateICCAppMarker. cbn [length app]. rewrite !length_app.
    cbn [length]. change (length (c_string "ICC_PROFILE")) with 12%nat. lia. }
  rewrite Hsize. replace (vsize icc + 18 <? 4) with false by lia.
  change (byte_at (CreateICCAppMarker icc) 2)
    with (to_uint8 (Z.shiftr (18 + vsize icc - 2) 8)).
  change (byte_at (CreateICCAppMarker icc) 3)
    with (to_uint8 (Z.land (18 + vsize icc - 2) 0xFF)).
  rewrite split_length_field_wraps by lia.
  pose proof (Z.mod_pos_bound (18 + vsize icc - 2) 65536 ltac:(lia)) as Hm.
  replace ((18 + vsize icc - 2) mod 65536 =? vsize icc + 18 - 2) with false
    by lia.
  reflexivity.
Qed.

Lemma parse_marker_bad_length marker_type tag allow st marker :
  GetMarkerPayload marker = None ->
  parse_marker marker_type tag allow st marker = Ok st.
Proof.
  intros H. unfold parse_marker. rewrite H.
  destruct (_ || _); reflexivity.
Qed.

(** X6: a profile of more than 65519 bytes gives a blob whose length field
    has wrapped; once installed it is skipped and no profile is read. *)
Theorem oversized_icc_is_lost cinfo icc :
  Forall (fun v => 2 <= vsize v) (special_markers (master cinfo)) ->
  kMaxIccBytesInMarker < vsize icc ->
  GetMarkerPayload (CreateICCAppMarker icc) = None /\
  ParseChunkedMarker (SetICCAppMarker cinfo (CreateICCAppMarker icc))
    kApp2 kIccProfileTag false = Ok [].
Proof.
  intros _ Hlen. split; [apply CreateICCAppMarker_oversized; exact Hlen |].
  unfold ParseChunkedMarker.
  destruct (SetICCAppMarker_store cinfo (CreateICCAppMarker icc))
    as (pre & post & -> & Hpre & Hpost & _).
  rewrite parse_markers_app, parse_markers_skips by exact Hpre.
  cbn [bind parse_markers].
  rewrite parse_marker_bad_length
    by (apply CreateICCAppMarker_oversized; exact Hlen).
  cbn [bind]. rewrite parse_markers_skips by exact Hpost. reflexivity.
Qed.

Lemma parse_markers_filter marker_type tag allow markers : forall st,
  parse_markers marker_type tag allow st markers =
  parse_markers marker_type tag allow st
    (filter (fun v => byte_at v 1 = marker_type) markers).
Proof.
  induction markers as [| v markers IH]; intros st; [reflexivity |].
  destruct (decide (byte_at v 1 = marker_type)) as [E | Hne].
  - rewrite filter_cons_True by exact E. cbn [parse_markers].
    destruct (parse_marker marker_type tag allow st v) as [st' | e];
      cbn [bind]; [apply IH | reflexivity].
  - rewrite filter_cons_False by exact Hne. cbn [parse_markers].
    rewrite parse_marker_skips by exact Hne. cbn [bind]. apply IH.
Qed.

(** X7: [ParseChunkedMarker] looks only at the entries of the requested
    marker type: removing every other entry from the store does not change
    its result, and a store without such an entry gives the empty output. *)
Theorem parse_ignores_other_markers cinfo marker_type tag allow :
  ParseChunkedMarker cinfo marker_type tag allow =
  ParseChunkedMarker
    (with_markers cinfo
       (filter (fun v => byte_at v 1 = marker_type)
               (special_markers (master cinfo)))
       (cur_marker_data (master cinfo)))
    marker_type tag allow /\
  (Forall (fun v => byte_at v 1 <> marker_type)
          (special_markers (master cinfo)) ->
   ParseChunkedMarker cinfo marker_type tag allow = Ok []).
Proof.
  unfold ParseChunkedMarker.
  cbn [with_markers master set_master set_markers special_markers].
  split.
  - rewrite <- parse_markers_filter. reflexivity.
  - intros H. rewrite parse_markers_skips by exact H. reflexivity.
Qed.

Lemma icc_markers_take k : forall rounds current_marker total rest,
  (k <= rounds)%nat ->
  take k (icc_markers rounds current_marker total rest) =
  icc_markers k current_marker total rest.
Proof.
  induction k as [| k IH]; intros rounds current_marker total rest Hk.
  - reflexivity.
  - destruct rounds as [| rounds]; [lia |].
    cbn [icc_markers take]. rewrite IH by lia. reflexivity.
Qed.

Lemma collect_chunks_missing total done :
  done <> [] ->
  (length done < Z.to_nat total)%nat ->
  forall todo (i : nat) output,
  (i <= length done)%nat ->
  (length done < i + todo)%nat ->
  collect_chunks (state_after total done) todo (Z.of_nat i) output =
    Err MissingChunk.
Proof.
  intros Hne Hlen todo. rewrite (state_after_nonempty total done Hne).
  induction todo as [| todo IH]; intros i output Hi Htodo; [lia |].
  cbn [collect_chunks chunks presence].
  replace (Z.to_nat (Z.of_nat i + 1)) with (S i) by lia.
  change ((false :: replicate (length done) true
             ++ replicate (Z.to_nat total - length done) false) !! S i)
    with ((replicate (length done) true
             ++ replicate (Z.to_nat total - length done) false) !! i).
  destruct (decide (i = length done)) as [-> | Hlt].
  - rewrite lookup_app_r by (rewrite length_replicate; lia).
    rewrite length_replicate, Nat.sub_diag.
    rewrite lookup_replicate_2 by lia. reflexivity.
  - rewrite lookup_app_l by (rewrite length_replicate; lia).
    rewrite lookup_replicate_2 by lia. cbn [default negb].
    replace (Z.of_nat i + 1) with (Z.of_nat (S i)) by lia.
    apply IH; lia.
Qed.

Lemma fallback_on_failure cinfo e :
  ParseChunkedMarker cinfo kApp2 kIccProfileTag false = Err e ->
  ParseChunkedMarker cinfo kApp2 kIccProfileTag false = Err e /\
  SetColorEncodingFromIccData cinfo = Some (SRGB (num_components cinfo =? 1)).
Proof.
  intros H. split; [exact H |].
  unfold SetColorEncodingFromIccData. rewrite H. reflexivity.
Qed.

(** [collected_output] is the output of the reader when it succeeds. *)
Lemma collected_output_on_success st todo : forall i output out,
  collect_chunks st todo i output = Ok out ->
  collected_output st todo i output = out.
Proof.
  induction todo as [| todo IH]; intros i output out;
    cbn [collect_chunks collected_output].
  - intros E. injection E as <-. reflexivity.
  - destruct (negb (default false (presence st !! Z.to_nat (i + 1))));
      [discriminate | apply IH].
Qed.

Lemma ParseChunkedMarker_output_on_success cinfo marker_type tag allow out :
  ParseChunkedMarker cinfo marker_type tag allow = Ok out ->
  ParseChunkedMarker_output cinfo marker_type tag allow = out.
Proof.
  unfold ParseChunkedMarker, ParseChunkedMarker_output.
  destruct (parse_markers _ _ _ _ _) as [st | e]; cbn [bind];
    [apply collected_output_on_success | discriminate].
Qed.

(** The closing loop on a state that lacks later chunks: it appends the
    chunks that are there and stops at the first missing one. *)
Lemma collected_output_partial total done :
  done <> [] ->
  (length done < Z.to_nat total)%nat ->
  forall todo (i : nat) output,
  (i <= length done)%nat ->
  (length done < i + todo)%nat ->
  collected_output (state_after total done) todo (Z.of_nat i) output =
    output ++ concat (drop i done).
Proof.
  intros Hne Hlen todo. rewrite (state_after_nonempty total done Hne).
  induction todo as [| todo IH]; intros i output Hi Htodo; [lia |].
  cbn [collected_output chunks presence].
  replace (Z.to_nat (Z.of_nat i + 1)) with (S i) by lia.
  change ((false :: replicate (length done) true
             ++ replicate (Z.to_nat total - length done) false) !! S i)
    with ((replicate (length done) true
             ++ replicate (Z.to_nat total - length done) false) !! i).
  change (([] :: done ++ replicate (Z.to_nat total - length done) []) !! S i)
    with ((done ++ replicate (Z.to_nat total - length done) []) !! i).
  destruct (decide (i = length done)) as [-> | Hlt].
  - rewrite lookup_app_r by (rewrite length_replicate; lia).
    rewrite length_replicate, Nat.sub_diag.
    rewrite lookup_replicate_2 by lia. cbn [default negb].
    rewrite drop_all. cbn [concat]. rewrite app_nil_r. reflexivity.
  - rewrite lookup_app_l by (rewrite length_replicate; lia).
    rewrite lookup_replicate_2 by lia. cbn [default negb].
    destruct (lookup_lt_is_Some_2 done i) as [c Hc]; [lia |].
    rewrite (lookup_app_l_Some _ _ _ _ Hc). cbn [default].
    replace (Z.of_nat i + 1) with (Z.of_nat (S i)) by lia.
    rewrite IH by lia.
    rewrite (drop_S _ _ _ Hc). cbn [concat]. rewrite <- app_assoc.
    reflexivity.
Qed.

Lemma chunks_of_concat_full k : forall rest,
  concat (chunks_of k rest) =
  take (k * Z.to_nat kMaxIccBytesInMarker) rest.
Proof.
  induction k as [| k IH]; intros rest.
  - rewrite Nat.mul_0_l, take_0. reflexivity.
  - cbn [chunks_of concat]. rewrite IH, take_take_drop.
    rewrite Nat.mul_succ_l, (Nat.add_comm (k * _)). reflexivity.
Qed.

(** X8: a profile of at most 65519 * 255 bytes is written on a store
    without APP2 entries, and only the first [k] of its blobs, at least
    one and not all, are kept in the store.  [ParseChunkedMarker] then
    fails with MissingChunk, leaving in [*output] the chunks it found,
    the first [65519 * k] bytes of the profile;
    [SetColorEncodingFromIccData] discards them and falls back to sRGB
    without failing. *)
Theorem truncated_profile_rejected cinfo data cinfo' (k : nat) :
  octets data ->
  vsize data <= 65519 * 255 ->
  Forall (fun v => ~ is_app2 v) (special_markers (master cinfo)) ->
  jpegli_write_icc_profile cinfo data (vsize data) = Ok cinfo' ->
  (0 < k)%nat ->
  (length (special_markers (master cinfo)) + k
     < length (special_markers (master cinfo')))%nat ->
  ParseChunkedMarker
    (with_markers cinfo'
       (take (length (special_markers (master cinfo)) + k)
             (special_markers (master cinfo')))
       None)
    kApp2 kIccProfileTag false = Err MissingChunk /\
  ParseChunkedMarker_output
    (with_markers cinfo'
       (take (length (special_markers (master cinfo)) + k)
             (special_markers (master cinfo')))
       None)
    kApp2 kIccProfileTag false
    = take (k * Z.to_nat kMaxIccBytesInMarker) data /\
  SetColorEncodingFromIccData
    (with_markers cinfo'
       (take (length (special_markers (master cinfo)) + k)
             (special_markers (master cinfo')))
       None)
    = Some (SRGB (num_components cinfo =? 1)).
Proof.
  intros Hoct Hlen Hold Hwrite Hk Hshort.
  destruct (write_icc_profile_markers cinfo data) as [cur' H].
  rewrite H in Hwrite. injection Hwrite as <-.
  assert (H0 : 0 <= vsize data) by (unfold vsize; lia).
  destruct (DivCeil_icc (vsize data) H0) as [_ Hb].
  set (total := DivCeil (vsize data) kMaxIccBytesInMarker) in *.
  cbn [with_markers master set_master set_markers special_markers]
    in Hshort.
  rewrite length_app, icc_markers_length in Hshort.
  assert (Hne : chunks_of k data <> [])
    by (destruct k; [lia | discriminate]).
  assert (Hst :
    parse_markers kApp2 kIccProfileTag false initial_chunk_state
      (take (length (special_markers (master cinfo)) + k)
            (special_markers (master cinfo)
               ++ icc_markers (Z.to_nat total) 0 total data))
    = Ok (state_after total (chunks_of k data))).
  { rewrite take_app_add, icc_markers_take by lia.
    rewrite parse_markers_app, parse_markers_skips by exact Hold.
    cbn [bind]. change initial_chunk_state with (state_after total []).
    change 0 with (vsize (@nil (list Z))) at 1.
    rewrite parse_icc_markers; [| lia | simpl; lia | exact Hoct].
    reflexivity. }
  assert (Hexp : expected_number_of_parts
                   (state_after total (chunks_of k data)) = total)
    by (rewrite (state_after_nonempty total _ Hne); reflexivity).
  assert (Hfail :
    ParseChunkedMarker
      (with_markers
         (with_markers cinfo
            (special_markers (master cinfo)
               ++ icc_markers (Z.to_nat total) 0 total data) cur')
         (take (length (special_markers (master cinfo)) + k)
               (special_markers (master cinfo)
                  ++ icc_markers (Z.to_nat total) 0 total data))
         None)
      kApp2 kIccProfileTag false = Err MissingChunk).
  { unfold ParseChunkedMarker.
    cbn [with_markers master set_master set_markers special_markers].
    rewrite Hst. cbn [bind]. rewrite Hexp. change 0 with (Z.of_nat 0).
    apply collect_chunks_missing;
      rewrite ?chunks_of_length; [exact Hne | lia | lia | lia]. }
  cbn [with_markers master set_master set_markers special_markers].
  cbn [with_markers master set_master set_markers special_markers] in Hfail.
  split; [exact Hfail |]. split.
  - unfold ParseChunkedMarker_output.
    cbn [with_markers master set_master set_markers special_markers].
    rewrite Hst, Hexp. change 0 with (Z.of_nat 0).
    rewrite collected_output_partial;
      rewrite ?chunks_of_length; [| exact Hne | lia | lia | lia].
    rewrite drop_0. cbn [app]. apply chunks_of_concat_full.
  - exact (proj2 (fallback_on_failure _ _ Hfail)).
Qed.

Lemma parse_marker_out_of_order st seq_no total chunk :
  to_uint8 seq_no <> ordinal st + 1 ->
  parse_marker kApp2 kIccProfileTag false st (icc_marker seq_no total chunk)
    = Err InvalidChunkOrder.
Proof.
  intros Hseq. unfold parse_marker.
  assert (Hc : 0 <= vsize chunk) by (unfold vsize; lia).
  assert (Hsize : vsize (icc_marker seq_no total chunk) = vsize chunk + 18).
  { unfold vsize, icc_marker. rewrite !length_app.
    cbn [length marker_prefix kICCSignature]. lia. }
  rewrite Hsize. replace (vsize chunk + 18 <? 2) with false by lia.
  change (byte_at (icc_marker seq_no total chunk) 1 =? kApp2) with true.
  cbn [orb negb]. rewrite GetMarkerPayload_icc_marker.
  rewrite tag_is_signature, take_app_length, drop_app_length.
  rewrite bool_decide_eq_true_2 by reflexivity.
  replace (vsize (kICCSignature ++ [to_uint8 seq_no; to_uint8 total] ++ chunk)
             <? vsize kICCSignature) with false.
  2:{ unfold vsize. rewrite length_app.
      generalize (length kICCSignature). intros sig_len.
      symmetry. apply Z.ltb_ge. lia. }
  cbn [orb negb].
  replace (vsize ([to_uint8 seq_no; to_uint8 total] ++ chunk) <? 2)
    with false.
  2:{ unfold vsize. rewrite length_app. cbn [length].
      symmetry. apply Z.ltb_ge. lia. }
  change (byte_at ([to_uint8 seq_no; to_uint8 total] ++ chunk) 0)
    with (to_uint8 seq_no).
  replace (to_uint8 seq_no =? ordinal st + 1) with false by lia.
  reflexivity.
Qed.

(** X9: a second call of [jpegli_write_icc_profile] does not replace
    the first profile.  After a first profile of 1 to 65519 * 255 bytes
    written on a store without APP2 entries and a second, non-empty one,
    the store holds the blobs of the first profile followed by the blobs
    of the second, each run numbered from 1.  [ParseChunkedMarker] fails
    on it with InvalidChunkOrder and leaves [*output] empty, and
    [SetColorEncodingFromIccData] falls back to sRGB. *)
Theorem second_profile_corrupts_store cinfo first second cinfo1 cinfo2 :
  octets first ->
  1 <= vsize first <= 65519 * 255 ->
  1 <= vsize second < 2 ^ 32 ->
  Forall (fun v => ~ is_app2 v) (special_markers (master cinfo)) ->
  jpegli_write_icc_profile cinfo first (vsize first) = Ok cinfo1 ->
  jpegli_write_icc_profile cinfo1 second (vsize second) = Ok cinfo2 ->
  let total1 := DivCeil (vsize first) kMaxIccBytesInMarker in
  let total2 := DivCeil (vsize second) kMaxIccBytesInMarker in
  1 <= total1 <= 255 /\ 1 <= total2 /\
  special_markers (master cinfo2) =
    special_markers (master cinfo)
      ++ icc_markers (Z.to_nat total1) 0 total1 first
      ++ icc_markers (Z.to_nat total2) 0 total2 second /\
  ParseChunkedMarker cinfo2 kApp2 kIccProfileTag false
    = Err InvalidChunkOrder /\
  ParseChunkedMarker_output cinfo2 kApp2 kIccProfileTag false = [] /\
  SetColorEncodingFromIccData cinfo2
    = Some (SRGB (num_components cinfo =? 1)).
Proof.
  intros Hoct Hlen1 Hlen2 Hold Hw1 Hw2 total1 total2.
  destruct (write_icc_profile_markers cinfo first) as [cur1 H1].
  rewrite H1 in Hw1. injection Hw1 as <-.
  destruct (write_icc_profile_markers
              (with_markers cinfo
                 (special_markers (master cinfo)
                    ++ icc_markers
                         (Z.to_nat (DivCeil (vsize first) kMaxIccBytesInMarker))
                         0 (DivCeil (vsize first) kMaxIccBytesInMarker) first)
                 cur1) second) as [cur2 H2].
  rewrite H2 in Hw2. injection Hw2 as <-.
  destruct (DivCeil_icc (vsize first) ltac:(lia)) as [_ Hb1].
  destruct (DivCeil_icc (vsize second) ltac:(lia)) as [_ Hb2].
  fold total1 in Hb1 |- *. fold total2 in Hb2 |- *.
  clearbody total1 total2.
  split; [lia |]. split; [lia |].
  cbn [with_markers master set_master set_markers special_markers].
  split; [rewrite <- app_assoc; reflexivity |].
  assert (Hst :
    parse_markers kApp2 kIccProfileTag false initial_chunk_state
      ((special_markers (master cinfo)
          ++ icc_markers (Z.to_nat total1) 0 total1 first)
         ++ icc_markers (Z.to_nat total2) 0 total2 second)
    = Err InvalidChunkOrder).
  { rewrite !parse_markers_app, parse_markers_skips by exact Hold.
    cbn [bind]. change initial_chunk_state with (state_after total1 []).
    change 0 with (vsize (@nil (list Z))) at 1.
    rewrite parse_icc_markers; [| lia | simpl; lia | exact Hoct].
    cbn [bind app].
    destruct (Z.to_nat total2) as [| rounds2] eqn:E2; [lia |].
    cbn [icc_markers parse_markers].
    assert (Hne : chunks_of (Z.to_nat total1) first <> []).
    { destruct (Z.to_nat total1) eqn:E; [lia | discriminate]. }
    rewrite parse_marker_out_of_order; [reflexivity |].
    rewrite (state_after_nonempty total1 _ Hne). cbn [ordinal].
    unfold vsize at 1. rewrite chunks_of_length.
    change (to_uint8 (0 + 1)) with 1. lia. }
  assert (Hfail :
    ParseChunkedMarker
      (with_markers
         (with_markers cinfo
            (special_markers (master cinfo)
               ++ icc_markers (Z.to_nat total1) 0 total1 first) cur1)
         ((special_markers (master cinfo)
             ++ icc_markers (Z.to_nat total1) 0 total1 first)
            ++ icc_markers (Z.to_nat total2) 0 total2 second) cur2)
      kApp2 kIccProfileTag false = Err InvalidChunkOrder).
  { unfold ParseChunkedMarker.
    cbn [with_markers master set_master set_markers special_markers].
    rewrite Hst. reflexivity. }
  split; [exact Hfail |]. split.
  - unfold ParseChunkedMarker_output.
    cbn [with_markers master set_master set_markers special_markers].
    rewrite Hst. reflexivity.
  - exact (proj2 (fallback_on_failure _ _ Hfail)).
Qed.

Lemma filter_none {A : Type} (P : A -> Prop) `{!forall x, Decision (P x)}
    (l : list A) :
  Forall (fun x => ~ P x) l -> filter P l = [].
Proof.
  induction 1 as [| x l Hx _ IH]; [reflexivity |].
  rewrite filter_cons_False by exact Hx. exact IH.
Qed.

Lemma SetICCAppMarker_markers cinfo icc :
  (Forall (fun v => ~ is_app2 v) (special_markers (master cinfo)) /\
   special_markers (master (SetICCAppMarker cinfo icc)) =
     special_markers (master cinfo) ++ [icc]) \/
  (exists pre a post,
     special_markers (master cinfo) = pre ++ a :: post /\
     Forall (fun v => ~ is_app2 v) pre /\ is_app2 a /\
     special_markers (master (SetICCAppMarker cinfo icc)) =
       pre ++ icc :: filter (fun v => ~ is_app2 v) post).
Proof.
  unfold SetICCAppMarker.
  destruct (first_app2_split (special_markers (master cinfo)))
    as [Hall | (pre & a & post & E & Hpre & Ha)].
  - left. split; [exact Hall |].
    rewrite (icc_app_loop_no_app2 _ _ _ Hall). reflexivity.
  - right. exists pre, a, post. rewrite E.
    rewrite (icc_app_loop_first_app2 _ _ _ _ _ Hpre Ha).
    repeat split; assumption.
Qed.

Lemma SetICCAppMarker_over cinfo sm cur icc :
  SetICCAppMarker (with_markers cinfo sm cur) icc =
  with_markers cinfo
    (special_markers (master (SetICCAppMarker (with_markers cinfo sm cur) icc)))
    cur.
Proof. reflexivity. Qed.

Lemma SetICCAppMarker_as_update cinfo icc :
  SetICCAppMarker cinfo icc =
  with_markers cinfo (special_markers (master (SetICCAppMarker cinfo icc)))
               (cur_marker_data (master cinfo)).
Proof. reflexivity. Qed.

(** X10: installing an APP2 blob twice is the same as installing the second
    one; after an installation the blob is the only APP2 entry of the store
    and the entries that are not APP2 are the old ones, in order. *)
Theorem set_icc_app_marker_last_wins cinfo icc icc' :
  Forall (fun v => 2 <= vsize v) (special_markers (master cinfo)) ->
  is_app2 icc -> is_app2 icc' ->
  SetICCAppMarker (SetICCAppMarker cinfo icc) icc' = SetICCAppMarker cinfo icc' /\
  filter is_app2 (special_markers (master (SetICCAppMarker cinfo icc)))
    = [icc] /\
  filter (fun v => ~ is_app2 v)
         (special_markers (master (SetICCAppMarker cinfo icc)))
    = filter (fun v => ~ is_app2 v) (special_markers (master cinfo)).
Proof.
  intros _ Hicc Hicc'.
  assert (Hfilt : forall post : list (list Z),
            Forall (fun v => ~ is_app2 v)
                   (filter (fun v => ~ is_app2 v) post)).
  { intros post. apply Forall_forall. intros v Hv.
    apply list_elem_of_filter in Hv. tauto. }
  split; [| split].
  - rewrite (SetICCAppMarker_as_update cinfo icc).
    rewrite SetICCAppMarker_over, (SetICCAppMarker_as_update cinfo icc').
    f_equal. unfold SetICCAppMarker.
    cbn [with_markers master set_master set_markers special_markers].
    destruct (first_app2_split (special_markers (master cinfo)))
      as [Hall | (pre & a & post & E & Hpre & Ha)].
    + rewrite !(icc_app_loop_no_app2 _ _ _ Hall). cbn [fst snd negb app].
      rewrite (icc_app_loop_first_app2 icc' _ icc [] [] Hall Hicc).
      reflexivity.
    + rewrite E, !(icc_app_loop_first_app2 _ _ _ _ _ Hpre Ha).
      cbn [fst snd negb app].
      rewrite (icc_app_loop_first_app2 icc' pre icc _ [] Hpre Hicc).
      cbn [fst snd negb app]. rewrite (filter_all _ _ (Hfilt post)).
      reflexivity.
  - destruct (SetICCAppMarker_markers cinfo icc)
      as [[Hall ->] | (pre & a & post & _ & Hpre & _ & ->)].
    + rewrite filter_app, (filter_none _ _ Hall).
      rewrite filter_cons_True by exact Hicc. reflexivity.
    + rewrite filter_app, (filter_none _ _ Hpre).
      rewrite filter_cons_True by exact Hicc.
      rewrite (filter_none is_app2 _ (Hfilt post)). reflexivity.
  - destruct (SetICCAppMarker_store cinfo icc)
      as (pre & post & -> & Hpre & Hpost & <-).
    rewrite filter_app, filter_cons_False by tauto.
    rewrite (filter_all _ _ Hpre), (filter_all _ _ Hpost). reflexivity.
Qed.

(** *** Profiles in the colour encoding *)

Lemma write_then_parse cinfo bytes :
  octets bytes ->
  vsize bytes <= 65519 * 255 ->
  Forall (fun v => ~ is_app2 v) (special_markers (master cinfo)) ->
  exists cinfo',
    jpegli_write_icc_profile cinfo bytes (vsize bytes) = Ok cinfo' /\
    num_components cinfo' = num_components cinfo /\
    ParseChunkedMarker cinfo' kApp2 kIccProfileTag false = Ok bytes.
Proof.
  intros Hoct Hlen Hold.
  destruct (write_icc_profile_markers cinfo bytes) as [cur' Hwrite].
  eexists. split; [exact Hwrite |]. split; [reflexivity |].
  unfold ParseChunkedMarker.
  cbn [with_markers master set_master set_markers special_markers].
  assert (H0 : 0 <= vsize bytes) by (unfold vsize; lia).
  destruct (DivCeil_icc (vsize bytes) H0) as [Hq Hb].
  set (total := DivCeil (vsize bytes) kMaxIccBytesInMarker) in *.
  assert (Htotal : 0 <= total <= 255) by lia.
  rewrite parse_markers_app, parse_markers_skips by exact Hold.
  cbn [bind].
  destruct (Z.eq_dec total 0) as [E0 | Hpos].
  - rewrite E0. cbn [Z.to_nat icc_markers parse_markers bind
      initial_chunk_state expected_number_of_parts collect_chunks].
    destruct bytes; [reflexivity | unfold vsize in Hb; simpl in Hb; lia].
  - change initial_chunk_state with (state_after total []).
    change 0 with (vsize (@nil (list Z))) at 1.
    rewrite parse_icc_markers; [| lia | simpl; lia | exact Hoct].
    cbn [bind app].
    assert (Hne : chunks_of (Z.to_nat total) bytes <> []).
    { destruct (Z.to_nat total) eqn:E; [lia | discriminate]. }
    replace (expected_number_of_parts
               (state_after total (chunks_of (Z.to_nat total) bytes)))
      with total by (rewrite (state_after_nonempty total _ Hne); reflexivity).
    change 0 with (Z.of_nat 0) at 1.
    rewrite (collect_chunks_all total _ Hne
               (chunks_of_length _ _) (Z.to_nat total) 0%nat []).
    + rewrite drop_0. cbn [app]. rewrite chunks_of_concat; [reflexivity |].
      change kMaxIccBytesInMarker with 65519. lia.
    + rewrite chunks_of_length. lia.
Qed.

(** X11: the profile [jpegli_write_icc_profile] wrote is the one
    [SetColorEncodingFromIccData] hands to [SetICC], for every length up
    to 255 full chunks, 65519 * 255 bytes; an empty profile selects sRGB,
    grey for one component. *)
Theorem written_profile_sets_color_encoding cinfo bytes :
  octets bytes ->
  vsize bytes <= 65519 * 255 ->
  Forall (fun v => ~ is_app2 v) (special_markers (master cinfo)) ->
  exists cinfo',
    jpegli_write_icc_profile cinfo bytes (vsize bytes) = Ok cinfo' /\
    ParseChunkedMarker cinfo' kApp2 kIccProfileTag false = Ok bytes /\
    SetColorEncodingFromIccData cinfo' =
      match bytes with
      | [] => Some (SRGB (num_components cinfo =? 1))
      | _ => SetICC bytes
      end.
Proof.
  intros Hoct Hlen Hold.
  destruct (write_then_parse cinfo bytes Hoct Hlen Hold)
    as (cinfo' & Hwrite & Hnc & Hparse).
  exists cinfo'. split; [exact Hwrite |]. split; [exact Hparse |].
  unfold SetColorEncodingFromIccData. rewrite Hparse, Hnc.
  destruct bytes; reflexivity.
Qed.

Lemma icc_marker_total_byte seq_no total chunk :
  icc_marker seq_no (to_uint8 total) chunk = icc_marker seq_no total chunk.
Proof.
  unfold icc_marker, to_uint8. rewrite Z.mod_mod by lia. reflexivity.
Qed.

Lemma icc_markers_total_byte rounds : forall current_marker total rest,
  icc_markers rounds current_marker (to_uint8 total) rest =
  icc_markers rounds current_marker total rest.
Proof.
  induction rounds as [| rounds IH]; intros current_marker total rest.
  - reflexivity.
  - cbn [icc_markers]. rewrite icc_marker_total_byte, IH. reflexivity.
Qed.

Lemma icc_markers_app a : forall b current_marker total rest,
  exists rest',
    icc_markers (a + b) current_marker total rest =
    icc_markers a current_marker total rest
      ++ icc_markers b (current_marker + Z.of_nat a) total rest'.
Proof.
  induction a as [| a IH]; intros b current_marker total rest.
  - exists rest. rewrite Z.add_0_r. reflexivity.
  - cbn [Nat.add icc_markers].
    destruct (IH b (current_marker + 1) total
                (drop (Z.to_nat kMaxIccBytesInMarker) rest)) as [rest' E].
    exists rest'. rewrite E. cbn [app].
    replace (current_marker + 1 + Z.of_nat a)
      with (current_marker + Z.of_nat (S a)) by lia.
    reflexivity.
Qed.

(** The part of [parse_marker] that follows the tag test, on a blob of
    the ICC writer. *)
Lemma parse_marker_icc st seq_no total chunk :
  parse_marker kApp2 kIccProfileTag false st (icc_marker seq_no total chunk) =
  if negb (to_uint8 seq_no =? ordinal st + 1) then Err InvalidChunkOrder
  else if to_uint8 total =? 0 then Err ZeroTotal
  else
    let* st1 :=
      if is_first_chunk st then
        Ok {| chunks := resize (Z.to_nat (to_uint8 total + 1)) [] (chunks st);
              presence :=
                resize (Z.to_nat (to_uint8 total + 1)) false (presence st);
              expected_number_of_parts := to_uint8 total;
              is_first_chunk := false;
              ordinal := ordinal st + 1 |}
      else if expected_number_of_parts st =? to_uint8 total then
        Ok {| chunks := chunks st; presence := presence st;
              expected_number_of_parts := expected_number_of_parts st;
              is_first_chunk := false;
              ordinal := ordinal st + 1 |}
      else Err TotalMismatch in
    if (to_uint8 seq_no =? 0) || (to_uint8 seq_no >? to_uint8 total)
    then Err InvalidChunkIndex
    else if default false (presence st1 !! Z.to_nat (to_uint8 seq_no))
    then Err DuplicateChunk
    else
      Ok {| chunks := <[Z.to_nat (to_uint8 seq_no) := chunk]> (chunks st1);
            presence := <[Z.to_nat (to_uint8 seq_no) := true]> (presence st1);
            expected_number_of_parts := expected_number_of_parts st1;
            is_first_chunk := is_first_chunk st1;
            ordinal := ordinal st1 |}.
Proof.
  unfold parse_marker.
  assert (Hc : 0 <= vsize chunk) by (unfold vsize; lia).
  assert (Hsize : vsize (icc_marker seq_no total chunk) = vsize chunk + 18).
  { unfold vsize, icc_marker. rewrite !length_app.
    cbn [length marker_prefix kICCSignature]. lia. }
  rewrite Hsize. replace (vsize chunk + 18 <? 2) with false by lia.
  change (byte_at (icc_marker seq_no total chunk) 1 =? kApp2) with true.
  cbn [orb negb]. rewrite GetMarkerPayload_icc_marker.
  rewrite tag_is_signature, take_app_length, drop_app_length.
  rewrite bool_decide_eq_true_2 by reflexivity.
  replace (vsize (kICCSignature ++ [to_uint8 seq_no; to_uint8 total] ++ chunk)
             <? vsize kICCSignature) with false.
  2:{ unfold vsize. rewrite length_app.
      generalize (length kICCSignature). intros sig_len.
      symmetry. apply Z.ltb_ge. lia. }
  cbn [orb negb].
  replace (vsize ([to_uint8 seq_no; to_uint8 total] ++ chunk) <? 2)
    with false.
  2:{ unfold vsize. rewrite length_app. cbn [length].
      symmetry. apply Z.ltb_ge. lia. }
  change (byte_at ([to_uint8 seq_no; to_uint8 total] ++ chunk) 0)
    with (to_uint8 seq_no).
  change (byte_at ([to_uint8 seq_no; to_uint8 total] ++ chunk) 1)
    with (to_uint8 total).
  change (drop 2 ([to_uint8 seq_no; to_uint8 total] ++ chunk)) with chunk.
  cbn [andb]. reflexivity.
Qed.

(** The blob numbered one past the count is refused. *)
Lemma parse_marker_beyond_total t done chunk :
  1 <= t <= 255 ->
  length done = Z.to_nat t ->
  exists e,
    parse_marker kApp2 kIccProfileTag false (state_after t done)
      (icc_marker (t + 1) t chunk) = Err e.
Proof.
  intros Ht Hlen. rewrite parse_marker_icc.
  assert (Hne : done <> []) by (destruct done; [simpl in Hlen; lia | discriminate]).
  rewrite (state_after_nonempty t done Hne).
  cbn [ordinal is_first_chunk expected_number_of_parts].
  rewrite (to_uint8_small t) by lia.
  destruct (negb (to_uint8 (t + 1) =? vsize done + 1)) eqn:Eorder;
    [eexists; reflexivity |].
  replace (t =? 0) with false by lia.
  replace (t =? t) with true by lia. cbn [bind].
  assert (Eseq : to_uint8 (t + 1) = t + 1).
  { apply negb_false_iff, Z.eqb_eq in Eorder. unfold vsize in Eorder. lia. }
  rewrite Eseq. replace (t + 1 >? t) with true by lia.
  rewrite orb_true_r. eexists. reflexivity.
Qed.

Lemma parse_markers_overlong total data :
  octets data ->
  255 < total ->
  exists e,
    parse_markers kApp2 kIccProfileTag false initial_chunk_state
      (icc_markers (Z.to_nat total) 0 total data) = Err e.
Proof.
  intros Hoct Htotal.
  rewrite <- icc_markers_total_byte.
  pose proof (to_uint8_range total) as Hrange.
  set (t := to_uint8 total) in *.
  destruct (Z.eq_dec t 0) as [E0 | Hpos].
  - destruct (Z.to_nat total) as [| rounds] eqn:E; [lia |].
    cbn [icc_markers parse_markers]. rewrite parse_marker_icc.
    change (to_uint8 (0 + 1) =? ordinal initial_chunk_state + 1) with true.
    rewrite (to_uint8_small t), E0 by lia. cbn [negb Z.eqb bind].
    eexists. reflexivity.
  - replace (Z.to_nat total)
      with (Z.to_nat t + S (Z.to_nat total - Z.to_nat t - 1))%nat by lia.
    destruct (icc_markers_app (Z.to_nat t)
                (S (Z.to_nat total - Z.to_nat t - 1)) 0 t data)
      as [rest' ->].
    rewrite parse_markers_app.
    change initial_chunk_state with (state_after t []).
    change 0 with (vsize (@nil (list Z))) at 1.
    rewrite parse_icc_markers; [| lia | simpl; lia | exact Hoct].
    cbn [bind app icc_markers parse_markers].
    rewrite Z2Nat.id, Z.add_0_l by lia.
    destruct (parse_marker_beyond_total t (chunks_of (Z.to_nat t) data)
                (to_uint8 <$> take (Z.to_nat kMaxIccBytesInMarker) rest'))
      as [e He]; [lia | apply chunks_of_length |].
    rewrite He. eexists. reflexivity.
Qed.

(** X12: the sequence number and the count of a chunk are one byte each.  A
    profile of more than 255 chunks, that is of more than 65519 * 255
    bytes, is written without an error, but the reader refuses the store
    and [SetColorEncodingFromIccData] falls back to sRGB. *)
Theorem overlong_profile_unreadable cinfo data :
  octets data ->
  65519 * 255 < vsize data < 2 ^ 32 ->
  Forall (fun v => ~ is_app2 v) (special_markers (master cinfo)) ->
  exists cinfo',
    jpegli_write_icc_profile cinfo data (vsize data) = Ok cinfo' /\
    (exists e, ParseChunkedMarker cinfo' kApp2 kIccProfileTag false = Err e) /\
    SetColorEncodingFromIccData cinfo' =
      Some (SRGB (num_components cinfo =? 1)).
Proof.
  intros Hoct Hlen Hold.
  destruct (write_icc_profile_markers cinfo data) as [cur' Hwrite].
  eexists. split; [exact Hwrite |].
  destruct (DivCeil_icc (vsize data) ltac:(lia)) as [_ Hb].
  destruct (parse_markers_overlong
              (DivCeil (vsize data) kMaxIccBytesInMarker) data Hoct
              ltac:(lia)) as [e He].
  assert (Hparse :
    ParseChunkedMarker
      (with_markers cinfo
         (special_markers (master cinfo)
            ++ icc_markers
                 (Z.to_nat (DivCeil (vsize data) kMaxIccBytesInMarker)) 0
                 (DivCeil (vsize data) kMaxIccBytesInMarker) data) cur')
      kApp2 kIccProfileTag false = Err e).
  { unfold ParseChunkedMarker.
    cbn [with_markers master set_master set_markers special_markers].
    rewrite parse_markers_app, parse_markers_skips by exact Hold.
    cbn [bind]. rewrite He. reflexivity. }
  destruct (fallback_on_failure _ _ Hparse) as [_ Hfall].
  split; [exists e; exact Hparse | exact Hfall].
Qed.

(** ** Quality mappings and scan scripts *)

Lemma quality_inverse_below_50 c :
  1 <= c < 50 -> Z.quot 5000 (Z.quot 5000 c) = c /\ 100 <= Z.quot 5000 c <= 5000.
Proof.
  intros Hc.
  assert (Hall : Forall (fun c => Z.quot 5000 (Z.quot 5000 c) = c /\
                                  100 <= Z.quot 5000 c <= 5000)
                        (seqZ 1 49)).
  { apply (bool_decide_unpack _). vm_compute. exact I. }
  rewrite Forall_forall in Hall. apply Hall. apply elem_of_seqZ. lia.
Qed.

(** X13: the scale factor [jpegli_quality_scaling] gives for a quality is
    mapped back by [LinearQualityToDistance] to the distance of that
    quality, clamped to 1..100. *)
Theorem linear_quality_of_scaling quality :
  LinearQualityToDistance (jpegli_quality_scaling quality) =
  jpegli_quality_to_distance (Z.min 100 (Z.max 1 quality)).
Proof.
  unfold LinearQualityToDistance, jpegli_quality_scaling.
  set (c := Z.min 100 (Z.max 1 quality)).
  assert (Hc : 1 <= c <= 100) by (subst c; lia).
  clearbody c. destruct (Z.ltb_spec c 50) as [Hlt | Hge].
  - destruct (quality_inverse_below_50 c ltac:(lia)) as [Hinv Hr].
    rewrite Z.max_r, Z.min_r by lia.
    replace (Z.quot 5000 c <? 100) with false by lia.
    rewrite Hinv. reflexivity.
  - rewrite Z.max_r, Z.min_r by lia.
    destruct (Z.ltb_spec (200 - 2 * c) 100) as [Hs | Hs].
    + f_equal. replace (200 - 2 * c) with ((100 - c) * 2) by lia.
      rewrite Z.quot_mul by lia. lia.
    + assert (c = 50) as -> by lia. reflexivity.
Qed.

(** X14: [jpegli_quality_scaling] stays within 0..5000 and never grows with
    the quality. *)
Theorem quality_scaling_antitone quality quality' :
  quality <= quality' ->
  0 <= jpegli_quality_scaling quality' <= jpegli_quality_scaling quality
    /\ jpegli_quality_scaling quality <= 5000.
Proof.
  intros Hle. unfold jpegli_quality_scaling.
  set (c := Z.min 100 (Z.max 1 quality)).
  set (c' := Z.min 100 (Z.max 1 quality')).
  assert (Hc : 1 <= c <= c' /\ c' <= 100) by (subst c c'; lia).
  clearbody c c'.
  assert (Hq : forall d, 1 <= d -> Z.quot 5000 d = 5000 / d).
  { intros d Hd. apply Z.quot_div_nonneg; lia. }
  destruct (Z.ltb_spec c 50) as [Hlt | Hge];
    destruct (Z.ltb_spec c' 50) as [Hlt' | Hge']; try lia.
  - rewrite !Hq by lia. split; [split |].
    + apply Z.div_pos; lia.
    + apply Z.div_le_compat_l; lia.
    + apply Z.div_le_upper_bound; lia.
  - rewrite Hq by lia.
    assert (102 <= 5000 / c).
    { change 102 with (5000 / 49). apply Z.div_le_compat_l; lia. }
    assert (5000 / c <= 5000) by (apply Z.div_le_upper_bound; lia).
    lia.
Qed.

(** *** Scan scripts *)

Lemma expand_scan_ok n t :
  1 <= n ->
  0 <= ps_Ss t <= ps_Se t -> ps_Se t <= 63 ->
  0 <= ps_Al t -> (ps_Ah t = 0 \/ ps_Ah t = ps_Al t + 1) ->
  Forall (scan_ok n) (expand_scan n t).
Proof.
  intros Hn Hband Hse Hal Hah. unfold expand_scan.
  destruct (interleaved t).
  - constructor; [| constructor].
    unfold scan_ok. cbn [Ss Se Ah Al comps_in_scan scan_component_index].
    split; [exact Hband |]. split; [exact Hse |]. split; [exact Hal |].
    split; [exact Hah |]. split; [unfold vsize; rewrite length_seqZ; lia |].
    split; [lia |]. split; [apply NoDup_seqZ |].
    apply Forall_forall. intros c Hc. apply elem_of_seqZ in Hc. lia.
  - apply Forall_fmap, Forall_forall. intros c Hc. apply elem_of_seqZ in Hc.
    unfold compose, scan_ok.
    cbn [Ss Se Ah Al comps_in_scan scan_component_index].
    split; [exact Hband |]. split; [exact Hse |]. split; [exact Hal |].
    split; [exact Hah |]. split; [reflexivity |]. split; [lia |].
    split; [apply NoDup_singleton |].
    constructor; [lia | constructor].
Qed.

Lemma expand_scan_completes n a b d i c k :
  0 <= c < n -> a <= k <= b ->
  exists s, s ∈ expand_scan n (mk_scan a b d 0 i) /\ completes s c k.
Proof.
  intros Hc Hk. unfold expand_scan. cbn [interleaved ps_Ss ps_Se ps_Ah ps_Al mk_scan].
  destruct i.
  - eexists. split; [left |]. unfold completes.
    cbn [Ss Se Al scan_component_index].
    split; [apply elem_of_seqZ; lia |]. split; [exact Hk | reflexivity].
  - eexists. split.
    + apply list_elem_of_fmap. exists c. split; [reflexivity |].
      apply elem_of_seqZ. lia.
    + unfold completes. cbn [Ss Se Al scan_component_index].
      split; [left |]. split; [exact Hk | reflexivity].
Qed.

Lemma default_script_scans cinfo max_shift :
  scan_info (SetDefaultScanScript cinfo max_shift) =
    Some (scan_templates (progressive_level (master cinfo)) max_shift
            ≫= expand_scan (num_components cinfo)) /\
  script_space (SetDefaultScanScript cinfo max_shift) =
    scan_templates (progressive_level (master cinfo)) max_shift
      ≫= expand_scan (num_components cinfo) /\
  num_scans (SetDefaultScanScript cinfo max_shift) =
    script_space_size (SetDefaultScanScript cinfo max_shift).
Proof. repeat split. Qed.

(** X15: the script [SetDefaultScanScript] writes fills the space it
    allocated, so that its [JXL_ASSERT] holds, and [num_scans] counts the
    scans of [scan_info]; every scan is well formed. *)
Theorem default_script_well_formed cinfo max_shift :
  1 <= num_components cinfo ->
  exists scans,
    scan_info (SetDefaultScanScript cinfo max_shift) = Some scans /\
    vsize scans = script_space_size (SetDefaultScanScript cinfo max_shift) /\
    vsize scans = num_scans (SetDefaultScanScript cinfo max_shift) /\
    1 <= vsize scans /\
    Forall (scan_ok (num_components cinfo)) scans.
Proof.
  intros Hn.
  destruct (default_script_scans cinfo max_shift) as (Hscans & Hspace & Hnum).
  eexists. split; [exact Hscans |].
  pose proof (script_space_size_exact cinfo max_shift ltac:(lia)) as Hsize.
  rewrite Hspace in Hsize. rewrite Hnum.
  split; [exact Hsize |]. split; [exact Hsize |].
  assert (Hok : Forall (scan_ok (num_components cinfo))
                  (scan_templates (progressive_level (master cinfo)) max_shift
                     ≫= expand_scan (num_components cinfo))).
  { apply Forall_bind. unfold scan_templates.
    destruct (_ =? 0); [| destruct (_ =? 1)];
      repeat (constructor; [apply expand_scan_ok; cbn; lia |]);
      constructor. }
  split; [| exact Hok].
  unfold vsize, scan_templates.
  destruct (_ =? 0); [| destruct (_ =? 1)]; rewrite bind_cons, length_app;
    destruct (expand_scan_head (num_components cinfo) 0 63 0 0 true Hn)
      as (s1 & r1 & E1 & _);
    destruct (expand_scan_head (num_components cinfo) 0 0 0 0
                (max_shift >? 0) Hn) as (s2 & r2 & E2 & _);
    rewrite ?E1, ?E2; cbn [length]; lia.
Qed.

(** X16: in the default script of every level each coefficient of each
    component is carried down to bit 0 by some scan. *)
Theorem default_script_complete cinfo max_shift c k :
  0 <= c < num_components cinfo ->
  0 <= k <= 63 ->
  exists scans s,
    scan_info (SetDefaultScanScript cinfo max_shift) = Some scans /\
    s ∈ scans /\ completes s c k.
Proof.
  intros Hc Hk.
  destruct (default_script_scans cinfo max_shift) as (Hscans & _).
  eexists. 
  assert (Hex : exists t,
    t ∈ scan_templates (progressive_level (master cinfo)) max_shift /\
    ps_Al t = 0 /\ ps_Ss t <= k <= ps_Se t).
  { unfold scan_templates.
    destruct (_ =? 0); [| destruct (_ =? 1)].
    - eexists. split; [left |]. cbn. lia.
    - destruct (decide (k = 0)) as [-> | Hk0].
      + eexists. split; [left |]. cbn. lia.
      + eexists. split; [right; right; left |]. cbn. lia.
    - destruct (decide (k = 0)) as [-> | Hk0]; [| destruct (decide (k <= 2))].
      + eexists. split; [left |]. cbn. lia.
      + eexists. split; [right; left |]. cbn. lia.
      + eexists. split; [do 4 right; left |]. cbn. lia. }
  destruct Hex as ([a b d al i] & Ht & Hal & Hband).
  cbn [ps_Al ps_Ss ps_Se] in Hal, Hband. subst al.
  destruct (expand_scan_completes (num_components cinfo) a b d i c k Hc Hband)
    as (s & Hs & Hcomp).
  exists s. split; [exact Hscans |]. split; [| exact Hcomp].
  apply list_elem_of_bind. eexists. split; [exact Hs | exact Ht].
Qed.

Lemma default_script_by_level cinfo max_shift :
  let N := num_components cinfo in
  (progressive_level (master cinfo) = 0 ->
   scan_info (SetDefaultScanScript cinfo max_shift)
     = Some [joint_scan 0 63 0 0 N] /\
   num_scans (SetDefaultScanScript cinfo max_shift) = 1) /\
  (progressive_level (master cinfo) = 1 ->
   scan_info (SetDefaultScanScript cinfo max_shift)
     = Some ((if max_shift >? 0 then [joint_scan 0 0 0 0 N]
              else single_scan 0 0 0 0 <$> seqZ 0 N)
             ++ (single_scan 1 63 0 1 <$> seqZ 0 N)
             ++ (single_scan 1 63 1 0 <$> seqZ 0 N)) /\
   num_scans (SetDefaultScanScript cinfo max_shift)
     = (if max_shift >? 0 then 1 else N) + 2 * N).
Proof.
  intros N. split; intros Hlevel; unfold SetDefaultScanScript;
    cbn [scan_info num_scans set_script]; rewrite Hlevel;
    unfold scan_templates;
    [change (0 =? 0) with true
    | change (1 =? 0) with false; change (1 =? 1) with true];
    cbv iota; fold N.
  - split; reflexivity.
  - split.
    + rewrite !bind_cons.
      change ([] ≫= expand_scan N) with (@nil jpeg_scan_info).
      rewrite app_nil_r. unfold expand_scan.
      cbn [interleaved mk_scan ps_Ss ps_Se ps_Ah ps_Al].
      destruct (max_shift >? 0); reflexivity.
    + cbn [foldl interleaved mk_scan]. destruct (max_shift >? 0); lia.
Qed.

(** X17: the level [jpegli_set_progressive_level] accepts is never negative
    and decides the encoding when no script is installed.  After
    [jpegli_start_compress] and the script step of
    [jpegli_finish_compress], level 0 gives a sequential file:
    [progressive_mode] is false and the script is the one scan (0,63,0,0)
    over all components.  Level 1 gives a progressive file whose script is
    a DC scan, interleaved exactly when [max_shift > 0], followed by two
    passes over the band 1..63 for each component. *)
Theorem progressive_level_decides_script cinfo level cinfo0 w cinfo1 :
  scan_info cinfo = None ->
  jpegli_set_progressive_level cinfo level = Ok cinfo0 ->
  jpegli_start_compress cinfo0 w = Ok cinfo1 ->
  let N := num_components cinfo in
  let cinfo2 := finish_compress_scan_script cinfo1 in
  0 <= level /\
  progressive_mode cinfo2 = (level >? 0) /\
  (level = 0 ->
   scan_info cinfo2 = Some [joint_scan 0 63 0 0 N] /\ num_scans cinfo2 = 1) /\
  (level = 1 ->
   scan_info cinfo2
     = Some ((if max_shift (master cinfo1) >? 0 then [joint_scan 0 0 0 0 N]
              else single_scan 0 0 0 0 <$> seqZ 0 N)
             ++ (single_scan 1 63 0 1 <$> seqZ 0 N)
             ++ (single_scan 1 63 1 0 <$> seqZ 0 N)) /\
   num_scans cinfo2
     = (if max_shift (master cinfo1) >? 0 then 1 else N) + 2 * N).
Proof.
  intros Hnone Hset Hstart N cinfo2.
  unfold jpegli_set_progressive_level in Hset.
  destruct (Z.ltb_spec level 0) as [| Hlevel]; [discriminate |].
  injection Hset as <-.
  destruct (start_compress_inv _ _ _ Hstart)
    as (Hscan & Hnc & Hpl & _ & Hpm).
  cbn [scan_info num_components master set_master set_progressive_level
       progressive_level] in Hscan, Hnc, Hpl, Hpm.
  rewrite Hnone in Hscan, Hpm.
  subst cinfo2. unfold finish_compress_scan_script. rewrite Hscan.
  split; [exact Hlevel |]. split; [exact Hpm |].
  destruct (default_script_by_level cinfo1 (max_shift (master cinfo1)))
    as [H0 H1].
  rewrite Hnc, Hpl in H0, H1. exact (conj H0 H1).
Qed.

(** *** Geometry set by [jpegli_start_compress] *)

Lemma find_shift_power factor :
  fst (find_shift factor 4 0) = true ->
  0 <= snd (find_shift factor 4 0) <= 3 /\
  factor = 2 ^ snd (find_shift factor 4 0).
Proof.
  unfold find_shift.
  change (Z.shiftl 1 0) with 1. change (Z.shiftl 1 (0 + 1)) with 2.
  change (Z.shiftl 1 (0 + 1 + 1)) with 4.
  change (Z.shiftl 1 (0 + 1 + 1 + 1)) with 8.
  destruct (Z.eqb_spec factor 1); [intros _; cbn; lia |].
  destruct (Z.eqb_spec factor 2); [intros _; cbn; lia |].
  destruct (Z.eqb_spec factor 4); [intros _; cbn; lia |].
  destruct (Z.eqb_spec factor 8); [intros _; cbn; lia |].
  cbn. discriminate.
Qed.

Lemma ratio_within_mono max_h s s' comp :
  s <= s' -> ratio_within max_h s comp -> ratio_within max_h s' comp.
Proof. intros Hs (k & Hk & Hk3 & E). exists k. repeat split; lia. Qed.

Lemma validate_sampling_shift max_h comps s0 s :
  0 <= s0 <= 3 ->
  validate_sampling max_h comps s0 = Ok s ->
  s0 <= s <= 3 /\
  Forall (ratio_within max_h s) comps /\
  (s = s0 \/ exists comp, comp ∈ comps /\
                          Z.quot max_h (h_samp_factor comp) = 2 ^ s).
Proof.
  revert s0. induction comps as [| comp comps IH]; intros s0 Hs0; cbn [validate_sampling].
  - intros E. injection E as <-. split; [lia |]. split; [constructor | left; reflexivity].
  - destruct (negb (h_samp_factor comp =? v_samp_factor comp)); [discriminate |].
    destruct (negb (Z.rem max_h (h_samp_factor comp) =? 0)); [discriminate |].
    cbv zeta.
    destruct (fst (find_shift (Z.quot max_h (h_samp_factor comp)) 4 0)) eqn:Hv;
      cbn [negb]; [| discriminate].
    destruct (find_shift_power _ Hv) as (Hrange & Hpow).
    set (k := snd (find_shift (Z.quot max_h (h_samp_factor comp)) 4 0)) in *.
    intros E. apply IH in E; [| lia].
    destruct E as (Hs & Hall & Hmax).
    split; [lia |]. split.
    + constructor; [| exact Hall]. exists k. repeat split; lia.
    + destruct Hmax as [-> | (comp' & Hin & E')].
      * destruct (Z.max_spec k s0) as [[_ ->] | [_ ->]].
        -- left. reflexivity.
        -- right. exists comp. split; [left | exact Hpow].
      * right. exists comp'. split; [right; exact Hin | exact E'].
Qed.

Lemma DivCeil_bounds a b :
  0 < b -> a <= DivCeil a b * b < a + b.
Proof.
  intros Hb. unfold DivCeil.
  pose proof (Z.div_mod (a + b - 1) b ltac:(lia)) as E.
  pose proof (Z.mod_pos_bound (a + b - 1) b Hb) as Hm.
  nia.
Qed.

Lemma start_compress_geometry cinfo w cinfo1 :
  jpegli_start_compress cinfo w = Ok cinfo1 ->
  exists s,
    validate_sampling (max_samp h_samp_factor (components cinfo))
                      (components cinfo) 0 = Ok s /\
    0 <= s <= 3 /\
    max_shift (master cinfo1) = s /\
    xsize_blocks (master cinfo1) = DivCeil (image_width cinfo) (8 * 2 ^ s) * 2 ^ s /\
    ysize_blocks (master cinfo1) = DivCeil (image_height cinfo) (8 * 2 ^ s) * 2 ^ s /\
    image_width cinfo1 = image_width cinfo /\
    image_height cinfo1 = image_height cinfo /\
    num_components cinfo1 = num_components cinfo /\
    components cinfo1 = components cinfo /\
    max_h_samp_factor cinfo1 = max_samp h_samp_factor (components cinfo) /\
    max_v_samp_factor cinfo1 = max_samp v_samp_factor (components cinfo) /\
    next_scanline cinfo1 = 0 /\
    planes (input (master cinfo1)) =
      replicate 3
        (replicate (Z.to_nat (ysize_blocks (master cinfo1) * 8))
           (replicate (Z.to_nat (xsize_blocks (master cinfo1) * 8))
              indeterminate)).
Proof.
  unfold jpegli_start_compress.
  change (components (set_max_samp _ _ _)) with (components cinfo).
  change (components (set_progressive_mode _ _)) with (components cinfo).
  destruct (validate_sampling _ _ 0) as [s | e] eqn:Hval; cbn [bind];
    [| discriminate].
  destruct (validate_sampling_shift _ _ 0 s ltac:(lia) Hval) as (Hs & _).
  intros E. injection E as <-. exists s.
  split; [reflexivity |]. split; [exact Hs |].
  cbn [master set_master set_geometry max_shift xsize_blocks ysize_blocks
       input planes new_image image_width image_height num_components
       set_max_samp set_progressive_mode set_next_scanline next_scanline
       max_h_samp_factor max_v_samp_factor].
  assert (Hshl : forall q, Z.shiftl q s = q * 2 ^ s).
  { intros q. apply Z.shiftl_mul_pow2. lia. }
  rewrite !Hshl. unfold DCTSIZE.
  repeat (split; [reflexivity |]). reflexivity.
Qed.

(** X18: a successful [jpegli_start_compress] keeps the image size and the
    component count, puts the cursor at 0 and leaves a context ready for
    staging; the shift is between 0 and 3, and the padded sizes
    [xsize_blocks * 8] and [ysize_blocks * 8] are the least multiples of
    [8 << max_shift] that cover the image. *)
Theorem start_compress_prepares_staging cinfo w cinfo1 :
  0 <= image_width cinfo ->
  0 <= image_height cinfo < 2 ^ 32 ->
  0 <= num_components cinfo <= 3 ->
  jpegli_start_compress cinfo w = Ok cinfo1 ->
  next_scanline cinfo1 = 0 /\
  image_width cinfo1 = image_width cinfo /\
  image_height cinfo1 = image_height cinfo /\
  num_components cinfo1 = num_components cinfo /\
  staging_ready cinfo1 /\
  0 <= max_shift (master cinfo1) <= 3 /\
  let unit := 8 * 2 ^ max_shift (master cinfo1) in
  (xsize_blocks (master cinfo1) * 8) mod unit = 0 /\
  (ysize_blocks (master cinfo1) * 8) mod unit = 0 /\
  image_width cinfo <= xsize_blocks (master cinfo1) * 8
    < image_width cinfo + unit /\
  image_height cinfo <= ysize_blocks (master cinfo1) * 8
    < image_height cinfo + unit.
Proof.
  intros Hw Hh Hnc Hstart.
  destruct (start_compress_geometry _ _ _ Hstart)
    as (s & _ & Hs & Hshift & Hxb & Hyb & Hw1 & Hh1 & Hnc1 & _ & _ & _
        & Hns & Hplanes).
  rewrite Hshift. cbv zeta.
  assert (Hpow : 0 < 2 ^ s) by (apply Z.pow_pos_nonneg; lia).
  pose proof (DivCeil_bounds (image_width cinfo) (8 * 2 ^ s) ltac:(lia)) as Bx.
  pose proof (DivCeil_bounds (image_height cinfo) (8 * 2 ^ s) ltac:(lia)) as By.
  assert (Ex : xsize_blocks (master cinfo1) * 8 =
               DivCeil (image_width cinfo) (8 * 2 ^ s) * (8 * 2 ^ s))
    by (rewrite Hxb; lia).
  assert (Ey : ysize_blocks (master cinfo1) * 8 =
               DivCeil (image_height cinfo) (8 * 2 ^ s) * (8 * 2 ^ s))
    by (rewrite Hyb; lia).
  split; [exact Hns |]. split; [exact Hw1 |]. split; [exact Hh1 |].
  split; [exact Hnc1 |].
  split.
  - unfold staging_ready. rewrite Hns, Hw1, Hh1, Hnc1, Hplanes.
    split; [lia |]. split; [lia |]. split; [lia |]. split; [lia |].
    split; [reflexivity |].
    apply Forall_replicate. split.
    + unfold vsize. rewrite length_replicate. lia.
    + apply Forall_replicate. unfold vsize. rewrite length_replicate. lia.
  - split; [exact Hs |].
    rewrite Ex, Ey.
    split; [apply Z.mod_mul; lia |]. split; [apply Z.mod_mul; lia |].
    split; [exact Bx | exact By].
Qed.

Lemma block_counts_ok max_h s xb yb comps :
  0 <= s ->
  Forall (ratio_within max_h s) comps ->
  exists counts,
    block_counts max_h (xb * 2 ^ s) (yb * 2 ^ s) comps = Some counts /\
    Forall2 (fun comp count =>
               let factor := Z.quot max_h (h_samp_factor comp) in
               1 <= factor <= 8 /\
               fst count * factor = xb * 2 ^ s /\
               snd count * factor = yb * 2 ^ s)
            comps counts.
Proof.
  intros Hs Hall. induction Hall as [| comp comps (k & Hk & Hk3 & E) _ IH].
  - exists []. split; [reflexivity | constructor].
  - destruct IH as (rest & Hrest & Hall).
    cbn [block_counts]. rewrite E, Hrest.
    assert (Hpk : 1 <= 2 ^ k <= 8).
    { assert (k = 0 \/ k = 1 \/ k = 2 \/ k = 3) as [-> | [-> | [-> | ->]]]
        by lia; cbn; lia. }
    assert (Hsz : to_size_t (2 ^ k) = 2 ^ k).
    { unfold to_size_t. apply Z.mod_small. lia. }
    rewrite Hsz.
    assert (Hsplit : forall q, q * 2 ^ s = q * 2 ^ (s - k) * 2 ^ k).
    { intros q. rewrite <- Z.mul_assoc, <- Z.pow_add_r by lia.
      do 2 f_equal. lia. }
    replace (2 ^ k =? 0) with false by lia.
    assert (Hmod : forall q, (q * 2 ^ s) mod 2 ^ k = 0).
    { intros q. rewrite Hsplit. apply Z.mod_mul. lia. }
    assert (Hdiv : forall q, q * 2 ^ s / 2 ^ k * 2 ^ k = q * 2 ^ s).
    { intros q. rewrite (Hsplit q) at 1. rewrite Z.div_mul by lia.
      symmetry. apply Hsplit. }
    rewrite !Hmod. cbn [Z.eqb negb]. eexists. split; [reflexivity |].
    constructor; [| exact Hall].
    cbv zeta. rewrite E. cbn [fst snd].
    split; [exact Hpk |]. split; apply Hdiv.
Qed.

(** X19: after a successful [jpegli_start_compress] the two [JXL_ASSERT]s of
    the block-count loop of [jpegli_finish_compress] hold for every
    component: its ratio [max_h_samp_factor / h_samp_factor] is between 1
    and 8 and divides both block counts, so the component gets
    [xsize_blocks / ratio] by [ysize_blocks / ratio] blocks, and these
    times the ratio cover the image. *)
Theorem finish_compress_block_asserts_hold cinfo w cinfo1 :
  jpegli_start_compress cinfo w = Ok cinfo1 ->
  exists counts,
    finish_compress_block_counts cinfo1 = Some counts /\
    Forall2 (fun comp count =>
               let ratio :=
                 Z.quot (max_h_samp_factor cinfo1) (h_samp_factor comp) in
               1 <= ratio <= 8 /\
               fst count * ratio = xsize_blocks (master cinfo1) /\
               snd count * ratio = ysize_blocks (master cinfo1) /\
               image_width cinfo <= 8 * ratio * fst count /\
               image_height cinfo <= 8 * ratio * snd count)
            (components cinfo1) counts.
Proof.
  intros Hstart.
  destruct (start_compress_geometry _ _ _ Hstart)
    as (s & Hval & Hs & Hshift & Hxb & Hyb & _ & _ & _ & Hcomps & Hmaxh & _).
  destruct (validate_sampling_shift _ _ 0 s ltac:(lia) Hval) as (_ & Hall & _).
  unfold finish_compress_block_counts.
  rewrite Hcomps, Hmaxh, Hxb, Hyb.
  destruct (block_counts_ok _ s (DivCeil (image_width cinfo) (8 * 2 ^ s))
              (DivCeil (image_height cinfo) (8 * 2 ^ s)) _ ltac:(lia) Hall)
    as (counts & Hcounts & Hshape).
  exists counts. split; [exact Hcounts |].
  assert (Hpow : 0 < 2 ^ s) by (apply Z.pow_pos_nonneg; lia).
  pose proof (DivCeil_bounds (image_width cinfo) (8 * 2 ^ s) ltac:(lia)) as Bx.
  pose proof (DivCeil_bounds (image_height cinfo) (8 * 2 ^ s) ltac:(lia)) as By.
  eapply Forall2_impl; [exact Hshape |].
  intros comp count. cbv zeta. intros (Hr & Ex & Ey).
  split; [exact Hr |]. split; [exact Ex |]. split; [exact Ey |].
  split; nia.
Qed.

(** X20: [max_shift] is set by the largest sampling ratio: every component
    has a ratio [2 ^ k] with [k <= max_shift], and when [max_shift > 0]
    some component has the ratio [2 ^ max_shift]. *)
Theorem max_shift_is_largest_ratio cinfo w cinfo1 :
  jpegli_start_compress cinfo w = Ok cinfo1 ->
  Forall (fun comp =>
            exists k, 0 <= k <= max_shift (master cinfo1) /\
              Z.quot (max_h_samp_factor cinfo1) (h_samp_factor comp) = 2 ^ k)
         (components cinfo1) /\
  (0 < max_shift (master cinfo1) ->
   exists comp, comp ∈ components cinfo1 /\
     Z.quot (max_h_samp_factor cinfo1) (h_samp_factor comp)
       = 2 ^ max_shift (master cinfo1)).
Proof.
  intros Hstart.
  destruct (start_compress_geometry _ _ _ Hstart)
    as (s & Hval & Hs & Hshift & _ & _ & _ & _ & _ & Hcomps & Hmaxh & _).
  destruct (validate_sampling_shift _ _ 0 s ltac:(lia) Hval)
    as (_ & Hall & Hmax).
  rewrite Hcomps, Hmaxh, Hshift. split.
  - eapply Forall_impl; [exact Hall |].
    intros comp (k & Hk & _ & E). exists k. split; [exact Hk | exact E].
  - intros Hpos. destruct Hmax as [-> | Hex]; [lia | exact Hex].
Qed.

(** *** Defaults *)

Lemma max_samp_ones (factor : jpeg_component_info -> Z) comps :
  Forall (fun comp => factor comp = 1) comps -> max_samp factor comps = 1.
Proof.
  unfold max_samp. intros H. induction H as [| comp comps E _ IH].
  - reflexivity.
  - cbn [foldl]. rewrite E. exact IH.
Qed.

Lemma validate_sampling_ones comps :
  Forall (fun comp => h_samp_factor comp = 1 /\ v_samp_factor comp = 1) comps ->
  validate_sampling 1 comps 0 = Ok 0.
Proof.
  intros H. induction H as [| comp comps [Eh Ev] _ IH].
  - reflexivity.
  - cbn [validate_sampling]. rewrite Eh, Ev. exact IH.
Qed.

Lemma start_compress_of_validation cinfo w s :
  validate_sampling (max_samp h_samp_factor (components cinfo))
                    (components cinfo) 0 = Ok s ->
  exists cinfo1, jpegli_start_compress cinfo w = Ok cinfo1.
Proof.
  intros Hval. unfold jpegli_start_compress.
  change (components (set_max_samp _ _ _)) with (components cinfo).
  change (components (set_progressive_mode _ _)) with (components cinfo).
  rewrite Hval. cbn [bind]. eexists. reflexivity.
Qed.

(** X21: the component table [jpegli_set_defaults] builds always passes the
    validation of [jpegli_start_compress]: outside XYB mode no component
    is subsampled and [max_shift] is 0; in XYB mode the sampling factors
    are 2, 2, 1, the largest factor is 2 and [max_shift] is 1.  No scan
    script is installed, so [progressive_mode] follows the level. *)
Theorem defaults_pass_validation xyb_mode input_components in_color_space
    cinfo cinfo1 w :
  0 <= input_components ->
  jpegli_set_defaults xyb_mode input_components in_color_space cinfo
    = Ok cinfo1 ->
  exists cinfo2,
    jpegli_start_compress cinfo1 w = Ok cinfo2 /\
    max_h_samp_factor cinfo2 = (if xyb_mode then 2 else 1) /\
    max_v_samp_factor cinfo2 = (if xyb_mode then 2 else 1) /\
    max_shift (master cinfo2) = (if xyb_mode then 1 else 0) /\
    progressive_mode cinfo2 = (progressive_level (master cinfo) >? 0).
Proof.
  intros Hn. unfold jpegli_set_defaults.
  destruct xyb_mode; cbn [andb].
  - destruct (Z.eqb_spec input_components 3) as [-> | _];
      [| discriminate].
    destruct in_color_space; cbn [negb orb]; try discriminate.
    intros E. injection E as <-.
    eexists. split; [reflexivity |]. repeat split.
  - intros E. injection E as <-.
    set (cinfo1 := Build_jpeg_compress_struct _ _ _ _ _ _ _ _ _ _ _ _ _).
    assert (Hones : Forall (fun comp => h_samp_factor comp = 1 /\
                                        v_samp_factor comp = 1)
                           (components cinfo1)).
    { unfold components. apply Forall_take. subst cinfo1. cbn [comp_info].
      apply Forall_lookup. intros i comp Hi.
      rewrite list_lookup_imap, list_lookup_fmap in Hi.
      destruct (seqZ 0 input_components !! i); [| discriminate].
      cbn in Hi. injection Hi as <-. split; reflexivity. }
    assert (Hh : max_samp h_samp_factor (components cinfo1) = 1).
    { apply max_samp_ones. eapply Forall_impl; [exact Hones |].
      intros comp [E _]. exact E. }
    assert (Hv : max_samp v_samp_factor (components cinfo1) = 1).
    { apply max_samp_ones. eapply Forall_impl; [exact Hones |].
      intros comp [_ E]. exact E. }
    pose proof (validate_sampling_ones _ Hones) as Hval.
    rewrite <- Hh in Hval.
    destruct (start_compress_of_validation cinfo1 w 0 Hval) as (cinfo2 & E2).
    exists cinfo2. split; [exact E2 |].
    destruct (start_compress_geometry _ _ _ E2)
      as (s & Hval' & _ & Hshift & _ & _ & _ & _ & _ & _ & Hmh & Hmv & _).
    rewrite Hval in Hval'. injection Hval' as <-.
    rewrite Hmh, Hmv, Hh, Hv, Hshift.
    repeat (split; [reflexivity |]).
    destruct (start_compress_inv _ _ _ E2) as (_ & _ & _ & _ & Hpm).
    rewrite Hpm. reflexivity.
Qed.

(** ** Staged samples *)

Lemma foldl_alter_seqZ {A : Type} (F : Z -> A -> A) (l : list A)
    (a : Z) (m j : nat) :
  0 <= a ->
  foldl (fun l c => alter (F c) (Z.to_nat c) l) l (seqZ a (Z.of_nat m)) !! j =
  if bool_decide (a <= Z.of_nat j < a + Z.of_nat m)
  then F (Z.of_nat j) <$> l !! j else l !! j.
Proof.
  intros Ha. induction m as [| m IH].
  - cbn [Z.of_nat seqZ]. rewrite bool_decide_eq_false_2 by lia. reflexivity.
  - rewrite seqZ_S, foldl_app. cbn [foldl].
    rewrite list_lookup_alter.
    destruct (decide (Z.to_nat (a + Z.of_nat m) = j)) as [E | Hne].
    + rewrite E, IH. rewrite bool_decide_eq_false_2 by lia.
      rewrite bool_decide_eq_true_2 by lia.
      replace (Z.of_nat j) with (a + Z.of_nat m) by lia. reflexivity.
    + rewrite IH.
      destruct (decide (a <= Z.of_nat j < a + Z.of_nat m)) as [Hin | Hout].
      * rewrite !bool_decide_eq_true_2 by lia. reflexivity.
      * rewrite !bool_decide_eq_false_2 by lia. reflexivity.
Qed.

Lemma foldl_insert_length {A : Type} (f : Z -> A) (xs : list Z) (l : list A) :
  length (foldl (fun l x => <[Z.to_nat x := f x]> l) l xs) = length l.
Proof.
  revert l. induction xs as [| x xs IH]; intros l; cbn [foldl].
  - reflexivity.
  - rewrite IH. apply length_insert.
Qed.

Lemma foldl_insert_seqZ {A : Type} (f : Z -> A) (l : list A) (m j : nat) :
  (m <= length l)%nat ->
  foldl (fun l x => <[Z.to_nat x := f x]> l) l (seqZ 0 (Z.of_nat m)) !! j =
  if bool_decide (j < m)%nat then Some (f (Z.of_nat j)) else l !! j.
Proof.
  induction m as [| m IH]; intros Hm.
  - cbn [Z.of_nat seqZ]. rewrite bool_decide_eq_false_2 by lia. reflexivity.
  - rewrite seqZ_S, foldl_app. cbn [foldl]. rewrite Z.add_0_l, Nat2Z.id.
    destruct (decide (m = j)) as [<- | Hne].
    + rewrite list_lookup_insert_eq by (rewrite foldl_insert_length; lia).
      rewrite bool_decide_eq_true_2 by lia. reflexivity.
    + rewrite list_lookup_insert_ne by exact Hne. rewrite IH by lia.
      destruct (decide (j < m)%nat).
      * rewrite !bool_decide_eq_true_2 by lia. reflexivity.
      * rewrite !bool_decide_eq_false_2 by lia. reflexivity.
Qed.

Lemma stage_row_length cinfo src c row :
  length (stage_row cinfo src c row) = length row.
Proof. unfold stage_row. apply foldl_insert_length. Qed.

Lemma stage_row_lookup cinfo src (c x : nat) row :
  0 <= image_width cinfo <= vsize row ->
  stage_row cinfo src (Z.of_nat c) row !! x =
  if bool_decide (Z.of_nat x < image_width cinfo)
  then Some (staged_value cinfo src c x) else row !! x.
Proof.
  intros Hw. unfold stage_row.
  rewrite <- (Z2Nat.id (image_width cinfo)) at 1 by lia.
  rewrite (foldl_insert_seqZ
             (fun x => load_sample (data_type (master cinfo))
                         (is_little_endian (endianness (master cinfo))) src
                         (Z.of_nat c * bytes_per_sample (data_type (master cinfo))
                          + x * (num_components cinfo
                                 * bytes_per_sample (data_type (master cinfo))))))
    by (unfold vsize in Hw; lia).
  destruct (decide (Z.of_nat x < image_width cinfo)).
  - rewrite !bool_decide_eq_true_2 by lia. reflexivity.
  - rewrite !bool_decide_eq_false_2 by lia. reflexivity.
Qed.

(** The rows of a plane after a batch: row [y] is staged from line
    [y - next_scanline] when it lies in the batch, and is kept otherwise. *)
Lemma stage_plane_lookup cinfo scanlines c (n y : nat) plane :
  0 <= next_scanline cinfo ->
  stage_plane cinfo scanlines c (seqZ 0 (Z.of_nat n)) plane !! y =
  if bool_decide (next_scanline cinfo <= Z.of_nat y
                  < next_scanline cinfo + Z.of_nat n)
  then stage_row cinfo
         (default [] (scanlines !! Z.to_nat (Z.of_nat y - next_scanline cinfo)))
         c <$> plane !! y
  else plane !! y.
Proof.
  intros Hns. unfold stage_plane.
  rewrite <- (foldl_alter_seqZ
                (fun r => stage_row cinfo
                   (default [] (scanlines !! Z.to_nat (r - next_scanline cinfo)))
                   c) plane (next_scanline cinfo) n y Hns).
  f_equal.
  replace (seqZ (next_scanline cinfo) (Z.of_nat n))
    with (Z.add (next_scanline cinfo) <$> seqZ 0 (Z.of_nat n))
    by (rewrite fmap_add_seqZ; f_equal; lia).
  rewrite foldl_fmap. apply foldl_ext_elem. intros plane' i _.
  replace (next_scanline cinfo + i - next_scanline cinfo) with i by lia.
  reflexivity.
Qed.

Lemma stage_lines_lookup cinfo scanlines (n c : nat) pl :
  0 <= num_components cinfo ->
  stage_lines cinfo scanlines (Z.of_nat n) pl !! c =
  if bool_decide (Z.of_nat c < num_components cinfo)
  then stage_plane cinfo scanlines (Z.of_nat c) (seqZ 0 (Z.of_nat n))
         <$> pl !! c
  else pl !! c.
Proof.
  intros Hnc. unfold stage_lines.
  rewrite (foldl_ext_elem _
             (fun pl c => alter (stage_plane cinfo scanlines c
                                   (seqZ 0 (Z.of_nat n)))
                                (Z.to_nat c) pl))
    by (intros pl' c' _; apply stage_component).
  rewrite <- (Z2Nat.id (num_components cinfo)) at 1 by lia.
  rewrite (foldl_alter_seqZ
             (fun c => stage_plane cinfo scanlines c (seqZ 0 (Z.of_nat n))))
    by lia.
  destruct (decide (Z.of_nat c < num_components cinfo)).
  - rewrite !bool_decide_eq_true_2 by lia. reflexivity.
  - rewrite !bool_decide_eq_false_2 by lia. reflexivity.
Qed.

(** The sample at a position after a batch of [n] lines. *)
Lemma stage_lines_sample cinfo scanlines (n : nat) pl (c y x : nat) :
  0 <= num_components cinfo ->
  0 <= next_scanline cinfo ->
  0 <= image_width cinfo ->
  Forall (Forall (fun row => image_width cinfo <= vsize row)) pl ->
  sample_at (stage_lines cinfo scanlines (Z.of_nat n) pl) c y x =
  if bool_decide (staged_by cinfo (Z.of_nat n) c y x)
  then sample_at pl c y x ≫= fun _ =>
       Some (staged_value cinfo
               (default [] (scanlines
                              !! Z.to_nat (Z.of_nat y - next_scanline cinfo)))
               c x)
  else sample_at pl c y x.
Proof.
  intros Hnc Hns Hw Hrows. unfold sample_at, staged_by.
  rewrite stage_lines_lookup by exact Hnc.
  destruct (decide (Z.of_nat c < num_components cinfo)) as [Hc | Hc].
  2:{ rewrite bool_decide_eq_false_2 by exact Hc.
      rewrite bool_decide_eq_false_2 by (intros [? _]; contradiction).
      reflexivity. }
  rewrite bool_decide_eq_true_2 by exact Hc.
  destruct (pl !! c) as [plane |] eqn:Hplane; cbn [fmap option_fmap option_map
    mbind option_bind].
  2:{ destruct (bool_decide _); reflexivity. }
  rewrite stage_plane_lookup by exact Hns.
  destruct (decide (next_scanline cinfo <= Z.of_nat y
                    < next_scanline cinfo + Z.of_nat n)) as [Hy | Hy].
  2:{ rewrite bool_decide_eq_false_2 by exact Hy.
      rewrite bool_decide_eq_false_2 by (intros (_ & ? & _); contradiction).
      reflexivity. }
  rewrite bool_decide_eq_true_2 by exact Hy.
  destruct (plane !! y) as [row |] eqn:Hrow; cbn [fmap option_fmap option_map
    mbind option_bind].
  2:{ destruct (bool_decide _); reflexivity. }
  assert (Hlen : image_width cinfo <= vsize row).
  { rewrite Forall_lookup in Hrows. specialize (Hrows _ _ Hplane).
    rewrite Forall_lookup in Hrows. exact (Hrows _ _ Hrow). }
  rewrite stage_row_lookup by lia.
  destruct (decide (Z.of_nat x < image_width cinfo)) as [Hx | Hx].
  - rewrite bool_decide_eq_true_2 by exact Hx.
    rewrite bool_decide_eq_true_2 by (repeat split; lia).
    destruct (lookup_lt_is_Some_2 row x) as [v Hv];
      [unfold vsize in Hlen; lia |].
    rewrite Hv. reflexivity.
  - rewrite bool_decide_eq_false_2 by exact Hx.
    rewrite bool_decide_eq_false_2 by (intros (_ & _ & ?); contradiction).
    reflexivity.
Qed.

Lemma staging_ready_sample cinfo (c y x : nat) :
  staging_ready cinfo ->
  Z.of_nat c < num_components cinfo ->
  Z.of_nat y < image_height cinfo ->
  Z.of_nat x < image_width cinfo ->
  is_Some (sample_at (planes (input (master cinfo))) c y x).
Proof.
  intros (_ & _ & _ & Hnc & Hlen & Hall) Hc Hy Hx. unfold sample_at.
  destruct (lookup_lt_is_Some_2 (planes (input (master cinfo))) c)
    as [plane Hplane]; [lia |].
  rewrite Hplane. cbn [mbind option_bind].
  rewrite Forall_lookup in Hall. destruct (Hall _ _ Hplane) as [Hh Hrows].
  destruct (lookup_lt_is_Some_2 plane y) as [row Hrow];
    [unfold vsize in Hh; lia |].
  rewrite Hrow. cbn [mbind option_bind].
  rewrite Forall_lookup in Hrows. specialize (Hrows _ _ Hrow).
  apply lookup_lt_is_Some_2. unfold vsize in Hrows. lia.
Qed.

Lemma write_scanlines_fits cinfo scanlines n :
  0 <= next_scanline cinfo ->
  image_height cinfo < 2 ^ 32 ->
  num_components cinfo <= 3 ->
  0 <= n <= image_height cinfo - next_scanline cinfo ->
  jpegli_write_scanlines cinfo scanlines n =
    Ok (set_next_scanline
          (set_master cinfo
             (set_input (master cinfo)
                {| xsize := xsize (input (master cinfo));
                   ysize := ysize (input (master cinfo));
                   planes := stage_lines cinfo scanlines n
                               (planes (input (master cinfo))) |}))
          (next_scanline cinfo + n), n).
Proof.
  intros Hns Hh Hnc Hn. unfold jpegli_write_scanlines.
  replace (num_components cinfo >? 3) with false by lia.
  rewrite (wrap32_small (n + _)) by lia.
  replace (n + next_scanline cinfo >? image_height cinfo) with false by lia.
  rewrite wrap32_small by lia. reflexivity.
Qed.

(** X22: what a batch leaves in the planes.  On a context ready for
    staging, after [n] lines that fit in the image are written, the
    sample of component [c] at row [y] and column [x] is the converted
    source sample at offset [c * bytes_per_sample + x * pwidth] of line
    [y - next_scanline] when [c] is a component, [y] a row of the batch
    and [x] a column of the image; every other sample of the three planes
    is what it was. *)
Theorem write_scanlines_samples cinfo scanlines n c y x :
  staging_ready cinfo ->
  lines_ready cinfo scanlines ->
  0 <= n <= vsize scanlines ->
  n <= image_height cinfo - next_scanline cinfo ->
  exists cinfo',
    jpegli_write_scanlines cinfo scanlines n = Ok (cinfo', n) /\
    (staged_by cinfo n c y x ->
     exists src,
       scanlines !! Z.to_nat (Z.of_nat y - next_scanline cinfo) = Some src /\
       sample_at (planes (input (master cinfo'))) c y x =
         Some (staged_value cinfo src c x)) /\
    (~ staged_by cinfo n c y x ->
     sample_at (planes (input (master cinfo'))) c y x =
       sample_at (planes (input (master cinfo))) c y x).
Proof.
  intros Hready _ Hn Hfit.
  pose proof Hready as (Hns & Hh & Hw & Hnc & Hlen & Hall).
  destruct (Z_of_nat_complete n ltac:(lia)) as [k ->].
  rewrite write_scanlines_fits by lia.
  eexists. split; [reflexivity |].
  cbn [set_next_scanline set_master set_input master input planes].
  assert (Hrows : Forall (Forall (fun row => image_width cinfo <= vsize row))
                         (planes (input (master cinfo)))).
  { eapply Forall_impl; [exact Hall |]. intros plane [_ H]. exact H. }
  unfold set_input, set_geometry. cbn [input planes].
  pose proof (stage_lines_sample cinfo scanlines k
                (planes (input (master cinfo))) c y x
                ltac:(lia) ltac:(lia) Hw Hrows) as Hsample.
  split.
  - intros Hst. rewrite bool_decide_eq_true_2 in Hsample by exact Hst.
    destruct Hst as (Hc & Hy & Hx).
    destruct (lookup_lt_is_Some_2 scanlines
                (Z.to_nat (Z.of_nat y - next_scanline cinfo))) as [src Hsrc];
      [unfold vsize in Hn; lia |].
    exists src. split; [exact Hsrc |].
    destruct (staging_ready_sample cinfo c y x Hready Hc ltac:(lia) Hx)
      as [v Hv].
    rewrite Hv, Hsrc in Hsample. exact Hsample.
  - intros Hst. rewrite bool_decide_eq_false_2 in Hsample by exact Hst.
    exact Hsample.
Qed.

Lemma alter_keeps {A B : Type} (g : A -> B) (f : A -> A) (i : nat) (l : list A) :
  (forall a, g (f a) = g a) -> g <$> alter f i l = g <$> l.
Proof.
  intros H. rewrite (list_fmap_alter g f id).
  - apply list_alter_id. reflexivity.
  - apply Forall_forall. intros a _. apply H.
Qed.

Lemma foldl_keeps {S C B : Type} (g : S -> B) (f : S -> C -> S) (cs : list C) s :
  (forall s c, g (f s c) = g s) -> g (foldl f s cs) = g s.
Proof.
  intros H. revert s. induction cs as [| c cs IH]; intros s; cbn [foldl].
  - reflexivity.
  - rewrite IH. apply H.
Qed.

(** Staging changes no extent: the planes keep their number of rows and
    the rows their length. *)
Lemma stage_lines_extents cinfo scanlines n pl :
  extents (stage_lines cinfo scanlines n pl) = extents pl.
Proof.
  unfold stage_lines.
  apply (foldl_keeps extents). intros pl1 c.
  apply (foldl_keeps extents). intros pl2 i.
  unfold stage_line, extents. apply alter_keeps. intros plane.
  apply alter_keeps. intros row. apply stage_row_length.
Qed.

Lemma covers_by_extents (w h : Z) (pl : list (list (list float))) :
  Forall (fun plane => h <= vsize plane /\
                       Forall (fun row => w <= vsize row) plane) pl <->
  Forall (fun lens : list nat =>
            h <= vsize lens /\ Forall (fun k => w <= Z.of_nat k) lens)
         (extents pl).
Proof.
  unfold extents. rewrite Forall_fmap. apply Forall_proper; [| reflexivity].
  intros plane. unfold compose, vsize. rewrite length_fmap, Forall_fmap.
  reflexivity.
Qed.

(** X23: staging keeps a context ready for staging.  For every line count
    whose sum with the cursor does not wrap, and a row array that holds
    the [min(num_lines, image_height - next_scanline)] lines the call
    reads, each with every sample of a line, the call consumes that many
    lines, advances the cursor by as many, and changes neither the image
    size, the component count nor the extents of the planes: the number
    of rows of each plane and the length of each row. *)
Theorem write_scanlines_keeps_ready cinfo scanlines num_lines :
  staging_ready cinfo ->
  lines_ready cinfo scanlines ->
  0 <= num_lines ->
  num_lines + next_scanline cinfo < 2 ^ 32 ->
  Z.min num_lines (image_height cinfo - next_scanline cinfo)
    <= vsize scanlines ->
  exists cinfo',
    jpegli_write_scanlines cinfo scanlines num_lines =
      Ok (cinfo', Z.min num_lines (image_height cinfo - next_scanline cinfo)) /\
    staging_ready cinfo' /\
    next_scanline cinfo' =
      next_scanline cinfo
      + Z.min num_lines (image_height cinfo - next_scanline cinfo) /\
    image_width cinfo' = image_width cinfo /\
    image_height cinfo' = image_height cinfo /\
    num_components cinfo' = num_components cinfo /\
    extents (planes (input (master cinfo')))
      = extents (planes (input (master cinfo))).
Proof.
  intros (Hns & Hh & Hw & Hnc & Hlen & Hall) _ Hn Hsum _.
  unfold jpegli_write_scanlines.
  replace (num_components cinfo >? 3) with false by lia.
  rewrite (wrap32_small (num_lines + _)) by lia.
  set (n := Z.min num_lines (image_height cinfo - next_scanline cinfo)).
  assert (En : (if num_lines + next_scanline cinfo >? image_height cinfo
                then wrap32 (image_height cinfo - next_scanline cinfo)
                else num_lines) = n).
  { subst n. destruct (Z.gtb_spec (num_lines + next_scanline cinfo)
                                  (image_height cinfo)).
    - rewrite wrap32_small by lia. lia.
    - lia. }
  rewrite En. rewrite wrap32_small by lia.
  eexists. split; [reflexivity |].
  pose proof (stage_lines_extents cinfo scanlines n
                (planes (input (master cinfo)))) as Hext.
  unfold staging_ready, set_input, set_geometry.
  cbn [set_next_scanline set_master master input planes
       next_scanline image_width image_height num_components].
  split;
    [| split; [reflexivity |]; split; [reflexivity |];
       split; [reflexivity |]; split; [reflexivity | exact Hext]].
  split; [lia |]. split; [exact Hh |]. split; [exact Hw |].
  split; [exact Hnc |].
  split.
  - apply (f_equal length) in Hext. unfold extents in Hext.
    rewrite !length_fmap in Hext. rewrite Hext. exact Hlen.
  - apply covers_by_extents. rewrite Hext. apply covers_by_extents.
    exact Hall.
Qed.

Lemma stage_lines_none cinfo scanlines pl :
  stage_lines cinfo scanlines 0 pl = pl.
Proof.
  unfold stage_lines. cbn [seqZ Z.to_nat seq fmap list_fmap foldl].
  generalize (seqZ 0 (num_components cinfo)). intros cs.
  induction cs as [| c cs IH]; [reflexivity | exact IH].
Qed.

(** X24: nothing is staged once the image is complete, and nothing for an
    empty batch: when [min(num_lines, image_height - next_scanline)] is 0
    the call returns 0 and leaves the context as it was. *)
Theorem write_scanlines_nothing_to_do cinfo scanlines num_lines :
  0 <= next_scanline cinfo <= image_height cinfo ->
  image_height cinfo < 2 ^ 32 ->
  num_components cinfo <= 3 ->
  0 <= num_lines ->
  num_lines + next_scanline cinfo < 2 ^ 32 ->
  Z.min num_lines (image_height cinfo - next_scanline cinfo) = 0 ->
  jpegli_write_scanlines cinfo scanlines num_lines = Ok (cinfo, 0).
Proof.
  intros Hns Hh Hnc Hn Hsum Hmin. unfold jpegli_write_scanlines.
  replace (num_components cinfo >? 3) with false by lia.
  rewrite (wrap32_small (num_lines + _)) by lia.
  assert (En : (if num_lines + next_scanline cinfo >? image_height cinfo
                then wrap32 (image_height cinfo - next_scanline cinfo)
                else num_lines) = 0).
  { destruct (Z.gtb_spec (num_lines + next_scanline cinfo)
                         (image_height cinfo)).
    - rewrite wrap32_small by lia. lia.
    - lia. }
  rewrite En, stage_lines_none, Z.add_0_r, wrap32_small by lia.
  destruct cinfo as [m]. destruct m as [? ? ? ? ? ? ? ? img]. destruct img.
  reflexivity.
Qed.

End InterfaceProperties.

(** * The claims at concrete inputs *)

(** C5: the guard of [jpegli_write_scanlines] adds [num_lines] and
    [next_scanline] as [unsigned int].  With [image_height = 10],
    [next_scanline = 5] and [num_lines = 4294967293] the sum wraps to 2,
    the count is not truncated to the 5 lines left, the call returns
    4294967293 and the cursor becomes 2. *)
Theorem write_scanlines_count_wraps :
  let cinfo := set_next_scanline (fresh_cinfo 1 10 0) 5 in
  next_scanline cinfo <= image_height cinfo /\
  num_components cinfo <= 3 /\
  next_scanline cinfo + 4294967293 > image_height cinfo /\
  exists cinfo',
    jpegli_write_scanlines cinfo [] 4294967293
      = Ok (cinfo', 4294967293) /\
    next_scanline cinfo' = 2 /\
    4294967293 <> image_height cinfo - next_scanline cinfo.
Proof.
  cbv zeta. split; [simpl; lia |]. split; [simpl; lia |].
  split; [simpl; lia |].
  unfold jpegli_write_scanlines.
  change (num_components (set_next_scanline (fresh_cinfo 1 10 0) 5) >? 3)
    with false.
  change (wrap32 (4294967293
                  + next_scanline (set_next_scanline (fresh_cinfo 1 10 0) 5))
            >? image_height (set_next_scanline (fresh_cinfo 1 10 0) 5))
    with false.
  cbv beta iota zeta. eexists. split; [reflexivity |].
  cbn [next_scanline set_next_scanline image_height fresh_cinfo].
  split; [reflexivity | lia].
Qed.

(** C2 as stated fails: a profile of 65518 bytes is written as one blob
    of 65518 profile bytes, not as two blobs of at most 65517. *)
Lemma icc_chunk_exceeds_65517 :
  ~ (exists cinfo' new,
       jpegli_write_icc_profile (fresh_cinfo 1 1 1)
         (replicate (Z.to_nat 65518) 0) 65518 = Ok cinfo' /\
       special_markers (master cinfo') =
         special_markers (master (fresh_cinfo 1 1 1)) ++ new /\
       vsize new = (65518 + 65516) / 65517 /\
       Forall (fun m => vsize m - (4 + 12 + 2) <= 65517) new).
Proof.
  assert (Hlen : vsize (replicate (Z.to_nat 65518) 0) = 65518).
  { unfold vsize. rewrite length_replicate. lia. }
  revert Hlen. generalize (replicate (Z.to_nat 65518) 0). intros data Hlen.
  intros (cinfo' & new & Hwrite & Hstore & Hcount & _).
  destruct (write_icc_profile_markers (fresh_cinfo 1 1 1) data) as [cur' H].
  rewrite Hlen in H. rewrite H in Hwrite. injection Hwrite as <-.
  cbn [with_markers master set_master set_markers special_markers
       fresh_cinfo fresh_master app] in Hstore.
  subst new. clear H. unfold vsize in Hcount. cbn [length] in Hcount.
  vm_compute in Hcount. discriminate Hcount.
Qed.

(** C3 as stated fails: three components at level 2 without subsampling
    give 15 scans, not 1 + 3 * 3 + 3. *)
Lemma scan_count_without_subsampling :
  ~ (num_scans (SetDefaultScanScript (fresh_cinfo 8 8 3) 0) = 1 + 3 * 3 + 3).
Proof. vm_compute. discriminate. Qed.

(** C4 as stated fails: a second APP2 entry is dropped, not kept. *)
Lemma later_app2_entry_dropped :
  ~ (special_markers
       (master (SetICCAppMarker
                  (with_markers (fresh_cinfo 1 1 1)
                                [app2_blob_a; app2_blob_b] None)
                  app2_blob_c)) =
     [app2_blob_c; app2_blob_b]).
Proof. vm_compute. discriminate. Qed.

(** C7 as stated fails: a component with unequal factors behind one with
    a bad ratio does not make the call raise UnsupportedSubsampling. *)
Lemma bad_ratio_reported_first :
  ~ (jpegli_start_compress
       (with_sampling (fresh_cinfo 8 8 2) [(1, 1); (3, 2)]) false
       = Err UnsupportedSubsampling
     <-> exists comp,
           comp ∈ components (with_sampling (fresh_cinfo 8 8 2)
                                            [(1, 1); (3, 2)]) /\
           h_samp_factor comp <> v_samp_factor comp).
Proof.
  intros [_ H].
  assert (E : jpegli_start_compress
                (with_sampling (fresh_cinfo 8 8 2) [(1, 1); (3, 2)]) false
              = Err InvalidSamplingFactor) by reflexivity.
  rewrite E in H.
  assert (Hfalse : @Err jpegli_error (@jpeg_compress_struct Z)
                     InvalidSamplingFactor = Err UnsupportedSubsampling).
  { apply H.
    exists {| h_samp_factor := 3; v_samp_factor := 2; quant_tbl_no := 1;
              component_index := 1; component_id := 2 |}.
    split; [| simpl; lia].
    vm_compute. right. left. }
  discriminate Hfalse.
Qed.

(** C8 as stated fails: a marker code that is not supported, with a
    length above 65533, raises InvalidMarkerLength. *)
Lemma length_checked_before_marker :
  ~ (jpegli_write_m_header (fresh_cinfo 1 1 1) 0 65534 = Err UnsupportedMarker
     <-> ~ app_or_com 0).
Proof.
  intros [_ H].
  assert (E : jpegli_write_m_header (fresh_cinfo 1 1 1) 0 65534
              = Err UnsupportedMarker).
  { apply H. unfold app_or_com. lia. }
  vm_compute in E. discriminate E.
Qed.

(** * The theorems at concrete inputs *)

(** A three-byte profile written next to a COM blob is read back. *)
Lemma icc_profile_round_trip_witness :
  octets [1; 2; 3] /\
  vsize [1; 2; 3] <= 65517 * 255 /\
  Forall (fun v => ~ is_app2 v)
         (special_markers
            (master (with_markers (fresh_cinfo 1 1 1) [com_blob] None))) /\
  exists cinfo',
    jpegli_write_icc_profile
      (with_markers (fresh_cinfo 1 1 1) [com_blob] None) [1; 2; 3]
      (vsize [1; 2; 3]) = Ok cinfo' /\
    ParseChunkedMarker cinfo' kApp2 kIccProfileTag false = Ok [1; 2; 3].
Proof.
  assert (H1 : octets [1; 2; 3]) by (repeat constructor; lia).
  assert (H2 : vsize [1; 2; 3] <= 65517 * 255) by (vm_compute; discriminate).
  assert (H3 : Forall (fun v => ~ is_app2 v)
                 (special_markers
                    (master (with_markers (fresh_cinfo 1 1 1)
                                          [com_blob] None)))).
  { repeat constructor. vm_compute. discriminate. }
  exact (conj H1 (conj H2 (conj H3
           (icc_profile_round_trip _ _ H1 H2 H3)))).
Defined.

Lemma write_icc_profile_chunking_witness :
  vsize [1; 2; 3] < 2 ^ 32 /\
  exists cinfo' new,
    jpegli_write_icc_profile (fresh_cinfo 1 1 1) [1; 2; 3] (vsize [1; 2; 3])
      = Ok cinfo' /\
    special_markers (master cinfo') =
      special_markers (master (fresh_cinfo 1 1 1)) ++ new /\
    vsize new = (vsize [1; 2; 3] + 65518) / 65519 /\
    65519 * (vsize new - 1) < vsize [1; 2; 3] <= 65519 * vsize new /\
    kMaxIccBytesInMarker = 65519 /\
    Forall icc_marker_shape new /\
    exists chunks,
      length chunks = length new /\
      concat chunks = [1; 2; 3] /\
      forall (k : nat) chunk,
        chunks !! k = Some chunk ->
        chunk = take (Z.to_nat kMaxIccBytesInMarker)
                     (drop (k * Z.to_nat kMaxIccBytesInMarker) [1; 2; 3]) /\
        new !! k =
          Some (marker_prefix kICCMarker (vsize chunk + 12 + 2)
                  ++ kICCSignature
                  ++ [to_uint8 (Z.of_nat k + 1); to_uint8 (vsize new)]
                  ++ (to_uint8 <$> chunk)).
Proof.
  assert (H : vsize [1; 2; 3] < 2 ^ 32) by (vm_compute; reflexivity).
  exact (conj H (write_icc_profile_chunking (fresh_cinfo 1 1 1) [1; 2; 3] H)).
Defined.

Lemma default_scan_script_level2_witness :
  (num_components (fresh_cinfo 8 8 3) = 1 \/
   num_components (fresh_cinfo 8 8 3) = 3) /\
  2 <= progressive_level (master (fresh_cinfo 8 8 3)) /\
  num_scans (SetDefaultScanScript (fresh_cinfo 8 8 3) 1) = 1 + 4 * 3 /\
  num_scans (SetDefaultScanScript (fresh_cinfo 8 8 3) 0) = 5 * 3.
Proof.
  assert (H1 : num_components (fresh_cinfo 8 8 3) = 1 \/
               num_components (fresh_cinfo 8 8 3) = 3)
    by (right; reflexivity).
  assert (H2 : 2 <= progressive_level (master (fresh_cinfo 8 8 3)))
    by (simpl; lia).
  split; [exact H1 |]. split; [exact H2 |]. split.
  - exact (proj1 (proj2 (proj2 (proj2
             (default_scan_script_level2 (fresh_cinfo 8 8 3) 1 H1 H2))))).
  - exact (proj1 (proj2 (proj2 (proj2
             (default_scan_script_level2 (fresh_cinfo 8 8 3) 0 H1 H2))))).
Defined.

Lemma set_icc_app_marker_replaces_witness :
  Forall (fun v => 2 <= vsize v) [com_blob; app2_blob_a; app2_blob_b] /\
  special_markers
    (master (SetICCAppMarker
               (with_markers (fresh_cinfo 1 1 1)
                             [com_blob; app2_blob_a; app2_blob_b] None)
               app2_blob_c)) =
  [com_blob] ++ app2_blob_c :: filter (fun v => ~ is_app2 v) [app2_blob_b].
Proof.
  assert (H : Forall (fun v => 2 <= vsize v)
                     [com_blob; app2_blob_a; app2_blob_b]).
  { repeat constructor; vm_compute; discriminate. }
  split; [exact H |].
  apply (proj2 (set_icc_app_marker_replaces
                  (with_markers (fresh_cinfo 1 1 1)
                                [com_blob; app2_blob_a; app2_blob_b] None)
                  app2_blob_c H)
           [com_blob] app2_blob_a [app2_blob_b]).
  - reflexivity.
  - repeat constructor. vm_compute. discriminate.
  - reflexivity.
Defined.

Lemma progressive_mode_matches_first_scan_witness :
  0 <= progressive_level (master (fresh_cinfo 8 8 1)) /\
  1 <= num_components (fresh_cinfo 8 8 1) /\
  scan_info (fresh_cinfo 8 8 1) <> Some [] /\
  jpegli_start_compress (fresh_cinfo 8 8 1) false = Ok staging_cinfo /\
  exists s rest,
    scan_info (finish_compress_scan_script staging_cinfo) = Some (s :: rest) /\
    (progressive_mode (finish_compress_scan_script staging_cinfo) = true
       <-> Ss s <> 0 \/ Se s <> 63).
Proof.
  assert (H1 : 0 <= progressive_level (master (fresh_cinfo 8 8 1)))
    by (simpl; lia).
  assert (H2 : 1 <= num_components (fresh_cinfo 8 8 1)) by (simpl; lia).
  assert (H3 : scan_info (fresh_cinfo 8 8 1) <> Some []) by discriminate.
  assert (H4 : jpegli_start_compress (fresh_cinfo 8 8 1) false
               = Ok staging_cinfo) by reflexivity.
  exact (conj H1 (conj H2 (conj H3 (conj H4
           (progressive_mode_matches_first_scan _ false _ H1 H2 H3 H4))))).
Defined.

Lemma start_compress_sampling_errors_witness :
  Forall (fun comp => h_samp_factor comp <> 0)
         (components (with_sampling (fresh_cinfo 8 8 3)
                                    [(2, 2); (2, 2); (1, 1)])) /\
  ((exists cinfo',
      jpegli_start_compress
        (with_sampling (fresh_cinfo 8 8 3) [(2, 2); (2, 2); (1, 1)]) false
      = Ok cinfo')
   <-> Forall (comp_ok
                 (max_samp h_samp_factor
                    (components (with_sampling (fresh_cinfo 8 8 3)
                                   [(2, 2); (2, 2); (1, 1)]))))
              (components (with_sampling (fresh_cinfo 8 8 3)
                                         [(2, 2); (2, 2); (1, 1)]))).
Proof.
  assert (H : Forall (fun comp => h_samp_factor comp <> 0)
                (components (with_sampling (fresh_cinfo 8 8 3)
                                           [(2, 2); (2, 2); (1, 1)]))).
  { vm_compute. repeat constructor; discriminate. }
  split; [exact H |].
  exact (proj2 (proj2 (start_compress_sampling_errors _ false H))).
Defined.

Lemma write_m_header_outcome_witness :
  0 <= 5 < 2 ^ 32 /\
  exists cinfo',
    jpegli_write_m_header (fresh_cinfo 1 1 1) 0xfe 5 = Ok cinfo' /\
    special_markers (master cinfo') =
      special_markers (master (fresh_cinfo 1 1 1)) ++ [marker_prefix 0xfe 5] /\
    cur_marker_data (master cinfo') =
      Some (length (special_markers (master (fresh_cinfo 1 1 1)))) /\
    special_markers (master cinfo')
      !! length (special_markers (master (fresh_cinfo 1 1 1)))
      = Some (marker_prefix 0xfe 5).
Proof.
  assert (H : 0 <= 5 < 2 ^ 32) by lia.
  split; [exact H |].
  apply (proj2 (proj2 (write_m_header_outcome (fresh_cinfo 1 1 1) 0xfe 5 H))).
  - lia.
  - left. reflexivity.
Defined.

Lemma write_scanlines_split_witness :
  staging_ready staging_cinfo /\
  lines_ready staging_cinfo two_lines /\
  vsize two_lines = 2 /\
  2 <= image_height staging_cinfo - next_scanline staging_cinfo /\
  0 <= 1 <= 2 /\
  exists whole part both,
    jpegli_write_scanlines staging_cinfo two_lines 2
      = Ok (whole, 2) /\
    jpegli_write_scanlines staging_cinfo
      (take (Z.to_nat 1) two_lines) 1 = Ok (part, 1) /\
    jpegli_write_scanlines part
      (drop (Z.to_nat 1) two_lines) (2 - 1) = Ok (both, 2 - 1) /\
    planes (input (master whole)) = planes (input (master both)) /\
    next_scanline whole = next_scanline both /\
    whole = both.
Proof.
  assert (H1 : staging_ready staging_cinfo).
  { vm_compute. repeat split; try discriminate.
    repeat constructor; discriminate. }
  assert (H2 : lines_ready staging_cinfo two_lines).
  { vm_compute. repeat constructor; discriminate. }
  assert (H3 : vsize two_lines = 2) by reflexivity.
  assert (H4 : 2 <= image_height staging_cinfo - next_scanline staging_cinfo)
    by (vm_compute; discriminate).
  assert (H5 : 0 <= 1 <= 2) by lia.
  exact (conj H1 (conj H2 (conj H3 (conj H4 (conj H5
           (write_scanlines_split staging_cinfo two_lines 2 1
              H1 H2 H3 H4 H5)))))).
Defined.

Lemma write_m_byte_appends_low_byte_witness :
  cur_marker_data
    (master (with_markers (fresh_cinfo 1 1 1) [com_blob] (Some 0%nat)))
    = Some 0%nat /\
  special_markers
    (master (with_markers (fresh_cinfo 1 1 1) [com_blob] (Some 0%nat)))
    !! 0%nat = Some com_blob /\
  exists cinfo',
    jpegli_write_m_byte
      (with_markers (fresh_cinfo 1 1 1) [com_blob] (Some 0%nat)) 0x141
      = Ok cinfo' /\
    special_markers (master cinfo') !! 0%nat = Some (com_blob ++ [0x41]).
Proof.
  split; [reflexivity |]. split; [reflexivity |].
  destruct (write_m_byte_appends_low_byte
              (with_markers (fresh_cinfo 1 1 1) [com_blob] (Some 0%nat))
              0x141 0%nat com_blob eq_refl eq_refl)
    as (cinfo' & Hcall & Hblob & _).
  exists cinfo'. split; [exact Hcall | exact Hblob].
Defined.

(** * The further properties at concrete inputs *)

Lemma marker_calls_keep_store_witness :
  Forall call_in_range comment_then_profile /\
  store_ok (fresh_cinfo 1 1 1) /\
  run_calls (fresh_cinfo 1 1 1) comment_then_profile = Ok commented_cinfo /\
  store_ok commented_cinfo /\
  store_extends (special_markers (master (fresh_cinfo 1 1 1)))
                (special_markers (master commented_cinfo)).
Proof.
  assert (H1 : Forall call_in_range comment_then_profile).
  { repeat constructor; vm_compute; try discriminate; reflexivity. }
  assert (H2 : store_ok (fresh_cinfo 1 1 1)).
  { split; [constructor | left; reflexivity]. }
  assert (H3 : run_calls (fresh_cinfo 1 1 1) comment_then_profile
               = Ok commented_cinfo) by (vm_compute; reflexivity).
  exact (conj H1 (conj H2 (conj H3
           (marker_calls_keep_store (fresh_cinfo 1 1 1) comment_then_profile
              commented_cinfo H1 H2 H3)))).
Defined.

Lemma marker_payload_round_trip_witness :
  app_or_com 0xfe /\
  vsize [0x41; 0x42] <= kMaxBytesInMarker /\
  exists c1 c2 blob,
    jpegli_write_m_header (fresh_cinfo 1 1 1) 0xfe (vsize [0x41; 0x42])
      = Ok c1 /\
    write_m_bytes c1 [0x41; 0x42] = Ok c2 /\
    special_markers (master c2) =
      special_markers (master (fresh_cinfo 1 1 1)) ++ [blob] /\
    byte_at blob 0 = 0xff /\
    byte_at blob 1 = 0xfe /\
    GetMarkerPayload blob = Some (to_uint8 <$> [0x41; 0x42]).
Proof.
  assert (H1 : app_or_com 0xfe) by (left; reflexivity).
  assert (H2 : vsize [0x41; 0x42] <= kMaxBytesInMarker)
    by (vm_compute; discriminate).
  exact (conj H1 (conj H2
           (marker_payload_round_trip (fresh_cinfo 1 1 1) 0xfe [0x41; 0x42]
              H1 H2))).
Defined.

Lemma marker_length_mismatch_rejected_witness :
  app_or_com 0xfe /\
  0 <= 3 <= kMaxBytesInMarker /\
  vsize [0x41] <> 3 /\
  exists c1 c2 blob,
    jpegli_write_m_header (fresh_cinfo 1 1 1) 0xfe 3 = Ok c1 /\
    write_m_bytes c1 [0x41] = Ok c2 /\
    special_markers (master c2) =
      special_markers (master (fresh_cinfo 1 1 1)) ++ [blob] /\
    GetMarkerPayload blob = None.
Proof.
  assert (H1 : app_or_com 0xfe) by (left; reflexivity).
  assert (H2 : 0 <= 3 <= kMaxBytesInMarker)
    by (split; vm_compute; discriminate).
  assert (H3 : vsize [0x41] <> 3) by (vm_compute; discriminate).
  exact (conj H1 (conj H2 (conj H3
           (marker_length_mismatch_rejected (fresh_cinfo 1 1 1) 0xfe 3 [0x41]
              H1 H2 H3)))).
Defined.

Lemma installed_icc_read_back_witness :
  Forall (fun v => 2 <= vsize v) [com_blob; app2_blob_a] /\
  vsize [1; 2; 3] <= kMaxIccBytesInMarker /\
  ParseChunkedMarker
    (SetICCAppMarker
       (with_markers (fresh_cinfo 1 1 1) [com_blob; app2_blob_a] None)
       (CreateICCAppMarker [1; 2; 3]))
    kApp2 kIccProfileTag false = Ok [1; 2; 3].
Proof.
  assert (H1 : Forall (fun v => 2 <= vsize v) [com_blob; app2_blob_a]).
  { repeat constructor; vm_compute; discriminate. }
  assert (H2 : vsize [1; 2; 3] <= kMaxIccBytesInMarker)
    by (vm_compute; discriminate).
  exact (conj H1 (conj H2
           (installed_icc_read_back
              (with_markers (fresh_cinfo 1 1 1) [com_blob; app2_blob_a] None)
              [1; 2; 3] H1 H2))).
Defined.

Lemma single_chunk_profile_is_created_marker_witness :
  octets [1; 2; 3] /\
  1 <= vsize [1; 2; 3] <= kMaxIccBytesInMarker /\
  exists cinfo',
    jpegli_write_icc_profile (fresh_cinfo 1 1 1) [1; 2; 3] (vsize [1; 2; 3])
      = Ok cinfo' /\
    special_markers (master cinfo') =
      special_markers (master (fresh_cinfo 1 1 1))
        ++ [CreateICCAppMarker [1; 2; 3]].
Proof.
  assert (H1 : octets [1; 2; 3]) by (repeat constructor; lia).
  assert (H2 : 1 <= vsize [1; 2; 3] <= kMaxIccBytesInMarker)
    by (split; vm_compute; discriminate).
  exact (conj H1 (conj H2
           (single_chunk_profile_is_created_marker (fresh_cinfo 1 1 1)
              [1; 2; 3] H1 H2))).
Defined.

Lemma two_chunk_profile_size : vsize two_chunk_profile = 65520.
Proof.
  unfold vsize, two_chunk_profile. rewrite length_replicate. lia.
Qed.

Lemma overlong_profile_size : vsize overlong_profile = 16707346.
Proof.
  unfold vsize, overlong_profile. rewrite length_replicate. lia.
Qed.

Lemma oversized_icc_is_lost_witness :
  Forall (fun v => 2 <= vsize v) [com_blob] /\
  kMaxIccBytesInMarker < vsize two_chunk_profile /\
  GetMarkerPayload (CreateICCAppMarker two_chunk_profile) = None /\
  ParseChunkedMarker
    (SetICCAppMarker (with_markers (fresh_cinfo 1 1 1) [com_blob] None)
                     (CreateICCAppMarker two_chunk_profile))
    kApp2 kIccProfileTag false = Ok [].
Proof.
  assert (H1 : Forall (fun v => 2 <= vsize v) [com_blob]).
  { repeat constructor; vm_compute; discriminate. }
  assert (H2 : kMaxIccBytesInMarker < vsize two_chunk_profile).
  { rewrite two_chunk_profile_size. reflexivity. }
  exact (conj H1 (conj H2
           (oversized_icc_is_lost
              (with_markers (fresh_cinfo 1 1 1) [com_blob] None)
              two_chunk_profile H1 H2))).
Defined.

Lemma truncated_profile_rejected_witness :
  octets two_chunk_profile /\
  vsize two_chunk_profile <= 65519 * 255 /\
  exists cinfo',
    jpegli_write_icc_profile (fresh_cinfo 1 1 1) two_chunk_profile
      (vsize two_chunk_profile) = Ok cinfo' /\
    (length (special_markers (master (fresh_cinfo 1 1 1))) + 1
       < length (special_markers (master cinfo')))%nat /\
    ParseChunkedMarker
      (with_markers cinfo'
         (take (length (special_markers (master (fresh_cinfo 1 1 1))) + 1)
               (special_markers (master cinfo')))
         None)
      kApp2 kIccProfileTag false = Err MissingChunk /\
    ParseChunkedMarker_output
      (with_markers cinfo'
         (take (length (special_markers (master (fresh_cinfo 1 1 1))) + 1)
               (special_markers (master cinfo')))
         None)
      kApp2 kIccProfileTag false
      = take (1 * Z.to_nat kMaxIccBytesInMarker) two_chunk_profile /\
    SetColorEncodingFromIccData
      (with_markers cinfo'
         (take (length (special_markers (master (fresh_cinfo 1 1 1))) + 1)
               (special_markers (master cinfo')))
         None)
      = Some (SRGB (num_components (fresh_cinfo 1 1 1) =? 1)).
Proof.
  assert (H1 : octets two_chunk_profile).
  { apply Forall_replicate. lia. }
  assert (H2 : vsize two_chunk_profile <= 65519 * 255).
  { rewrite two_chunk_profile_size. discriminate. }
  split; [exact H1 |]. split; [exact H2 |].
  destruct (write_icc_profile_markers (fresh_cinfo 1 1 1) two_chunk_profile)
    as [cur' Hwrite].
  eexists. split; [exact Hwrite |].
  assert (H3 : Forall (fun v => ~ is_app2 v)
                 (special_markers (master (fresh_cinfo 1 1 1))))
    by constructor.
  assert (H4 :
    (length (special_markers (master (fresh_cinfo 1 1 1))) + 1
     < length
         (special_markers
            (master
               (with_markers (fresh_cinfo 1 1 1)
                  (special_markers (master (fresh_cinfo 1 1 1))
                     ++ icc_markers
                          (Z.to_nat (DivCeil (vsize two_chunk_profile)
                                             kMaxIccBytesInMarker)) 0
                          (DivCeil (vsize two_chunk_profile)
                                   kMaxIccBytesInMarker)
                          two_chunk_profile)
                  cur'))))%nat).
  { cbn [with_markers master set_master set_markers special_markers
         fresh_cinfo fresh_master app length].
    rewrite icc_markers_length, two_chunk_profile_size.
    vm_compute. lia. }
  split; [exact H4 |].
  exact (truncated_profile_rejected (fresh_cinfo 1 1 1) two_chunk_profile _
           1%nat H1 H2 H3 Hwrite ltac:(lia) H4).
Defined.

Lemma second_profile_corrupts_store_witness :
  octets [1; 2; 3] /\
  1 <= vsize [1; 2; 3] <= 65519 * 255 /\
  1 <= vsize [4; 5] < 2 ^ 32 /\
  exists cinfo1 cinfo2,
    jpegli_write_icc_profile (fresh_cinfo 1 1 1) [1; 2; 3] (vsize [1; 2; 3])
      = Ok cinfo1 /\
    jpegli_write_icc_profile cinfo1 [4; 5] (vsize [4; 5]) = Ok cinfo2 /\
    vsize (special_markers (master cinfo2)) = 2 /\
    ParseChunkedMarker cinfo2 kApp2 kIccProfileTag false
      = Err InvalidChunkOrder /\
    ParseChunkedMarker_output cinfo2 kApp2 kIccProfileTag false = [] /\
    SetColorEncodingFromIccData cinfo2
      = Some (SRGB (num_components (fresh_cinfo 1 1 1) =? 1)).
Proof.
  assert (H1 : octets [1; 2; 3]) by (repeat constructor; lia).
  assert (H2 : 1 <= vsize [1; 2; 3] <= 65519 * 255)
    by (split; vm_compute; discriminate).
  assert (H3 : 1 <= vsize [4; 5] < 2 ^ 32)
    by (split; vm_compute; [discriminate | reflexivity]).
  assert (H4 : Forall (fun v => ~ is_app2 v)
                 (special_markers (master (fresh_cinfo 1 1 1))))
    by constructor.
  split; [exact H1 |]. split; [exact H2 |]. split; [exact H3 |].
  destruct (write_icc_profile_markers (fresh_cinfo 1 1 1) [1; 2; 3])
    as [cur1 Hw1].
  destruct (write_icc_profile_markers
              (with_markers (fresh_cinfo 1 1 1)
                 (special_markers (master (fresh_cinfo 1 1 1))
                    ++ icc_markers
                         (Z.to_nat (DivCeil (vsize [1; 2; 3])
                                            kMaxIccBytesInMarker)) 0
                         (DivCeil (vsize [1; 2; 3]) kMaxIccBytesInMarker)
                         [1; 2; 3])
                 cur1) [4; 5]) as [cur2 Hw2].
  eexists _, _. split; [exact Hw1 |]. split; [exact Hw2 |].
  pose proof (second_profile_corrupts_store (fresh_cinfo 1 1 1)
                [1; 2; 3] [4; 5] _ _ H1 H2 H3 H4 Hw1 Hw2) as H.
  cbv zeta in H. destruct H as (_ & _ & Hstore & Hfail & Hout & Hfall).
  split; [rewrite Hstore; reflexivity |].
  exact (conj Hfail (conj Hout Hfall)).
Defined.

Lemma set_icc_app_marker_last_wins_witness :
  Forall (fun v => 2 <= vsize v) [com_blob; app2_blob_a] /\
  is_app2 app2_blob_b /\ is_app2 app2_blob_c /\
  SetICCAppMarker
    (SetICCAppMarker
       (with_markers (fresh_cinfo 1 1 1) [com_blob; app2_blob_a] None)
       app2_blob_b)
    app2_blob_c =
  SetICCAppMarker
    (with_markers (fresh_cinfo 1 1 1) [com_blob; app2_blob_a] None)
    app2_blob_c.
Proof.
  assert (H1 : Forall (fun v => 2 <= vsize v) [com_blob; app2_blob_a]).
  { repeat constructor; vm_compute; discriminate. }
  assert (H2 : is_app2 app2_blob_b) by reflexivity.
  assert (H3 : is_app2 app2_blob_c) by reflexivity.
  exact (conj H1 (conj H2 (conj H3
           (proj1 (set_icc_app_marker_last_wins
                     (with_markers (fresh_cinfo 1 1 1)
                                   [com_blob; app2_blob_a] None)
                     app2_blob_b app2_blob_c H1 H2 H3))))).
Defined.

Lemma written_profile_sets_color_encoding_witness :
  octets [1; 2; 3] /\
  vsize [1; 2; 3] <= 65519 * 255 /\
  exists cinfo',
    jpegli_write_icc_profile
      (with_markers (fresh_cinfo 1 1 1) [com_blob] None) [1; 2; 3]
      (vsize [1; 2; 3]) = Ok cinfo' /\
    ParseChunkedMarker cinfo' kApp2 kIccProfileTag false = Ok [1; 2; 3] /\
    SetColorEncodingFromIccData cinfo' = Some (RawICC [1; 2; 3]).
Proof.
  assert (H1 : octets [1; 2; 3]) by (repeat constructor; lia).
  assert (H2 : vsize [1; 2; 3] <= 65519 * 255) by (vm_compute; discriminate).
  assert (H3 : Forall (fun v => ~ is_app2 v)
                 (special_markers
                    (master (with_markers (fresh_cinfo 1 1 1)
                                          [com_blob] None)))).
  { repeat constructor. vm_compute. discriminate. }
  exact (conj H1 (conj H2
           (written_profile_sets_color_encoding
              (with_markers (fresh_cinfo 1 1 1) [com_blob] None) [1; 2; 3]
              H1 H2 H3))).
Defined.

Lemma overlong_profile_unreadable_witness :
  octets overlong_profile /\
  65519 * 255 < vsize overlong_profile < 2 ^ 32 /\
  exists cinfo',
    jpegli_write_icc_profile (fresh_cinfo 1 1 1) overlong_profile
      (vsize overlong_profile) = Ok cinfo' /\
    (exists e, ParseChunkedMarker cinfo' kApp2 kIccProfileTag false = Err e) /\
    SetColorEncodingFromIccData cinfo' = Some (RawSRGB true).
Proof.
  assert (H1 : octets overlong_profile).
  { apply Forall_replicate. lia. }
  assert (H2 : 65519 * 255 < vsize overlong_profile < 2 ^ 32).
  { rewrite overlong_profile_size. split; reflexivity. }
  assert (H3 : Forall (fun v => ~ is_app2 v)
                 (special_markers (master (fresh_cinfo 1 1 1))))
    by constructor.
  exact (conj H1 (conj H2
           (overlong_profile_unreadable (fresh_cinfo 1 1 1) overlong_profile
              H1 H2 H3))).
Defined.

Lemma quality_scaling_antitone_witness :
  40 <= 60 /\
  0 <= jpegli_quality_scaling 60 <= jpegli_quality_scaling 40 /\
  jpegli_quality_scaling 40 <= 5000.
Proof.
  assert (H : 40 <= 60) by lia.
  exact (conj H (quality_scaling_antitone 40 60 H)).
Defined.

Lemma default_script_well_formed_witness :
  1 <= num_components (fresh_cinfo 8 8 3) /\
  exists scans,
    scan_info (SetDefaultScanScript (fresh_cinfo 8 8 3) 1) = Some scans /\
    vsize scans
      = script_space_size (SetDefaultScanScript (fresh_cinfo 8 8 3) 1) /\
    vsize scans = num_scans (SetDefaultScanScript (fresh_cinfo 8 8 3) 1) /\
    1 <= vsize scans /\
    Forall (scan_ok (num_components (fresh_cinfo 8 8 3))) scans.
Proof.
  assert (H : 1 <= num_components (fresh_cinfo 8 8 3)) by (simpl; lia).
  exact (conj H (default_script_well_formed (fresh_cinfo 8 8 3) 1 H)).
Defined.

Lemma default_script_complete_witness :
  0 <= 1 < num_components (fresh_cinfo 8 8 3) /\
  0 <= 5 <= 63 /\
  exists scans s,
    scan_info (SetDefaultScanScript (fresh_cinfo 8 8 3) 0) = Some scans /\
    s ∈ scans /\ completes s 1 5.
Proof.
  assert (H1 : 0 <= 1 < num_components (fresh_cinfo 8 8 3)) by (simpl; lia).
  assert (H2 : 0 <= 5 <= 63) by lia.
  exact (conj H1 (conj H2
           (default_script_complete (fresh_cinfo 8 8 3) 0 1 5 H1 H2))).
Defined.

Lemma progressive_level_decides_script_witness :
  scan_info (fresh_cinfo 8 8 1) = None /\
  exists cinfo0 cinfo1,
    jpegli_set_progressive_level (fresh_cinfo 8 8 1) 0 = Ok cinfo0 /\
    jpegli_start_compress cinfo0 false = Ok cinfo1 /\
    progressive_mode (finish_compress_scan_script cinfo1) = false /\
    scan_info (finish_compress_scan_script cinfo1)
      = Some [joint_scan 0 63 0 0 1].
Proof.
  assert (H1 : scan_info (fresh_cinfo 8 8 1) = None) by reflexivity.
  split; [exact H1 |].
  eexists _, _. split; [reflexivity |]. split; [reflexivity |].
  pose proof (progressive_level_decides_script (fresh_cinfo 8 8 1) 0 _ false _
                H1 eq_refl eq_refl) as H.
  cbv zeta in H. destruct H as (_ & Hpm & H0 & _).
  split; [exact Hpm | exact (proj1 (H0 eq_refl))].
Defined.

Lemma start_compress_prepares_staging_witness :
  0 <= image_width (fresh_cinfo 8 8 1) /\
  0 <= image_height (fresh_cinfo 8 8 1) < 2 ^ 32 /\
  0 <= num_components (fresh_cinfo 8 8 1) <= 3 /\
  jpegli_start_compress (fresh_cinfo 8 8 1) false = Ok staging_cinfo /\
  next_scanline staging_cinfo = 0 /\
  staging_ready staging_cinfo /\
  0 <= max_shift (master staging_cinfo) <= 3.
Proof.
  assert (H1 : 0 <= image_width (fresh_cinfo 8 8 1)) by (simpl; lia).
  assert (H2 : 0 <= image_height (fresh_cinfo 8 8 1) < 2 ^ 32)
    by (simpl; lia).
  assert (H3 : 0 <= num_components (fresh_cinfo 8 8 1) <= 3) by (simpl; lia).
  assert (H4 : jpegli_start_compress (fresh_cinfo 8 8 1) false
               = Ok staging_cinfo) by reflexivity.
  pose proof (start_compress_prepares_staging (fresh_cinfo 8 8 1) false
                staging_cinfo H1 H2 H3 H4)
    as (Hcursor & _ & _ & _ & Hready & Hshift & _).
  exact (conj H1 (conj H2 (conj H3 (conj H4
           (conj Hcursor (conj Hready Hshift)))))).
Defined.

Lemma finish_compress_block_asserts_hold_witness :
  jpegli_start_compress
    (with_sampling (fresh_cinfo 16 16 3) [(2, 2); (2, 2); (1, 1)]) false
    = Ok subsampled_cinfo /\
  exists counts,
    finish_compress_block_counts subsampled_cinfo = Some counts /\
    Forall2 (fun comp count =>
               let ratio :=
                 Z.quot (max_h_samp_factor subsampled_cinfo)
                        (h_samp_factor comp) in
               1 <= ratio <= 8 /\
               fst count * ratio = xsize_blocks (master subsampled_cinfo) /\
               snd count * ratio = ysize_blocks (master subsampled_cinfo) /\
               image_width
                 (with_sampling (fresh_cinfo 16 16 3)
                                [(2, 2); (2, 2); (1, 1)])
                 <= 8 * ratio * fst count /\
               image_height
                 (with_sampling (fresh_cinfo 16 16 3)
                                [(2, 2); (2, 2); (1, 1)])
                 <= 8 * ratio * snd count)
            (components subsampled_cinfo) counts.
Proof.
  assert (H : jpegli_start_compress
                (with_sampling (fresh_cinfo 16 16 3)
                               [(2, 2); (2, 2); (1, 1)]) false
              = Ok subsampled_cinfo) by (vm_compute; reflexivity).
  exact (conj H (finish_compress_block_asserts_hold _ false _ H)).
Defined.

Lemma max_shift_is_largest_ratio_witness :
  jpegli_start_compress
    (with_sampling (fresh_cinfo 16 16 3) [(2, 2); (2, 2); (1, 1)]) false
    = Ok subsampled_cinfo /\
  Forall (fun comp =>
            exists k, 0 <= k <= max_shift (master subsampled_cinfo) /\
              Z.quot (max_h_samp_factor subsampled_cinfo)
                     (h_samp_factor comp) = 2 ^ k)
         (components subsampled_cinfo).
Proof.
  assert (H : jpegli_start_compress
                (with_sampling (fresh_cinfo 16 16 3)
                               [(2, 2); (2, 2); (1, 1)]) false
              = Ok subsampled_cinfo) by (vm_compute; reflexivity).
  exact (conj H (proj1 (max_shift_is_largest_ratio _ false _ H))).
Defined.

Lemma defaults_pass_validation_witness :
  0 <= 3 /\
  exists cinfo1 cinfo2,
    jpegli_set_defaults true 3 JCS_RGB (fresh_cinfo 16 16 0) = Ok cinfo1 /\
    jpegli_start_compress cinfo1 false = Ok cinfo2 /\
    max_h_samp_factor cinfo2 = 2 /\
    max_shift (master cinfo2) = 1.
Proof.
  assert (H1 : 0 <= 3) by lia.
  split; [exact H1 |].
  destruct (defaults_pass_validation true 3 JCS_RGB (fresh_cinfo 16 16 0)
              _ false H1 eq_refl)
    as (cinfo2 & Hstart & Hmax & _ & Hshift & _).
  eexists _, cinfo2. split; [reflexivity |]. split; [exact Hstart |].
  split; [exact Hmax | exact Hshift].
Defined.

Lemma write_scanlines_samples_witness :
  staging_ready staging_cinfo /\
  lines_ready staging_cinfo two_lines /\
  0 <= 2 <= vsize two_lines /\
  2 <= image_height staging_cinfo - next_scanline staging_cinfo /\
  staged_by staging_cinfo 2 0 1 3 /\
  exists cinfo',
    jpegli_write_scanlines staging_cinfo two_lines 2 = Ok (cinfo', 2) /\
    sample_at (planes (input (master cinfo'))) 0 1 3 = Some 14.
Proof.
  assert (H1 : staging_ready staging_cinfo).
  { vm_compute. repeat split; try discriminate.
    repeat constructor; discriminate. }
  assert (H2 : lines_ready staging_cinfo two_lines).
  { vm_compute. repeat constructor; discriminate. }
  assert (H3 : 0 <= 2 <= vsize two_lines)
    by (split; vm_compute; discriminate).
  assert (H4 : 2 <= image_height staging_cinfo - next_scanline staging_cinfo)
    by (vm_compute; discriminate).
  assert (H5 : staged_by staging_cinfo 2 0 1 3)
    by (repeat split; vm_compute; try discriminate; reflexivity).
  split; [exact H1 |]. split; [exact H2 |]. split; [exact H3 |].
  split; [exact H4 |]. split; [exact H5 |].
  destruct (write_scanlines_samples staging_cinfo two_lines 2 0 1 3
              H1 H2 H3 H4) as (cinfo' & Hcall & Hin & _).
  exists cinfo'. split; [exact Hcall |].
  destruct (Hin H5) as (src & Hsrc & Hsample).
  rewrite Hsample. vm_compute in Hsrc. injection Hsrc as <-. reflexivity.
Defined.

Lemma write_scanlines_keeps_ready_witness :
  staging_ready (set_next_scanline staging_cinfo 7) /\
  lines_ready (set_next_scanline staging_cinfo 7) two_lines /\
  0 <= 2 /\
  2 + next_scanline (set_next_scanline staging_cinfo 7) < 2 ^ 32 /\
  Z.min 2 (image_height (set_next_scanline staging_cinfo 7)
           - next_scanline (set_next_scanline staging_cinfo 7))
    <= vsize two_lines /\
  exists cinfo',
    jpegli_write_scanlines (set_next_scanline staging_cinfo 7) two_lines 2 =
      Ok (cinfo',
          Z.min 2 (image_height (set_next_scanline staging_cinfo 7)
                   - next_scanline (set_next_scanline staging_cinfo 7))) /\
    staging_ready cinfo' /\
    next_scanline cinfo' = 8 /\
    extents (planes (input (master cinfo')))
      = extents (planes (input (master (set_next_scanline staging_cinfo 7)))).
Proof.
  assert (H1 : staging_ready (set_next_scanline staging_cinfo 7)).
  { vm_compute. repeat split; try discriminate.
    repeat constructor; discriminate. }
  assert (H2 : lines_ready (set_next_scanline staging_cinfo 7) two_lines).
  { vm_compute. repeat constructor; discriminate. }
  assert (H3 : 0 <= 2) by lia.
  assert (H4 : 2 + next_scanline (set_next_scanline staging_cinfo 7) < 2 ^ 32)
    by (vm_compute; reflexivity).
  assert (H5 : Z.min 2 (image_height (set_next_scanline staging_cinfo 7)
                        - next_scanline (set_next_scanline staging_cinfo 7))
               <= vsize two_lines) by (vm_compute; discriminate).
  split; [exact H1 |]. split; [exact H2 |]. split; [exact H3 |].
  split; [exact H4 |]. split; [exact H5 |].
  destruct (write_scanlines_keeps_ready (set_next_scanline staging_cinfo 7)
              two_lines 2 H1 H2 H3 H4 H5)
    as (cinfo' & Hcall & Hready & Hnext & _ & _ & _ & Hext).
  exists cinfo'. split; [exact Hcall |]. split; [exact Hready |].
  split; [rewrite Hnext; reflexivity | exact Hext].
Defined.

Lemma write_scanlines_nothing_to_do_witness :
  0 <= next_scanline (set_next_scanline staging_cinfo 8)
    <= image_height (set_next_scanline staging_cinfo 8) /\
  Z.min 3 (image_height (set_next_scanline staging_cinfo 8)
           - next_scanline (set_next_scanline staging_cinfo 8)) = 0 /\
  jpegli_write_scanlines (set_next_scanline staging_cinfo 8) two_lines 3
    = Ok (set_next_scanline staging_cinfo 8, 0).
Proof.
  assert (H1 : 0 <= next_scanline (set_next_scanline staging_cinfo 8)
               <= image_height (set_next_scanline staging_cinfo 8))
    by (split; vm_compute; discriminate).
  assert (H2 : Z.min 3 (image_height (set_next_scanline staging_cinfo 8)
                        - next_scanline (set_next_scanline staging_cinfo 8))
               = 0) by reflexivity.
  split; [exact H1 |]. split; [exact H2 |].
  apply (write_scanlines_nothing_to_do (set_next_scanline staging_cinfo 8)
           two_lines 3 H1).
  - vm_compute. reflexivity.
  - vm_compute. discriminate.
  - lia.
  - vm_compute. reflexivity.
  - exact H2.
Defined.
